(** * Onetime Authenticator: the OTP core (utils/otp.ts) and the account
      store (utils/storage.ts)

    A shallow embedding of the two utility modules of the application and
    the properties of its natural-language specification. Both modules are
    in [src/unnamed/part_000] (storage first, then otp); line numbers in
    the comments are those of that file.

    Conventions of the embedding.
    - A JavaScript string is a [string]: a sequence of 8-bit code units.
      Inputs are read as ASCII text; [length] is the JS [.length] on them.
    - A JavaScript number is a [Z]: the integer fragment of IEEE doubles
      (digits, periods, counters and epoch milliseconds are integers).
    - A computation that can raise is a [Result]: [Ok v] or [Throw e] where
      [e] is the [Error] object, of which only [message] is observed.
    - An [async] function is run to completion: [await] is sequencing, and
      a rejected promise is a [Throw].
    - [console.error], [console.warn]: the log is not observed.
    - What the modules import (the [otpauth] package, the JavaScript
      runtime, [expo-crypto], [AsyncStorage], [expo-secure-store]) is an
      interface: a class of operations. The second part of the file
      gives a reference instance of each. *)

From Stdlib Require Import ZArith Lia Ascii String.
From stdpp Require Import base option list strings gmap.

Local Open Scope Z_scope.

(** ** Exceptions *)

Record JsError := mkError { message : string }.

Inductive Result (A : Type) : Type :=
| Ok (a : A)
| Throw (e : JsError).
Arguments Ok {A} a.
Arguments Throw {A} e.

Definition bindR {A B} (r : Result A) (k : A -> Result B) : Result B :=
  match r with
  | Ok a => k a
  | Throw e => Throw e
  end.

(** [try { body } catch (error) { handler error }] *)
Definition try_catch {A} (body : Result A) (handler : JsError -> Result A)
  : Result A :=
  match body with
  | Ok a => Ok a
  | Throw e => handler e
  end.

Definition throw_new {A} (msg : string) : Result A := Throw (mkError msg).

#[global] Instance Result_ret : MRet Result := fun _ a => Ok a.
#[global] Instance Result_bind : MBind Result := fun _ _ k r => bindR r k.

Definition is_Ok {A} (r : Result A) : bool :=
  match r with Ok _ => true | Throw _ => false end.

(** [x || d] on an optional value with a notion of truthiness. *)
Definition or_else {A} (truthy : A -> bool) (x : option A) (d : A) : A :=
  match x with
  | Some v => if truthy v then v else d
  | None => d
  end.

(** A default parameter value: used when the argument is [undefined]. *)
Definition param {A} (d : A) (x : option A) : A :=
  match x with Some v => v | None => d end.

(** ** String.prototype *)

Module JS.

Definition str_truthy (s : string) : bool :=
  match s with "" => false | _ => true end.

Definition num_truthy (n : Z) : bool := negb (n =? 0).

Definition lower_char (c : ascii) : ascii :=
  let n := nat_of_ascii c in
  if ((65 <=? n) && (n <=? 90))%nat then ascii_of_nat (n + 32) else c.

Definition upper_char (c : ascii) : ascii :=
  let n := nat_of_ascii c in
  if ((97 <=? n) && (n <=? 122))%nat then ascii_of_nat (n - 32) else c.

Fixpoint map_str (f : ascii -> ascii) (s : string) : string :=
  match s with
  | "" => ""
  | String c t => String (f c) (map_str f t)
  end.

Definition toLowerCase : string -> string := map_str lower_char.
Definition toUpperCase : string -> string := map_str upper_char.

Fixpoint filter_str (p : ascii -> bool) (s : string) : string :=
  match s with
  | "" => ""
  | String c t => if p c then String c (filter_str p t) else filter_str p t
  end.

Fixpoint all_str (p : ascii -> bool) (s : string) : bool :=
  match s with
  | "" => true
  | String c t => p c && all_str p t
  end.

Fixpoint take_while (p : ascii -> bool) (s : string) : string :=
  match s with
  | "" => ""
  | String c t => if p c then String c (take_while p t) else ""
  end.

Fixpoint drop_while (p : ascii -> bool) (s : string) : string :=
  match s with
  | "" => ""
  | String c t => if p c then drop_while p t else s
  end.

Fixpoint take (n : nat) (s : string) : string :=
  match n, s with
  | S m, String c t => String c (take m t)
  | _, _ => ""
  end.

Fixpoint drop (n : nat) (s : string) : string :=
  match n, s with
  | S m, String _ t => drop m t
  | _, _ => s
  end.

(** [s.substring(a, b)] for [a <= b]. *)
Definition substring (a b : nat) (s : string) : string :=
  take (b - a) (drop a s).

Fixpoint startsWith (s pre : string) : bool :=
  match pre, s with
  | "", _ => true
  | String c p, String d t => if Ascii.eqb c d then startsWith t p else false
  | String _ _, "" => false
  end.

(** The text before and after the first occurrence of [pat]. *)
Fixpoint cut (pat s : string) : option (string * string) :=
  if startsWith s pat then Some ("", drop (String.length pat) s)
  else match s with
       | "" => None
       | String c t =>
           match cut pat t with
           | Some (b, a) => Some (String c b, a)
           | None => None
           end
       end.

Definition includes (s pat : string) : bool :=
  match cut pat s with Some _ => true | None => false end.

(** [s.replace(pat, rep)] with a string pattern: the first occurrence
    only. ([rep] holds no [$] in the callers.) *)
Definition replace (s pat rep : string) : string :=
  match cut pat s with
  | Some (b, a) => b +:+ rep +:+ a
  | None => s
  end.

(** [s.split(sep)] for a non-empty separator. *)
Fixpoint split_fuel (fuel : nat) (sep s : string) : list string :=
  match fuel with
  | O => [s]
  | S f =>
      match cut sep s with
      | Some (b, a) => b :: split_fuel f sep a
      | None => [s]
      end
  end.

Definition split (s sep : string) : list string :=
  split_fuel (String.length s) sep s.

Definition is_space (c : ascii) : bool :=
  match c with
  | "009" | "010" | "011" | "012" | "013" | " " => true
  | _ => false
  end%char.

Definition trimStart (s : string) : string := drop_while is_space s.
Definition trimEnd (s : string) : string :=
  String.rev (drop_while is_space (String.rev s)).
Definition trim (s : string) : string := trimEnd (trimStart s).

Fixpoint repeat_str (n : nat) (c : ascii) : string :=
  match n with
  | O => ""
  | S m => String c (repeat_str m c)
  end.

(** [s.padStart(target, c)] with a one-character filler. *)
Definition padStart (target : nat) (c : ascii) (s : string) : string :=
  repeat_str (target - String.length s) c +:+ s.

Definition digit_char (d : Z) : ascii := ascii_of_nat (48 + Z.to_nat d).

Definition is_digit (c : ascii) : bool :=
  let n := nat_of_ascii c in ((48 <=? n) && (n <=? 57))%nat.

Fixpoint dec_go (fuel : nat) (n : Z) (acc : string) : string :=
  match fuel with
  | O => acc
  | S f =>
      let acc' := String (digit_char (n mod 10)) acc in
      if n <? 10 then acc' else dec_go f (n / 10) acc'
  end.

(** [n.toString()] on an integer. *)
Definition Number_toString (n : Z) : string :=
  if n <? 0
  then String "-" (dec_go (S (Z.to_nat (Z.log2 (- n)))) (- n) "")
  else dec_go (S (Z.to_nat (Z.log2 n))) n "".

End JS.

(** ** JavaScript values read from JSON text *)

#[local] Set Warnings "-register-all".
Inductive JSON : Type :=
| JNull
| JBool (b : bool)
| JNum (n : Z)
| JStr (s : string)
| JArr (items : list JSON)
| JObj (fields : list (string * JSON)).

(** A JavaScript value or [undefined]. *)
Definition JsValue := option JSON.

Definition truthy (v : JsValue) : bool :=
  match v with
  | None => false
  | Some JNull => false
  | Some (JBool b) => b
  | Some (JNum n) => JS.num_truthy n
  | Some (JStr s) => JS.str_truthy s
  | Some (JArr _) => true
  | Some (JObj _) => true
  end.

(** [a || b] *)
Definition js_or (a b : JsValue) : JsValue := if truthy a then a else b.

Fixpoint lookup_field (k : string) (fields : list (string * JSON))
  : option JSON :=
  match fields with
  | [] => None
  | (k', v) :: rest => if String.eqb k k' then Some v else lookup_field k rest
  end.

(** [v.k]: reading a property of [null] raises a [TypeError]; the keys read
    by the application are own properties of objects only. *)
Definition get_prop (v : JSON) (k : string) : Result JsValue :=
  match v with
  | JNull =>
      throw_new ("Cannot read properties of null (reading '" +:+ k +:+ "')")
  | JObj fields => Ok (lookup_field k fields)
  | _ => Ok None
  end.

Definition typeof_string (v : JsValue) : bool :=
  match v with Some (JStr _) => true | _ => false end.

Definition Array_isArray (v : JsValue) : bool :=
  match v with Some (JArr _) => true | _ => false end.

(** String coercion, as in a template literal [`${v}`]. *)
Fixpoint to_js_string (v : JSON) : string :=
  match v with
  | JNull => "null"
  | JBool true => "true"
  | JBool false => "false"
  | JNum n => JS.Number_toString n
  | JStr s => s
  | JArr items =>
      (fix join (l : list JSON) : string :=
         match l with
         | [] => ""
         | x :: rest =>
             let sx := match x with JNull => "" | _ => to_js_string x end in
             match rest with
             | [] => sx
             | _ :: _ => sx +:+ "," +:+ join rest
             end
         end) items
  | JObj _ => "[object Object]"
  end.

Definition template (v : JsValue) : string :=
  match v with
  | None => "undefined"
  | Some j => to_js_string j
  end.

(** ** Imported interfaces *)

(** The [otpauth] package. A [Secret] is the raw key bytes. *)
Definition Secret := list Z.

(** What [OTPAuth.URI.parse] returns, as far as the application reads it. *)
Record ParsedOtp := mkParsedOtp {
  otp_type : option string;
  otp_label : option string;
  otp_issuer : option string;
  otp_secret : option Secret;
  otp_algorithm : option string;
  otp_digits : option Z;
  otp_period : option Z
}.

(** The configuration object of [new OTPAuth.TOTP({...})]. *)
Record TOTP := mkTOTP {
  totp_issuer : string;
  totp_label : string;
  totp_algorithm : string;
  totp_digits : Z;
  totp_period : Z;
  totp_secret : Secret
}.

Class OTPAuth := {
  Secret_fromBase32 : string -> Result Secret;
  Secret_base32 : Secret -> string;
  TOTP_new : TOTP -> Result TOTP;
  (** [totp.generate()] at [Date.now() = timestamp] *)
  TOTP_generate : TOTP -> Z -> Result string;
  URI_parse : string -> Result ParsedOtp
}.

(** [new URL(text)], as far as the application reads it. *)
Record URL := mkURL {
  pathname : string;
  search : string
}.

Class JSRuntime := {
  JSON_parse : string -> Result JSON;
  JSON_stringify : JSON -> string;
  encodeURIComponent : string -> Result string;
  decodeURIComponent : string -> Result string;
  (** [new URLSearchParams(init).get(name)]; [null] is [None] *)
  URLSearchParams_get : string -> string -> option string;
  URL_new : string -> Result URL
}.

(** [expo-crypto]: random bytes are drawn from an entropy source indexed by
    the number of draws made so far. *)
Class ExpoCrypto := {
  getRandomBytesAsync : nat -> nat -> list Z;
  digestStringAsync_SHA256_HEX : string -> string
}.

(** ** utils/otp.ts *)

Section Otp.
Context `{OTPAuth} `{JSRuntime}.

(** [generateTOTP(secret, algorithm = 'SHA1', digits = 6, period = 30)]
    evaluated when [Date.now()] is [now]. *)
Definition generateTOTP_try (now : Z) (secret : string)
    (algorithm : option string) (digits period : option Z) : Result string :=
  let algorithm := param "SHA1" algorithm in
  let digits := param 6 digits in
  let period := param 30 period in
  key ← Secret_fromBase32 secret;
  totp ← TOTP_new {| totp_issuer := ""; totp_label := "";
                     totp_algorithm := algorithm; totp_digits := digits;
                     totp_period := period; totp_secret := key |};
  TOTP_generate totp now.

Definition generateTOTP (now : Z) (secret : string)
    (algorithm : option string) (digits period : option Z) : Result string :=
  try_catch (generateTOTP_try now secret algorithm digits period)
            (fun error => Ok "ERROR").

(** [getTimeRemaining(period = 30)] evaluated when [Date.now()] is
    [nowMs]. [Math.floor] is [Z.div]; the [%] of JavaScript takes the sign
    of the dividend: [Z.rem]. *)
Definition getTimeRemaining (nowMs : Z) (period : option Z) : Z :=
  let period := param 30 period in
  let now := nowMs / 1000 in
  period - Z.rem now period.

(** What [parseOTPAuthURL] returns on success. *)
Record Credential := mkCredential {
  name : string;
  issuer : string;
  secret : string;
  algorithm : string;
  digits : Z;
  period : Z
}.

(** The messages of the errors that leave [parseOTPAuthURL]. *)
Definition InvalidFormat : string :=
  "The QR code does not contain a valid authentication URL. Please check the format.".
Definition MissingSecret : string :=
  "The QR code is missing the required secret key. Please ensure it contains a valid secret.".
Definition UnsupportedType : string :=
  "This type of authentication is not supported. Please use TOTP or HOTP.".
Definition UndeterminedType : string :=
  "Could not determine the authentication type. Please check the QR code.".
Definition InvalidMigrationPayload : string :=
  "Could not parse migration data".

(** [s.split(sep)[1]] *)
Definition split_1 (s sep : string) : option string := JS.split s sep !! 1%nat.

(** Lines 296-324: the migration branch. *)
Definition parse_migration (normalizedUrl : string) : Result Credential :=
  try_catch
    (let migrationData := split_1 normalizedUrl "otpauth-migration://offline?data=" in
     match migrationData with
     | Some data =>
         if JS.str_truthy data
         then Ok {| name := "Migrated Account";
                    issuer := "Migration Service";
                    secret := JS.substring 0 32 data;
                    algorithm := "SHA1";
                    digits := 6;
                    period := 30 |}
         else throw_new "Invalid migration data format"
     | None => throw_new "Invalid migration data format"
     end)
    (fun migrationError => throw_new InvalidMigrationPayload).

(** The regular expression of line 327: [otpauth://] in any case, then
    the longest run of characters that are neither white space nor a
    double or single quote; the leftmost match. *)
Definition uri_char (c : ascii) : bool :=
  negb (JS.is_space c || Ascii.eqb c (ascii_of_nat 34)
        || Ascii.eqb c (ascii_of_nat 39)).

Fixpoint match_otpauth (s : string) : option string :=
  if String.eqb (JS.toLowerCase (JS.take 10 s)) "otpauth://"
  then Some (JS.take 10 s +:+ JS.take_while uri_char (JS.drop 10 s))
  else match s with
       | "" => None
       | String _ t => match_otpauth t
       end.

(** [v.k1 || v.k2 || ...] *)
Fixpoint first_truthy (v : JSON) (keys : list string) : Result JsValue :=
  match keys with
  | [] => Ok None
  | k :: rest =>
      x ← get_prop v k;
      match rest with
      | [] => Ok x
      | _ :: _ => if truthy x then Ok x else first_truthy v rest
      end
  end.

Definition append_param (url key : string) (v : JsValue) : string :=
  if truthy v then url +:+ "&" +:+ key +:+ "=" +:+ template v else url.

(** Lines 333-346: the input as a JSON object. *)
Definition url_of_json (normalizedUrl : string) : Result string :=
  jsonData ← JSON_parse normalizedUrl;
  secret ← first_truthy jsonData ["secret"; "secretKey"; "key"];
  name0 ← first_truthy jsonData ["name"; "account"; "accountName"];
  let name := js_or name0 (Some (JStr "Unknown")) in
  issuer0 ← first_truthy jsonData ["issuer"; "service"; "provider"];
  let issuer := js_or issuer0 (Some (JStr "")) in
  if negb (truthy secret) then throw_new "No secret found in JSON" else
  ei ← encodeURIComponent (template issuer);
  en ← encodeURIComponent (template name);
  let otpauthUrl :=
    "otpauth://totp/" +:+ ei +:+ ":" +:+ en +:+ "?secret=" +:+ template secret in
  alg ← get_prop jsonData "algorithm";
  let otpauthUrl := append_param otpauthUrl "algorithm" alg in
  dig ← get_prop jsonData "digits";
  let otpauthUrl := append_param otpauthUrl "digits" dig in
  per ← get_prop jsonData "period";
  let otpauthUrl := append_param otpauthUrl "period" per in
  if truthy issuer
  then ei' ← encodeURIComponent (template issuer);
       Ok (otpauthUrl +:+ "&issuer=" +:+ ei')
  else Ok otpauthUrl.

(** [a || b] on the results of [params.get]. *)
Definition str_or (a b : option string) : option string :=
  match a with
  | Some s => if JS.str_truthy s then a else b
  | None => b
  end.

Definition str_truthy_opt (a : option string) : bool :=
  match a with Some s => JS.str_truthy s | None => false end.

Definition append_qparam (url key : string) (v : option string) : string :=
  match v with
  | Some s => if JS.str_truthy s then url +:+ "&" +:+ key +:+ "=" +:+ s else url
  | None => url
  end.

(** Lines 349-367: the input as a query string. *)
Definition url_of_query (normalizedUrl : string) : Result string :=
  let queryStr :=
    if JS.includes normalizedUrl "?"
    then param "" (split_1 normalizedUrl "?")
    else normalizedUrl in
  let params := URLSearchParams_get queryStr in
  let secret := str_or (params "secret") (params "key") in
  let name := param "" (str_or (str_or (params "name") (params "account"))
                               (Some "Unknown")) in
  let issuer := param "" (str_or (str_or (params "issuer") (params "service"))
                                 (Some "")) in
  match secret with
  | Some secret =>
      if negb (JS.str_truthy secret)
      then throw_new "No secret found in parameters" else
      ei ← encodeURIComponent issuer;
      en ← encodeURIComponent name;
      let otpauthUrl :=
        "otpauth://totp/" +:+ ei +:+ ":" +:+ en +:+ "?secret=" +:+ secret in
      let otpauthUrl := append_qparam otpauthUrl "algorithm" (params "algorithm") in
      let otpauthUrl := append_qparam otpauthUrl "digits" (params "digits") in
      let otpauthUrl := append_qparam otpauthUrl "period" (params "period") in
      if JS.str_truthy issuer
      then ei' ← encodeURIComponent issuer;
           Ok (otpauthUrl +:+ "&issuer=" +:+ ei')
      else Ok otpauthUrl
  | None => throw_new "No secret found in parameters"
  end.

(** [/[^A-Z2-7]/gi]: the characters that [replace] keeps. *)
Definition base32_char_ci (c : ascii) : bool :=
  let n := nat_of_ascii c in
  ((65 <=? n) && (n <=? 90) || (97 <=? n) && (n <=? 122)
   || (50 <=? n) && (n <=? 55))%nat.

(** Lines 369-375: the input as a raw secret. *)
Definition url_of_raw_secret (normalizedUrl : string) : Result string :=
  let cleanSecret := JS.filter_str base32_char_ci normalizedUrl in
  if (16 <=? String.length cleanSecret)%nat
  then Ok ("otpauth://totp/Unknown?secret=" +:+ cleanSecret)
  else throw_new "Invalid OTP Auth URL format".

(** Lines 326-378: the value of [otpauthUrl]. *)
Definition find_otpauthUrl (normalizedUrl : string) : Result string :=
  match match_otpauth normalizedUrl with
  | Some otpauthMatch => Ok otpauthMatch
  | None =>
      try_catch (url_of_json normalizedUrl) (fun jsonError =>
      try_catch (url_of_query normalizedUrl) (fun queryError =>
      url_of_raw_secret normalizedUrl))
  end.

(** Lines 380-385. *)
Definition add_type_normalizedUrl (normalizedUrl : string) : string :=
  let l := JS.toLowerCase normalizedUrl in
  if JS.startsWith l "otpauth://"
     && negb (JS.startsWith l "otpauth://totp/")
     && negb (JS.startsWith l "otpauth://hotp/")
  then JS.replace normalizedUrl "otpauth://" "otpauth://totp/"
  else normalizedUrl.

(** Lines 387-390. *)
Definition add_type_otpauthUrl (otpauthUrl : string) : string :=
  let l := JS.toLowerCase otpauthUrl in
  if negb (JS.includes l "/totp/") && negb (JS.includes l "/hotp/")
  then JS.replace otpauthUrl "otpauth://" "otpauth://totp/"
  else otpauthUrl.

Definition last_str (l : list string) : option string := last l.

(** Lines 407-417: the secret of the parsed structure, or else the
    [secret] parameter of the raw URL. *)
Definition require_secret (normalizedUrl : string) (parsedOtp : ParsedOtp)
  : Result Secret :=
  match otp_secret parsedOtp with
  | Some s => Ok s
  | None =>
      urlObj ← URL_new normalizedUrl;
      match URLSearchParams_get (search urlObj) "secret" with
      | Some secret =>
          if JS.str_truthy secret then Secret_fromBase32 secret
          else throw_new "Missing secret key"
      | None => throw_new "Missing secret key"
      end
  end.

(** Lines 419-460: the final values of [accountName] and [issuerName]. *)
Definition resolve_names (otpauthUrl : string) (parsedOtp : ParsedOtp)
  : string * string :=
  let accountName := or_else JS.str_truthy (otp_label parsedOtp) "" in
  let issuerName := or_else JS.str_truthy (otp_issuer parsedOtp) "" in
  let issuerName :=
    if negb (JS.str_truthy issuerName)
    then match URL_new otpauthUrl with
         | Ok urlObj =>
             or_else JS.str_truthy (URLSearchParams_get (search urlObj) "issuer") ""
         | Throw e => issuerName
         end
    else issuerName in
  let labelParts := JS.split accountName ":" in
  let '(accountName, issuerName) :=
    match labelParts with
    | part0 :: part1 :: _ =>
        (JS.trim part1,
         if negb (JS.str_truthy issuerName) then JS.trim part0 else issuerName)
    | _ => (accountName, issuerName)
    end in
  let accountName :=
    if negb (JS.str_truthy accountName)
    then match URL_new otpauthUrl with
         | Ok urlObj =>
             let pathParts := JS.split (pathname urlObj) "/" in
             match last_str pathParts with
             | Some lastPart =>
                 if JS.str_truthy lastPart
                    && negb (String.eqb lastPart "totp")
                    && negb (String.eqb lastPart "hotp")
                 then match decodeURIComponent lastPart with
                      | Ok decoded => decoded
                      | Throw e => accountName
                      end
                 else accountName
             | None => accountName
             end
         | Throw e => accountName
         end
    else accountName in
  if negb (JS.str_truthy accountName) && negb (JS.str_truthy issuerName)
  then ("Unknown Account", "Unknown Service")
  else (accountName, issuerName).

(** Lines 392-469: from the canonical URI to the credential. *)
Definition parse_canonical (normalizedUrl otpauthUrl : string)
  : Result Credential :=
  parsedOtp ← URI_parse otpauthUrl;
  let type := or_else JS.str_truthy (otp_type parsedOtp) "totp" in
  let otpType := JS.toLowerCase type in
  if negb (String.eqb otpType "totp") && negb (String.eqb otpType "hotp")
  then throw_new ("Unsupported OTP type: " +:+ type
                  +:+ ". Only TOTP and HOTP are supported.")
  else
  parsedSecret ← require_secret normalizedUrl parsedOtp;
  let '(accountName, issuerName) := resolve_names otpauthUrl parsedOtp in
  Ok {| name := accountName;
        issuer := issuerName;
        secret := Secret_base32 parsedSecret;
        algorithm := or_else JS.str_truthy (otp_algorithm parsedOtp) "SHA1";
        digits := or_else JS.num_truthy (otp_digits parsedOtp) 6;
        period := or_else JS.num_truthy (otp_period parsedOtp) 30 |}.

(** Lines 291-469: the [try] block. The first component is the value of
    the local [normalizedUrl] when the block is left. *)
Definition parse_try (url : string) : string * Result Credential :=
  let normalizedUrl := JS.trim url in
  if JS.startsWith normalizedUrl "otpauth-migration://"
  then (normalizedUrl, parse_migration normalizedUrl)
  else
    match find_otpauthUrl normalizedUrl with
    | Throw e => (normalizedUrl, Throw e)
    | Ok otpauthUrl =>
        let normalizedUrl := add_type_normalizedUrl normalizedUrl in
        let otpauthUrl := add_type_otpauthUrl otpauthUrl in
        (normalizedUrl, parse_canonical normalizedUrl otpauthUrl)
    end.

(** One activation of [parseOTPAuthURL]: it returns or throws ([Done]), or
    it reaches the recursive call of line 494 ([Retry modifiedUrl]). *)
Inductive Outcome :=
| Done (r : Result Credential)
| Retry (modifiedUrl : string).

(** Lines 470-503: the [catch] block. Every thrown value is an [Error]. *)
Definition parse_catch (normalizedUrl : string) (error : JsError) : Outcome :=
  if JS.includes (message error) "Invalid OTP Auth URL format"
  then Done (throw_new InvalidFormat)
  else if JS.includes (message error) "Missing secret key"
  then Done (throw_new MissingSecret)
  else if JS.includes (message error) "Unsupported OTP type"
  then Done (throw_new UnsupportedType)
  else if JS.includes (message error) "Missing OTP type"
  then Retry (JS.replace normalizedUrl "otpauth://" "otpauth://totp/")
  else Done (Throw error).

Definition parse_activation (url : string) : Outcome :=
  match parse_try url with
  | (_, Ok c) => Done (Ok c)
  | (normalizedUrl, Throw error) => parse_catch normalizedUrl error
  end.

(** Lines 492-497: what the [try] around the recursive call makes of its
    outcome ([None]: the call has not returned). *)
Definition after_retry (inner : option (Result Credential))
  : option (Result Credential) :=
  match inner with
  | Some (Ok c) => Some (Ok c)
  | Some (Throw retryError) => Some (throw_new UndeterminedType)
  | None => None
  end.

(** [parseOTPAuthURL]: [fuel] bounds the number of activations; [None]
    when the bound is reached. *)
Fixpoint parseOTPAuthURL (fuel : nat) (url : string)
  : option (Result Credential) :=
  match fuel with
  | O => None
  | S fuel' =>
      match parse_activation url with
      | Done r => Some r
      | Retry modifiedUrl => after_retry (parseOTPAuthURL fuel' modifiedUrl)
      end
  end.

End Otp.

(** ** utils/storage.ts *)

(** The persistent state the module works on: the two key-value stores,
    whether the secure store can be used
    ([Platform.OS !== 'web' && SecureStore && await SecureStore.isAvailableAsync()])
    and the number of random draws made so far. [setItem] and [getItem]
    do not fail. *)
Record Device := mkDevice {
  asyncStorage : gmap string string;
  secureStore : gmap string string;
  secureStoreAvailable : bool;
  draws : nat
}.

Definition AsyncStorage_setItem (k v : string) (d : Device) : Device :=
  {| asyncStorage := <[k := v]> (asyncStorage d);
     secureStore := secureStore d;
     secureStoreAvailable := secureStoreAvailable d;
     draws := draws d |}.

Definition SecureStore_setItemAsync (k v : string) (d : Device) : Device :=
  {| asyncStorage := asyncStorage d;
     secureStore := <[k := v]> (secureStore d);
     secureStoreAvailable := secureStoreAvailable d;
     draws := draws d |}.

Definition draw (d : Device) : Device :=
  {| asyncStorage := asyncStorage d;
     secureStore := secureStore d;
     secureStoreAvailable := secureStoreAvailable d;
     draws := S (draws d) |}.

Definition ACCOUNTS_STORAGE_KEY : string := "onetime_authenticator_accounts".
Definition ENCRYPTION_KEY_STORAGE_KEY : string :=
  "onetime_authenticator_encryption_key".
Definition ENCRYPTED_STORAGE_ENABLED_KEY : string := "encrypted_storage_enabled".

Section Storage.
Context `{JSRuntime} `{ExpoCrypto}.

Definition hex_digit (n : Z) : ascii :=
  if n <? 10 then ascii_of_nat (48 + Z.to_nat n)
  else ascii_of_nat (87 + Z.to_nat n).

(** [byte.toString(16).padStart(2, '0')] *)
Definition hex_byte (b : Z) : string :=
  String (hex_digit (b / 16)) (String (hex_digit (b mod 16)) "").

(** [Array.from(bytes).map(...).join('')] *)
Definition hex_of_bytes (bytes : list Z) : string :=
  foldr (fun b acc => hex_byte b +:+ acc) "" bytes.

Definition generateEncryptionKey (d : Device) : string * Device :=
  let randomBytes := getRandomBytesAsync (draws d) 32 in
  (hex_of_bytes randomBytes, draw d).

Definition getEncryptionKey (d : Device) : string * Device :=
  if secureStoreAvailable d
  then
    let key := secureStore d !! ENCRYPTION_KEY_STORAGE_KEY in
    if str_truthy_opt key then (param "" key, d)
    else
      let '(key, d) := generateEncryptionKey d in
      (key, SecureStore_setItemAsync ENCRYPTION_KEY_STORAGE_KEY key d)
  else
    let key := asyncStorage d !! ENCRYPTION_KEY_STORAGE_KEY in
    if str_truthy_opt key then (param "" key, d)
    else
      let '(key, d) := generateEncryptionKey d in
      (key, AsyncStorage_setItem ENCRYPTION_KEY_STORAGE_KEY key d).

(** The object [{ iv: ivHex, data: encrypted }] of lines 79-82. *)
Definition envelope (ivHex encrypted : string) : JSON :=
  JObj [("iv", JStr ivHex); ("data", JStr encrypted)].

Definition encryptData (data : string) (d : Device) : string * Device :=
  let '(key, d) := getEncryptionKey d in
  let iv := getRandomBytesAsync (draws d) 16 in
  let d := draw d in
  let ivHex := hex_of_bytes iv in
  let encrypted := digestStringAsync_SHA256_HEX (data +:+ key +:+ ivHex) in
  (JSON_stringify (envelope ivHex encrypted), d).

(** The [ivHex] and the [encrypted] that [encryptData data] computes. *)
Definition encrypt_parts (data : string) (d : Device) : string * string :=
  let '(key, d) := getEncryptionKey d in
  let ivHex := hex_of_bytes (getRandomBytesAsync (draws d) 16) in
  (ivHex, digestStringAsync_SHA256_HEX (data +:+ key +:+ ivHex)).

(** The value is the [data] property as it is: [null] after a failure. *)
Definition decryptData (encryptedData : string) (d : Device)
  : JsValue * Device :=
  match (parsed ← JSON_parse encryptedData;
         iv ← get_prop parsed "iv";
         data ← get_prop parsed "data";
         Ok data) with
  | Ok data =>
      let '(key, d) := getEncryptionKey d in
      (data, d)
  | Throw error => (Some JNull, d)
  end.

Definition isEncryptedStorageEnabled (d : Device) : bool :=
  match asyncStorage d !! ENCRYPTED_STORAGE_ENABLED_KEY with
  | Some value => String.eqb value "true"
  | None => false
  end.

Definition saveAccounts (accounts : JsValue) (d : Device) : Device :=
  let accounts :=
    if negb (truthy accounts) then JArr [] else param JNull accounts in
  let data := JSON_stringify accounts in
  let useEncryption := isEncryptedStorageEnabled d in
  if useEncryption
  then
    let '(encryptedData, d) := encryptData data d in
    AsyncStorage_setItem ACCOUNTS_STORAGE_KEY encryptedData d
  else AsyncStorage_setItem ACCOUNTS_STORAGE_KEY data d.

(** [getAccounts] is typed [OTPAccount[]] and returns what [JSON.parse]
    returns. *)
Definition getAccounts (d : Device) : JSON * Device :=
  let data := asyncStorage d !! ACCOUNTS_STORAGE_KEY in
  if negb (str_truthy_opt data) then (JArr [], d)
  else
    let data := param "" data in
    let useEncryption := isEncryptedStorageEnabled d in
    if useEncryption
    then
      let '(decryptedData, d) := decryptData data d in
      if truthy decryptedData
      then match JSON_parse (template decryptedData) with
           | Ok accounts => (accounts, d)
           | Throw error => (JArr [], d)
           end
      else (JArr [], d)
    else match JSON_parse data with
         | Ok accounts => (accounts, d)
         | Throw error => (JArr [], d)
         end.

(** The predicate of [data.accounts.filter(...)], lines 230-235. *)
Definition valid_account (account : JSON) : bool :=
  truthy (Some account)
  && match (name ← get_prop account "name";
            issuer ← get_prop account "issuer";
            secret ← get_prop account "secret";
            Ok (typeof_string name && typeof_string issuer
                && typeof_string secret)) with
     | Ok b => b
     | Throw _ => false
     end.

Definition importAccounts (backupData : string) (d : Device) : bool * Device :=
  match (data ← JSON_parse backupData;
         accounts ← get_prop data "accounts";
         Ok accounts) with
  | Ok accounts =>
      if negb (truthy accounts) || negb (Array_isArray accounts)
      then (false, d)
      else
        match accounts with
        | Some (JArr items) =>
            let validAccounts := List.filter valid_account items in
            (true, saveAccounts (Some (JArr validAccounts)) d)
        | _ => (false, d)
        end
  | Throw error => (false, d)
  end.

End Storage.


(** * Reference instances of the imported interfaces *)

(** ** Hash functions (FIPS 180-4) and HMAC (RFC 2104)

    Bytes are integers in [0, 255]; a [w]-bit word is a [Z] kept below
    [2^w] by [mask]. *)

Module Crypto.

Definition mask (w x : Z) : Z := Z.land x (Z.ones w).
Definition rotr (w n x : Z) : Z :=
  mask w (Z.lor (Z.shiftr x n) (Z.shiftl x (w - n))).
Definition rotl (w n x : Z) : Z := rotr w (w - n) x.
Definition add (w x y : Z) : Z := mask w (x + y).

(** Big-endian bytes of a number, and back. *)
Fixpoint be_bytes (n : nat) (x : Z) : list Z :=
  match n with
  | O => []
  | S m => Z.land (Z.shiftr x (8 * Z.of_nat m)) 255 :: be_bytes m x
  end.

Definition be_word (bs : list Z) : Z :=
  fold_left (fun acc b => Z.lor (Z.shiftl acc 8) b) bs 0.

Fixpoint chunks_fuel (fuel n : nat) (l : list Z) : list (list Z) :=
  match fuel with
  | O => []
  | S f =>
      match l with
      | [] => []
      | _ :: _ => firstn n l :: chunks_fuel f n (skipn n l)
      end
  end.

Definition chunks (n : nat) (l : list Z) : list (list Z) :=
  chunks_fuel (length l) n l.

(** Message padding: a [1] bit, zeros, and the bit length on [lenbytes]
    bytes, up to a multiple of [block] bytes. *)
Definition pad (block lenbytes : nat) (msg : list Z) : list Z :=
  let l := length msg in
  let k := ((block - (l + 1 + lenbytes) mod block) mod block)%nat in
  msg ++ [128] ++ repeat 0 k ++ be_bytes lenbytes (8 * Z.of_nat l).

Definition words_of_block (wbytes : nat) (block : list Z) : list Z :=
  map be_word (chunks wbytes block).

(** *** SHA-1 *)

Definition sha1_f (t : nat) (b c d : Z) : Z :=
  if (t <? 20)%nat then Z.lor (Z.land b c) (Z.land (mask 32 (Z.lnot b)) d)
  else if (t <? 40)%nat then Z.lxor (Z.lxor b c) d
  else if (t <? 60)%nat
       then Z.lor (Z.lor (Z.land b c) (Z.land b d)) (Z.land c d)
  else Z.lxor (Z.lxor b c) d.

Definition sha1_k (t : nat) : Z :=
  if (t <? 20)%nat then 0x5a827999
  else if (t <? 40)%nat then 0x6ed9eba1
  else if (t <? 60)%nat then 0x8f1bbcdc
  else 0xca62c1d6.

(** The message schedule, latest word first. *)
Fixpoint sha1_extend (n : nat) (rw : list Z) : list Z :=
  match n with
  | O => rw
  | S m =>
      let w := rotl 32 1 (Z.lxor (Z.lxor (nth 2 rw 0) (nth 7 rw 0))
                                 (Z.lxor (nth 13 rw 0) (nth 15 rw 0))) in
      sha1_extend m (w :: rw)
  end.

Definition sha1_round (st : Z * Z * Z * Z * Z) (tw : nat * Z)
  : Z * Z * Z * Z * Z :=
  let '(a, b, c, d, e) := st in
  let '(t, w) := tw in
  let temp := add 32 (add 32 (add 32 (add 32 (rotl 32 5 a) (sha1_f t b c d)) e)
                           (sha1_k t)) w in
  (temp, a, rotl 32 30 b, c, d).

Definition sha1_block (h : Z * Z * Z * Z * Z) (block : list Z)
  : Z * Z * Z * Z * Z :=
  let w := rev (sha1_extend 64 (rev (words_of_block 4 block))) in
  let '(a, b, c, d, e) := fold_left sha1_round (combine (seq 0 80) w) h in
  let '(h0, h1, h2, h3, h4) := h in
  (add 32 h0 a, add 32 h1 b, add 32 h2 c, add 32 h3 d, add 32 h4 e).

Definition sha1 (msg : list Z) : list Z :=
  let '(h0, h1, h2, h3, h4) :=
    fold_left sha1_block (chunks 64 (pad 64 8 msg))
      (0x67452301, 0xefcdab89, 0x98badcfe, 0x10325476, 0xc3d2e1f0) in
  be_bytes 4 h0 ++ be_bytes 4 h1 ++ be_bytes 4 h2 ++ be_bytes 4 h3
  ++ be_bytes 4 h4.

(** *** SHA-256 and SHA-512: one algorithm at two word sizes *)

Record SHA2 := mkSHA2 {
  wbits : Z;
  wbytes : nat;
  rounds : nat;
  round_constants : list Z;
  initial_hash : list Z;
  Sigma0 : Z * Z * Z;
  Sigma1 : Z * Z * Z;
  sigma0 : Z * Z * Z;
  sigma1 : Z * Z * Z
}.

Definition big_sigma (p : SHA2) (r : Z * Z * Z) (x : Z) : Z :=
  let '(r1, r2, r3) := r in
  Z.lxor (Z.lxor (rotr (wbits p) r1 x) (rotr (wbits p) r2 x))
         (rotr (wbits p) r3 x).

Definition small_sigma (p : SHA2) (r : Z * Z * Z) (x : Z) : Z :=
  let '(r1, r2, s) := r in
  Z.lxor (Z.lxor (rotr (wbits p) r1 x) (rotr (wbits p) r2 x)) (Z.shiftr x s).

Fixpoint sha2_extend (p : SHA2) (n : nat) (rw : list Z) : list Z :=
  match n with
  | O => rw
  | S m =>
      let w := add (wbits p)
                 (add (wbits p) (small_sigma p (sigma1 p) (nth 1 rw 0))
                                (nth 6 rw 0))
                 (add (wbits p) (small_sigma p (sigma0 p) (nth 14 rw 0))
                                (nth 15 rw 0)) in
      sha2_extend p m (w :: rw)
  end.

Definition sha2_round (p : SHA2) (st : list Z) (kw : Z * Z) : list Z :=
  match st with
  | [a; b; c; d; e; f; g; h] =>
      let '(k, w) := kw in
      let ch := Z.lxor (Z.land e f) (Z.land (mask (wbits p) (Z.lnot e)) g) in
      let maj := Z.lxor (Z.lxor (Z.land a b) (Z.land a c)) (Z.land b c) in
      let t1 := add (wbits p)
                  (add (wbits p) (add (wbits p) h (big_sigma p (Sigma1 p) e))
                                 (add (wbits p) ch k)) w in
      let t2 := add (wbits p) (big_sigma p (Sigma0 p) a) maj in
      [add (wbits p) t1 t2; a; b; c; add (wbits p) d t1; e; f; g]
  | _ => st
  end.

Definition sha2_block (p : SHA2) (h : list Z) (block : list Z) : list Z :=
  let w := rev (sha2_extend p (rounds p - 16)
                  (rev (words_of_block (wbytes p) block))) in
  let st := fold_left (sha2_round p) (combine (round_constants p) w) h in
  map (fun xy => add (wbits p) (fst xy) (snd xy)) (combine h st).

Definition sha2 (p : SHA2) (msg : list Z) : list Z :=
  let h := fold_left (sha2_block p)
             (chunks (16 * wbytes p) (pad (16 * wbytes p) (2 * wbytes p) msg))
             (initial_hash p) in
  concat (map (be_bytes (wbytes p)) h).

(** The constants are fractional parts of roots of the first primes: the
    first [w] bits of the square roots of the first 8 primes (initial hash)
    and of the cube roots of the first 64 or 80 primes (round constants). *)
Fixpoint no_divisor (fuel k n : nat) : bool :=
  match fuel with
  | O => true
  | S f =>
      if (n <? k * k)%nat then true
      else if (n mod k =? 0)%nat then false
      else no_divisor f (S k) n
  end.

Fixpoint primes_from (fuel count n : nat) : list Z :=
  match fuel, count with
  | O, _ | _, O => []
  | S f, S c =>
      if no_divisor n 2 n then Z.of_nat n :: primes_from f c (S n)
      else primes_from f count (S n)
  end.

Definition first_primes (count : nat) : list Z := primes_from 500 count 2.

(** The integer cube root, bit by bit from the top. *)
Fixpoint cbrt_go (bits : nat) (n acc : Z) : Z :=
  match bits with
  | O => acc
  | S b =>
      let cand := acc + 2 ^ Z.of_nat b in
      if cand * cand * cand <=? n then cbrt_go b n cand else cbrt_go b n acc
  end.

Definition frac_sqrt (w p : Z) : Z := Z.sqrt (p * 2 ^ (2 * w)) mod 2 ^ w.
Definition frac_cbrt (w p : Z) : Z :=
  cbrt_go (Z.to_nat w + 8) (p * 2 ^ (3 * w)) 0 mod 2 ^ w.

Definition K256 : list Z :=
  Eval vm_compute in map (frac_cbrt 32) (first_primes 64).
Definition H256 : list Z :=
  Eval vm_compute in map (frac_sqrt 32) (first_primes 8).
Definition K512 : list Z :=
  Eval vm_compute in map (frac_cbrt 64) (first_primes 80).
Definition H512 : list Z :=
  Eval vm_compute in map (frac_sqrt 64) (first_primes 8).

Definition SHA256 : SHA2 :=
  {| wbits := 32; wbytes := 4; rounds := 64;
     round_constants := K256; initial_hash := H256;
     Sigma0 := (2, 13, 22); Sigma1 := (6, 11, 25);
     sigma0 := (7, 18, 3); sigma1 := (17, 19, 10) |}.

Definition SHA512 : SHA2 :=
  {| wbits := 64; wbytes := 8; rounds := 80;
     round_constants := K512; initial_hash := H512;
     Sigma0 := (28, 34, 39); Sigma1 := (14, 18, 41);
     sigma0 := (1, 8, 7); sigma1 := (19, 61, 6) |}.

Definition sha256 : list Z -> list Z := sha2 SHA256.
Definition sha512 : list Z -> list Z := sha2 SHA512.

(** *** HMAC *)

Definition hmac_with (hash : list Z -> list Z) (block : nat)
    (key msg : list Z) : list Z :=
  let key := if (block <? length key)%nat then hash key else key in
  let key := key ++ repeat 0 (block - length key) in
  let ipad := map (Z.lxor 0x36) key in
  let opad := map (Z.lxor 0x5c) key in
  hash (opad ++ hash (ipad ++ msg)).

Definition bytes_of_string (s : string) : list Z :=
  map (fun c => Z.of_nat (nat_of_ascii c)) (list_ascii_of_string s).

End Crypto.

(** ** The otpauth package *)

Module SpecOTPAuth.

(** Modelled from the spec: [OTPAuth.Secret.fromBase32] and the [base32]
    getter are code of the [otpauth] package, which the repository imports
    and does not contain. The spec (section 3): RFC 4648 alphabet A-Z and
    2-7, optional [=] padding, case-insensitive on input, normalized to
    uppercase, decoding to at least one byte; (section 4.1) decoding fails
    on an invalid character or an empty result. *)
Definition base32_value (c : ascii) : option Z :=
  let n := nat_of_ascii (JS.upper_char c) in
  if ((65 <=? n) && (n <=? 90))%nat then Some (Z.of_nat n - 65)
  else if ((50 <=? n) && (n <=? 55))%nat then Some (Z.of_nat n - 24)
  else None.

Fixpoint base32_values (s : string) : option (list Z) :=
  match s with
  | "" => Some []
  | String c t =>
      match base32_value c, base32_values t with
      | Some v, Some vs => Some (v :: vs)
      | _, _ => None
      end
  end.

Fixpoint decode_go (vals : list Z) (bits acc : Z) : list Z :=
  match vals with
  | [] => []
  | v :: rest =>
      let acc := acc * 32 + v in
      let bits := bits + 5 in
      if 8 <=? bits
      then acc / 2 ^ (bits - 8)
           :: decode_go rest (bits - 8) (acc mod 2 ^ (bits - 8))
      else decode_go rest bits acc
  end.

Definition strip_padding (s : string) : string :=
  String.rev (JS.drop_while (Ascii.eqb "=") (String.rev s)).

Definition fromBase32 (s : string) : Result Secret :=
  match base32_values (strip_padding s) with
  | None => throw_new "InvalidSecret: invalid character set"
  | Some vals =>
      match decode_go vals 0 0 with
      | [] => throw_new "InvalidSecret: empty result"
      | bytes => Ok bytes
      end
  end.

Definition base32_char (v : Z) : ascii :=
  if v <? 26 then ascii_of_nat (65 + Z.to_nat v)
  else ascii_of_nat (24 + Z.to_nat v).

Fixpoint encode_go (bytes : list Z) (bits acc : Z) : string :=
  match bytes with
  | [] =>
      if 0 <? bits
      then String (base32_char ((acc * 2 ^ (5 - bits)) mod 32)) ""
      else ""
  | b :: rest =>
      let acc := acc * 256 + Z.land b 255 in
      let bits := bits + 8 in
      let c1 := base32_char ((acc / 2 ^ (bits - 5)) mod 32) in
      let acc := acc mod 2 ^ (bits - 5) in
      let bits := bits - 5 in
      if 5 <=? bits
      then String c1
             (String (base32_char ((acc / 2 ^ (bits - 5)) mod 32))
                (encode_go rest (bits - 5) (acc mod 2 ^ (bits - 5))))
      else String c1 (encode_go rest bits acc)
  end.

Definition base32 (key : Secret) : string := encode_go key 0 0.

(** Modelled from the spec: [totp.generate()] is code of the [otpauth]
    package. The spec (section 4.1): the counter is
    [floor(currentUnixTimeSeconds / period)]; an HMAC over the 8-byte
    big-endian counter with the selected hash and the decoded key; dynamic
    truncation (the low 4 bits of the last byte as offset, 4 bytes from
    there, top bit masked off, a 31-bit big-endian integer), reduced modulo
    [10^digits], left-padded with zeros to [digits]. The algorithm is one
    of SHA1, SHA256, SHA512 (section 3). *)
Inductive Algorithm := SHA1 | SHA256 | SHA512.

Definition algorithm_of (a : string) : option Algorithm :=
  if String.eqb a "SHA1" then Some SHA1
  else if String.eqb a "SHA256" then Some SHA256
  else if String.eqb a "SHA512" then Some SHA512
  else None.

Definition hmac (a : Algorithm) (key msg : list Z) : list Z :=
  match a with
  | SHA1 => Crypto.hmac_with Crypto.sha1 64 key msg
  | SHA256 => Crypto.hmac_with Crypto.sha256 64 key msg
  | SHA512 => Crypto.hmac_with Crypto.sha512 128 key msg
  end.

Definition truncate (digest : list Z) : Z :=
  let offset := Z.land (List.last digest 0) 15 in
  let byte i := Z.land (nth (Z.to_nat (offset + i)) digest 0) 255 in
  Z.lor (Z.shiftl (Z.land (byte 0) 127) 24)
    (Z.lor (Z.shiftl (byte 1) 16) (Z.lor (Z.shiftl (byte 2) 8) (byte 3))).

Definition hotp (a : Algorithm) (key : Secret) (counter digits : Z) : string :=
  let digest := hmac a key (Crypto.be_bytes 8 counter) in
  let otp := truncate digest mod 10 ^ digits in
  JS.padStart (Z.to_nat digits) "0" (JS.Number_toString otp).

Definition generate (totp : TOTP) (timestamp : Z) : Result string :=
  match algorithm_of (totp_algorithm totp) with
  | Some a =>
      let counter := (timestamp / 1000) / totp_period totp in
      Ok (hotp a (totp_secret totp) counter (totp_digits totp))
  | None => throw_new "Unsupported algorithm"
  end.

(** Percent-decoding: [%XX] is the byte [XX]; a [%] that is not followed
    by two hexadecimal digits is malformed. *)
Definition hex_value (c : ascii) : option Z :=
  let n := nat_of_ascii c in
  if ((48 <=? n) && (n <=? 57))%nat then Some (Z.of_nat n - 48)
  else if ((65 <=? n) && (n <=? 70))%nat then Some (Z.of_nat n - 55)
  else if ((97 <=? n) && (n <=? 102))%nat then Some (Z.of_nat n - 87)
  else None.

Fixpoint percent_decode (s : string) : option string :=
  match s with
  | "" => Some ""
  | String "%" (String h (String l t)) =>
      match hex_value h, hex_value l, percent_decode t with
      | Some a, Some b, Some r =>
          Some (String (ascii_of_nat (Z.to_nat (16 * a + b))) r)
      | _, _, _ => None
      end
  | String "%" _ => None
  | String c t =>
      match percent_decode t with
      | Some r => Some (String c r)
      | None => None
      end
  end.

(** [name=value] pairs of a query, split at [&] and at the first [=]. *)
Definition query_pair (kv : string) : string * string :=
  match JS.cut "=" kv with
  | Some (k, v) => (k, v)
  | None => (kv, "")
  end.

Definition query_pairs (q : string) : list (string * string) :=
  map query_pair (List.filter JS.str_truthy (JS.split q "&")).

Fixpoint lookup_pair (k : string) (l : list (string * string))
  : option string :=
  match l with
  | [] => None
  | (k', v) :: rest => if String.eqb k k' then Some v else lookup_pair k rest
  end.

Fixpoint parse_digits (s : string) (acc : Z) : option Z :=
  match s with
  | "" => Some acc
  | String c t =>
      if JS.is_digit c
      then parse_digits t (10 * acc + (Z.of_nat (nat_of_ascii c) - 48))
      else None
  end.

Definition positive_integer (s : string) : option Z :=
  match s with
  | "" => None
  | _ => match parse_digits s 0 with
         | Some n => if 0 <? n then Some n else None
         | None => None
         end
  end.

(** An optional query value through a check that may reject it. *)
Definition checked {A} (v : option string) (check : string -> option A)
    (msg : string) : Result (option A) :=
  match v with
  | None => Ok None
  | Some s => match check s with
              | Some a => Ok (Some a)
              | None => throw_new msg
              end
  end.

Definition supported_name (a : string) : option string :=
  match algorithm_of (JS.toUpperCase a) with
  | Some _ => Some (JS.toUpperCase a)
  | None => None
  end.

(** Modelled from the spec: [OTPAuth.URI.parse] is code of the [otpauth]
    package. The spec (section 4.2): the URI is parsed into its components
    (type, label, issuer parameter, secret parameter, algorithm, digits,
    period); (section 6) the wire format is
    [otpauth://TYPE/LABEL?secret=...&issuer=...&algorithm=...&digits=N&period=N]
    with percent-decoded query values; (section 3) digits and period are
    positive integers and an unsupported algorithm is rejected, not coerced.
    A component that is absent or empty is [None]. *)
Definition parse (uri : string) : Result ParsedOtp :=
  if negb (String.eqb (JS.toLowerCase (JS.take 10 uri)) "otpauth://")
  then throw_new "Invalid URI format" else
  let rest := JS.drop 10 uri in
  let '(path, query) :=
    match JS.cut "?" rest with
    | Some (p, q) => (p, q)
    | None => (rest, "")
    end in
  let '(type, rawLabel) :=
    match JS.cut "/" path with
    | Some (t, l) => (t, l)
    | None => (path, "")
    end in
  let params := query_pairs query in
  let value k :=
    match lookup_pair k params with
    | Some v => percent_decode v
    | None => None
    end in
  match percent_decode rawLabel with
  | None => throw_new "URI malformed"
  | Some label =>
      secret ← match value "secret" with
               | Some s => if JS.str_truthy s
                           then key ← fromBase32 s; Ok (Some key)
                           else Ok None
               | None => Ok None
               end;
      algorithm ← checked (value "algorithm") supported_name
                    "Unsupported algorithm";
      digits ← checked (value "digits") positive_integer "Invalid digits";
      period ← checked (value "period") positive_integer "Invalid period";
      Ok {| otp_type := if JS.str_truthy type then Some type else None;
            otp_label := if JS.str_truthy label then Some label else None;
            otp_issuer := value "issuer";
            otp_secret := secret;
            otp_algorithm := algorithm;
            otp_digits := digits;
            otp_period := period |}
  end.

End SpecOTPAuth.

#[export] Instance RefOTPAuth : OTPAuth := {|
  Secret_fromBase32 := SpecOTPAuth.fromBase32;
  Secret_base32 := SpecOTPAuth.base32;
  TOTP_new := fun config => Ok config;
  TOTP_generate := SpecOTPAuth.generate;
  URI_parse := SpecOTPAuth.parse
|}.

(** ** The JavaScript runtime *)

Module RefJS.

(** *** JSON text (ECMA-404), on the integer fragment of numbers: a number
    with a fraction or an exponent is outside the fragment and is not
    read. A [\u] escape is read when it denotes a code unit below 256. *)

Definition is_json_space (c : ascii) : bool :=
  match c with
  | "009"%char | "010"%char | "013"%char | " "%char => true
  | _ => false
  end.

Definition skip_ws (s : string) : string := JS.drop_while is_json_space s.

(** The characters of a string literal after its opening quote. *)
Fixpoint parse_string_body (s : string) : option (string * string) :=
  match s with
  | "" => None
  | String "034"%char t => Some ("", t)
  | String "\"%char (String e t) =>
      let simple c :=
        match parse_string_body t with
        | Some (r, rest) => Some (String c r, rest)
        | None => None
        end in
      match e with
      | "034"%char => simple "034"%char
      | "\"%char => simple "\"%char
      | "/"%char => simple "/"%char
      | "b"%char => simple "008"%char
      | "f"%char => simple "012"%char
      | "n"%char => simple "010"%char
      | "r"%char => simple "013"%char
      | "t"%char => simple "009"%char
      | "u"%char =>
          match t with
          | String a (String b (String c (String d t')) as _) =>
              match SpecOTPAuth.hex_value a, SpecOTPAuth.hex_value b,
                    SpecOTPAuth.hex_value c, SpecOTPAuth.hex_value d,
                    parse_string_body t' with
              | Some 0, Some 0, Some x, Some y, Some (r, rest) =>
                  Some (String (ascii_of_nat (Z.to_nat (16 * x + y))) r, rest)
              | _, _, _, _, _ => None
              end
          | _ => None
          end
      | _ => None
      end
  | String c t =>
      if (nat_of_ascii c <? 32)%nat then None
      else match parse_string_body t with
           | Some (r, rest) => Some (String c r, rest)
           | None => None
           end
  end.

Definition parse_number (s : string) : option (Z * string) :=
  let '(neg, s) :=
    match s with
    | String "-"%char t => (true, t)
    | _ => (false, s)
    end in
  let ds := JS.take_while JS.is_digit s in
  let rest := JS.drop_while JS.is_digit s in
  let leading_zero :=
    match ds with
    | String "0"%char (String _ _) => true
    | _ => false
    end in
  let continues :=
    match rest with
    | String "."%char _ | String "e"%char _ | String "E"%char _ => true
    | _ => false
    end in
  if negb (JS.str_truthy ds) || leading_zero || continues then None
  else match SpecOTPAuth.parse_digits ds 0 with
       | Some n => Some (if neg then - n else n, rest)
       | None => None
       end.

(** A repeated key keeps its first position and takes the last value. *)
Fixpoint set_field (k : string) (v : JSON) (fields : list (string * JSON))
  : list (string * JSON) :=
  match fields with
  | [] => [(k, v)]
  | (k', v') :: rest =>
      if String.eqb k k' then (k, v) :: rest
      else (k', v') :: set_field k v rest
  end.

Fixpoint parse_value (fuel : nat) (s : string) : option (JSON * string) :=
  match fuel with
  | O => None
  | S f =>
      match skip_ws s with
      | String "n"%char t =>
          if JS.startsWith t "ull" then Some (JNull, JS.drop 3 t) else None
      | String "t"%char t =>
          if JS.startsWith t "rue" then Some (JBool true, JS.drop 3 t)
          else None
      | String "f"%char t =>
          if JS.startsWith t "alse" then Some (JBool false, JS.drop 4 t)
          else None
      | String "034"%char t =>
          match parse_string_body t with
          | Some (str, rest) => Some (JStr str, rest)
          | None => None
          end
      | String "["%char t =>
          match skip_ws t with
          | String "]"%char rest => Some (JArr [], rest)
          | _ => match parse_items f [] t with
                 | Some (items, rest) => Some (JArr items, rest)
                 | None => None
                 end
          end
      | String "{"%char t =>
          match skip_ws t with
          | String "}"%char rest => Some (JObj [], rest)
          | _ => match parse_members f [] t with
                 | Some (fields, rest) => Some (JObj fields, rest)
                 | None => None
                 end
          end
      | s' => match parse_number s' with
              | Some (n, rest) => Some (JNum n, rest)
              | None => None
              end
      end
  end
with parse_items (fuel : nat) (acc : list JSON) (s : string)
  : option (list JSON * string) :=
  match fuel with
  | O => None
  | S f =>
      match parse_value f s with
      | Some (v, rest) =>
          match skip_ws rest with
          | String ","%char rest' => parse_items f (acc ++ [v]) rest'
          | String "]"%char rest' => Some (acc ++ [v], rest')
          | _ => None
          end
      | None => None
      end
  end
with parse_members (fuel : nat) (acc : list (string * JSON)) (s : string)
  : option (list (string * JSON) * string) :=
  match fuel with
  | O => None
  | S f =>
      match skip_ws s with
      | String "034"%char t =>
          match parse_string_body t with
          | Some (k, rest) =>
              match skip_ws rest with
              | String ":"%char rest' =>
                  match parse_value f rest' with
                  | Some (v, rest'') =>
                      match skip_ws rest'' with
                      | String ","%char r => parse_members f (set_field k v acc) r
                      | String "}"%char r => Some (set_field k v acc, r)
                      | _ => None
                      end
                  | None => None
                  end
              | _ => None
              end
          | None => None
          end
      | _ => None
      end
  end.

Definition parse (text : string) : Result JSON :=
  match parse_value (S (String.length text)) text with
  | Some (v, rest) =>
      match skip_ws rest with
      | "" => Ok v
      | _ => throw_new "Unexpected non-whitespace character after JSON"
      end
  | None => throw_new "Unexpected token: the text is not valid JSON"
  end.

Definition escape_char (c : ascii) : string :=
  match c with
  | "034"%char => String "\"%char (String "034"%char "")
  | "\"%char => "\\"
  | "008"%char => "\b"
  | "012"%char => "\f"
  | "010"%char => "\n"
  | "013"%char => "\r"
  | "009"%char => "\t"
  | _ =>
      if (nat_of_ascii c <? 32)%nat
      then "\u00" +:+ hex_byte (Z.of_nat (nat_of_ascii c))
      else String c ""
  end.

Fixpoint escape (s : string) : string :=
  match s with
  | "" => ""
  | String c t => escape_char c +:+ escape t
  end.

Definition quote (s : string) : string :=
  String "034"%char (escape s +:+ String "034"%char "").

Fixpoint stringify (v : JSON) : string :=
  match v with
  | JNull => "null"
  | JBool true => "true"
  | JBool false => "false"
  | JNum n => JS.Number_toString n
  | JStr s => quote s
  | JArr items =>
      "[" +:+
      (fix join (l : list JSON) : string :=
         match l with
         | [] => ""
         | x :: rest =>
             match rest with
             | [] => stringify x
             | _ :: _ => stringify x +:+ "," +:+ join rest
             end
         end) items +:+ "]"
  | JObj fields =>
      "{" +:+
      (fix join (l : list (string * JSON)) : string :=
         match l with
         | [] => ""
         | (k, x) :: rest =>
             match rest with
             | [] => quote k +:+ ":" +:+ stringify x
             | _ :: _ => quote k +:+ ":" +:+ stringify x +:+ "," +:+ join rest
             end
         end) fields +:+ "}"
  end.

(** *** URI components and URLs *)

Definition unreserved (c : ascii) : bool :=
  let n := nat_of_ascii c in
  ((65 <=? n) && (n <=? 90) || (97 <=? n) && (n <=? 122)
   || (48 <=? n) && (n <=? 57))%nat
  || match c with
     | "-"%char | "_"%char | "."%char | "!"%char | "~"%char | "*"%char
     | "'"%char | "("%char | ")"%char => true
     | _ => false
     end.

Definition upper_hex_byte (b : Z) : string := JS.toUpperCase (hex_byte b).

Fixpoint encodeURIComponent (s : string) : string :=
  match s with
  | "" => ""
  | String c t =>
      if unreserved c then String c (encodeURIComponent t)
      else String "%"%char (upper_hex_byte (Z.of_nat (nat_of_ascii c))
                       +:+ encodeURIComponent t)
  end.

Definition decodeURIComponent (s : string) : Result string :=
  match SpecOTPAuth.percent_decode s with
  | Some r => Ok r
  | None => throw_new "URI malformed"
  end.

(** The lenient decoding of form-urlencoded text: [+] is a space, and a [%]
    that is not followed by two hexadecimal digits stands for itself. *)
Fixpoint form_decode (s : string) : string :=
  match s with
  | "" => ""
  | String "+"%char t => String " "%char (form_decode t)
  | String "%"%char (String h (String l t) as t0) =>
      match SpecOTPAuth.hex_value h, SpecOTPAuth.hex_value l with
      | Some a, Some b =>
          String (ascii_of_nat (Z.to_nat (16 * a + b))) (form_decode t)
      | _, _ => String "%"%char (form_decode t0)
      end
  | String c t => String c (form_decode t)
  end.

Definition form_pair (kv : string) : string * string :=
  let '(k, v) := SpecOTPAuth.query_pair kv in (form_decode k, form_decode v).

(** [new URLSearchParams(init).get(name)]: a leading [?] is dropped. *)
Definition URLSearchParams_get (init name : string) : option string :=
  let init := match init with
              | String "?"%char t => t
              | _ => init
              end in
  SpecOTPAuth.lookup_pair name
    (map form_pair (List.filter JS.str_truthy (JS.split init "&"))).

Definition is_alpha (c : ascii) : bool :=
  let n := nat_of_ascii c in
  ((65 <=? n) && (n <=? 90) || (97 <=? n) && (n <=? 122))%nat.

Definition scheme_char (c : ascii) : bool :=
  is_alpha c || JS.is_digit c
  || match c with "+"%char | "-"%char | "."%char => true | _ => false end.

Definition forbidden_host_char (c : ascii) : bool :=
  (nat_of_ascii c <=? 32)%nat
  || match c with
     | "#"%char | "/"%char | "<"%char | ">"%char | "?"%char | "@"%char
     | "["%char | "\"%char | "]"%char | "^"%char | "|"%char => true
     | _ => false
     end.

Definition not_in (stops : string) (c : ascii) : bool :=
  negb (JS.includes stops (String c "")).

(** [new URL(text)] without a base, for a URL with a scheme: the path name
    runs to the first [?] or [#] and the search string to the first [#];
    an empty query gives an empty search string. After [scheme://] the
    host runs to the first [/], [?] or [#]. *)
Definition URL_new (text : string) : Result URL :=
  let text := JS.trim text in
  let scheme := JS.take_while scheme_char text in
  let after := JS.drop_while scheme_char text in
  match scheme, after with
  | String c0 _, String ":"%char rest =>
      if negb (is_alpha c0) then throw_new "Invalid URL" else
      let '(host, rest) :=
        if JS.startsWith rest "//"
        then (JS.take_while (not_in "/?#") (JS.drop 2 rest),
              JS.drop_while (not_in "/?#") (JS.drop 2 rest))
        else ("", rest) in
      if negb (JS.all_str (fun c => negb (forbidden_host_char c)) host)
      then throw_new "Invalid URL" else
      let path := JS.take_while (not_in "?#") rest in
      let rest := JS.drop_while (not_in "?#") rest in
      let query := JS.take_while (not_in "#") rest in
      Ok {| pathname := path;
            search := match query with
                      | String "?"%char "" => ""
                      | _ => query
                      end |}
  | _, _ => throw_new "Invalid URL"
  end.

End RefJS.

#[export] Instance RefJSRuntime : JSRuntime := {|
  JSON_parse := RefJS.parse;
  JSON_stringify := RefJS.stringify;
  encodeURIComponent := fun s => Ok (RefJS.encodeURIComponent s);
  decodeURIComponent := RefJS.decodeURIComponent;
  URLSearchParams_get := RefJS.URLSearchParams_get;
  URL_new := RefJS.URL_new
|}.

(** ** expo-crypto: SHA-256 of the text, in hexadecimal; the random bytes of
    a draw are a fixed function of its index. *)
#[export] Instance RefExpoCrypto : ExpoCrypto := {|
  getRandomBytesAsync := fun draw n =>
    firstn n (Crypto.sha512 (Crypto.be_bytes 8 (Z.of_nat draw)));
  digestStringAsync_SHA256_HEX := fun s =>
    hex_of_bytes (Crypto.sha256 (Crypto.bytes_of_string s))
|}.

(** * Predicates of the specification *)

(** The type segment read by the library is accepted by lines 395-405 of
    [parseOTPAuthURL]: absent (then [totp]), or [totp] or [hotp] in any
    case. *)
Definition type_accepted (p : ParsedOtp) : Prop :=
  let otpType := JS.toLowerCase (or_else JS.str_truthy (otp_type p) "totp") in
  otpType = "totp" \/ otpType = "hotp".

(** Section 3 of the spec, the invariants of a credential: a normalized
    secret (no white space, no lowercase letter), ... *)
Definition normalized_char (c : ascii) : bool :=
  negb (JS.is_space c) && Ascii.eqb (JS.upper_char c) c.

Definition normalized_secret (s : string) : bool :=
  JS.all_str normalized_char s.

(** ... and an algorithm among the three supported ones. *)
Definition supported_algorithm (a : string) : Prop :=
  a = "SHA1" \/ a = "SHA256" \/ a = "SHA512".

(** What the invariants ask of the [otpauth] package: a parsed structure
    carries a supported algorithm and positive digits and period when it
    carries them at all, and the Base32 text of a key is normalized. *)
Definition library_checks `{OTPAuth} : Prop :=
  (forall uri p, URI_parse uri = Ok p ->
     (forall a, otp_algorithm p = Some a -> supported_algorithm a)
     /\ (forall d, otp_digits p = Some d -> 0 < d)
     /\ (forall d, otp_period p = Some d -> 0 < d))
  /\ (forall key, normalized_secret (Secret_base32 key) = true).


(** The [otpauth] package checks the [secret] parameter itself: its
    [URI.parse] raises a [TypeError] with the message below for a URI
    whose [secret] parameter is missing or empty, and never returns a
    structure without a secret. [SecretRequiredOTPAuth] is the reference
    library with that check. *)
Definition secret_TypeError : string := "Missing or invalid 'secret' parameter".

Definition SecretRequiredOTPAuth : OTPAuth := {|
  Secret_fromBase32 := SpecOTPAuth.fromBase32;
  Secret_base32 := SpecOTPAuth.base32;
  TOTP_new := fun config => Ok config;
  TOTP_generate := SpecOTPAuth.generate;
  URI_parse := fun uri =>
    parsedOtp ← SpecOTPAuth.parse uri;
    match otp_secret parsedOtp with
    | Some _ => Ok parsedOtp
    | None => throw_new secret_TypeError
    end
|}.

(** * Sample data *)

(** A device with encrypted storage enabled or not, an empty secure store
    that can be used, and one account stored in plain text. *)
Definition sample_account : JSON :=
  JObj [("name", JStr "alice@example.com"); ("issuer", JStr "Example");
        ("secret", JStr "JBSWY3DPEHPK3PXP"); ("algorithm", JStr "SHA1");
        ("digits", JNum 6); ("period", JNum 30);
        ("id", JStr "6f1c"); ("createdAt", JNum 1700000000000)].

Definition sample_device (encrypted : bool) : Device :=
  {| asyncStorage :=
       <[ENCRYPTED_STORAGE_ENABLED_KEY := if encrypted then "true" else "false"]>
         (<[ACCOUNTS_STORAGE_KEY := RefJS.stringify (JArr [sample_account])]> ∅);
     secureStore := ∅;
     secureStoreAvailable := true;
     draws := 0 |}.

(** A backup with three entries: one with an unsupported algorithm and
    odd digits and period, one without an issuer, and one that is no
    object. *)
Definition sample_backup_entries : list JSON :=
  [JObj [("name", JStr "bob"); ("issuer", JStr "Acme");
         ("secret", JStr "abc def"); ("algorithm", JStr "MD5");
         ("digits", JNum (-1)); ("period", JNum 0)];
   JObj [("name", JStr "carol"); ("secret", JStr "MFRGG")];
   JStr "dave"].

Definition sample_backup : string :=
  RefJS.stringify (JObj [("accounts", JArr sample_backup_entries);
                         ("exportedAt", JStr "2024-01-01T00:00:00.000Z");
                         ("version", JStr "1.0.0")]).

(** * The account operations and the callers of the two modules *)

(** ** utils/storage.ts, continued: lines 110-118 and 162-218 of
    [src/unnamed/part_000] *)

(** The [TypeError]s that the runtime raises in these functions. *)
Definition not_iterable (x : string) : JsError :=
  mkError (x +:+ " is not iterable").
Definition not_a_function (x : string) : JsError :=
  mkError (x +:+ " is not a function").

(** [a === b] on values read from JSON text and on arguments. Arrays and
    objects are compared by identity, and the two sides are never the same
    object here: one is freshly parsed, the other comes from the caller. *)
Definition strict_eq (a b : JsValue) : bool :=
  match a, b with
  | None, None => true
  | Some JNull, Some JNull => true
  | Some (JBool x), Some (JBool y) => Bool.eqb x y
  | Some (JNum x), Some (JNum y) => x =? y
  | Some (JStr x), Some (JStr y) => String.eqb x y
  | _, _ => false
  end.

(** [getAccounts() || []] *)
Definition or_empty (accounts : JSON) : JSON :=
  if truthy (Some accounts) then accounts else JArr [].

(** [[...accounts, x]] iterates [accounts]: the elements of an array, the
    characters of a string; no other value read from JSON is iterable. *)
Definition spread (accounts : JSON) : Result (list JSON) :=
  match accounts with
  | JArr items => Ok items
  | JStr s => Ok (map (fun c => JStr (String c "")) (list_ascii_of_string s))
  | _ => Throw (not_iterable "accounts")
  end.

(** [accounts.findIndex(a => a.id === account.id)]: the callback runs on
    the elements in order, up to the first one for which it returns true;
    [-1] when there is none. *)
Fixpoint findIndex_id (account : JSON) (items : list JSON) (i : Z)
  : Result Z :=
  match items with
  | [] => Ok (-1)
  | a :: rest =>
      x ← get_prop a "id";
      y ← get_prop account "id";
      if strict_eq x y then Ok i else findIndex_id account rest (i + 1)
  end.

(** [accounts.filter(account => account.id !== id)]: the callback runs on
    every element. *)
Fixpoint filter_not_id (id : string) (items : list JSON)
  : Result (list JSON) :=
  match items with
  | [] => Ok []
  | account :: rest =>
      x ← get_prop account "id";
      kept ← filter_not_id id rest;
      Ok (if negb (strict_eq x (Some (JStr id))) then account :: kept
          else kept)
  end.

Definition BACKUP_FILE_NAME : string := "onetime_authenticator_backup.json".

(** The object literal of lines 196-200. *)
Definition backup_object (accounts : JSON) (exportedAt : string) : JSON :=
  JObj [("accounts", accounts); ("exportedAt", JStr exportedAt);
        ("version", JStr "1.0.0")].

Section Accounts.
Context `{JSRuntime} `{ExpoCrypto}.

Definition setEncryptedStorage (enabled : bool) (d : Device) : Device :=
  let d :=
    AsyncStorage_setItem ENCRYPTED_STORAGE_ENABLED_KEY
      (if enabled then "true" else "false") d in
  if enabled
  then
    let '(accounts, d) := getAccounts d in
    saveAccounts (Some accounts) d
  else d.

(** [addAccount(account)] where [account] is an object with the
    properties [account], [Crypto.randomUUID()] returns [uuid] and
    [Date.now()] returns [now]. In the object literal the two new
    properties come after the spread: they replace properties of the same
    name. *)
Definition addAccount (account : list (string * JSON)) (uuid : string)
    (now : Z) (d : Device) : Result JSON * Device :=
  let '(accounts, d) := getAccounts d in
  let accounts := or_empty accounts in
  let newAccount :=
    JObj (RefJS.set_field "createdAt" (JNum now)
            (RefJS.set_field "id" (JStr uuid) account)) in
  match spread accounts with
  | Ok items =>
      (Ok newAccount, saveAccounts (Some (JArr (items ++ [newAccount]))) d)
  | Throw e => (Throw e, d)
  end.

Definition updateAccount (account : JSON) (d : Device)
  : Result unit * Device :=
  let '(accounts, d) := getAccounts d in
  let accounts := or_empty accounts in
  match accounts with
  | JArr items =>
      match findIndex_id account items 0 with
      | Ok index =>
          if negb (index =? -1)
          then (Ok tt,
                saveAccounts
                  (Some (JArr (<[Z.to_nat index := account]> items))) d)
          else (Ok tt, d)
      | Throw e => (Throw e, d)
      end
  | _ => (Throw (not_a_function "accounts.findIndex"), d)
  end.

Definition deleteAccount (id : string) (d : Device) : Result unit * Device :=
  let '(accounts, d) := getAccounts d in
  let accounts := or_empty accounts in
  match accounts with
  | JArr items =>
      match filter_not_id id items with
      | Ok kept => (Ok tt, saveAccounts (Some (JArr kept)) d)
      | Throw e => (Throw e, d)
      end
  | _ => (Throw (not_a_function "accounts.filter"), d)
  end.

(** [exportAccounts()] when [new Date().toISOString()] is [exportedAt];
    [web] is [Platform.OS === 'web'] and [FileSystem] is the
    [documentDirectory] of the module of that name, [None] when the module
    is not loaded. The result is the returned value ([None] is [null])
    and the file written, as its URI and its text;
    [writeAsStringAsync] does not fail. *)
Definition exportAccounts (web : bool) (FileSystem : option string)
    (exportedAt : string) (d : Device)
  : option string * option (string * string) * Device :=
  let '(accounts, d) := getAccounts d in
  let backupData := JSON_stringify (backup_object accounts exportedAt) in
  if web then (Some backupData, None, d)
  else match FileSystem with
       | Some documentDirectory =>
           let fileUri := documentDirectory +:+ BACKUP_FILE_NAME in
           (Some fileUri, Some (fileUri, backupData), d)
       | None => (None, None, d)
       end.

End Accounts.

(** ** The scanner screens: [handleBarCodeScanned] (lines 675-701 of
    [src/unnamed/part_000]) and [handleScan]
    (components/TokenImporter.tsx, lines 41-92) *)

(** The object that [parseOTPAuthURL] returns, as [addAccount] receives
    it. *)
Definition credential_fields (c : Credential) : list (string * JSON) :=
  [("name", JStr (name c)); ("issuer", JStr (issuer c));
   ("secret", JStr (secret c)); ("algorithm", JStr (algorithm c));
   ("digits", JNum (digits c)); ("period", JNum (period c))].

(** The alert that [handleBarCodeScanned] shows. *)
Inductive ScanAlert :=
| invalidQrCode
| accountAdded (issuer : string)
| errorProcessingQr.

(** What [handleScan] leaves in the state of the importer. *)
Inductive ImportState :=
| import_error (errorMessage : string)
| import_success (importedCount : Z).

Section Scanner.
Context `{OTPAuth} `{JSRuntime} `{ExpoCrypto}.

(** [None]: the parser has not returned within [fuel] activations. *)
Definition handleBarCodeScanned (fuel : nat) (uuid : string) (now : Z)
    (data : string) (d : Device) : option (ScanAlert * Device) :=
  if negb (JS.startsWith data "otpauth://")
     && negb (JS.startsWith data "otpauth-migration://")
  then Some (invalidQrCode, d)
  else
    match parseOTPAuthURL fuel data with
    | None => None
    | Some (Ok accountData) =>
        match addAccount (credential_fields accountData) uuid now d with
        | (Ok newAccount, d) => Some (accountAdded (issuer accountData), d)
        | (Throw error, d) => Some (errorProcessingQr, d)
        end
    | Some (Throw error) => Some (errorProcessingQr, d)
    end.

(** [t] is the translation function of the screen. *)
Definition handleScan (t : string -> string) (fuel : nat) (uuid : string)
    (now : Z) (data : string) (d : Device) : option (ImportState * Device) :=
  if negb (JS.startsWith data "otpauth://")
     && negb (JS.startsWith data "otpauth-migration://")
  then Some (import_error (t "qrScanner.invalidQrCodeDesc"), d)
  else
    match parseOTPAuthURL fuel data with
    | None => None
    | Some (Throw parseError) => Some (import_error (message parseError), d)
    | Some (Ok accountData) =>
        match addAccount (credential_fields accountData) uuid now d with
        | (Ok newAccount, d) => Some (import_success 1, d)
        | (Throw error, d) =>
            Some (import_error (t "qrScanner.errorProcessingQrDesc"), d)
        end
    end.

End Scanner.

(** ** components/AddAccountManual.tsx: [handleAdd], lines 71-95 *)

(** [/^[A-Z2-7]+=*$/] *)
Definition base32_upper (c : ascii) : bool :=
  let n := nat_of_ascii c in
  ((65 <=? n) && (n <=? 90) || (50 <=? n) && (n <=? 55))%nat.

Definition base32Regex_test (s : string) : bool :=
  JS.str_truthy (JS.take_while base32_upper s)
  && JS.all_str (fun c => Ascii.eqb c "="%char) (JS.drop_while base32_upper s).

Fixpoint decimal_value (s : string) (acc : Z) : Z :=
  match s with
  | "" => acc
  | String c t => decimal_value t (10 * acc + Z.of_nat (nat_of_ascii c - 48))
  end.

(** [parseInt(s, 10)]: white space, an optional sign and the longest run
    of decimal digits; [None] is [NaN]. *)
Definition parseInt (s : string) : option Z :=
  let s := JS.trimStart s in
  let '(sign, s) :=
    match s with
    | String "-"%char t => (-1, t)
    | String "+"%char t => (1, t)
    | _ => (1, s)
    end in
  let run := JS.take_while JS.is_digit s in
  if JS.str_truthy run then Some (sign * decimal_value run 0) else None.

(** The fields of the form, all text. *)
Record ManualForm := mkManualForm {
  form_name : string;
  form_issuer : string;
  form_secret : string;
  form_algorithm : string;
  form_digits : string;
  form_period : string
}.

(** The object passed to [onAdd]. *)
Record ManualAccount := mkManualAccount {
  manual_name : string;
  manual_issuer : string;
  manual_secret : string;
  manual_algorithm : string;
  manual_digits : option Z;
  manual_period : option Z
}.

Inductive ManualOutcome :=
| missingInfo
| invalidSecret
| onAdd (account : ManualAccount).

Definition handleAdd (f : ManualForm) : ManualOutcome :=
  if negb (JS.str_truthy (form_name f)) || negb (JS.str_truthy (form_issuer f))
     || negb (JS.str_truthy (form_secret f))
  then missingInfo
  else
    let normalizedSecret :=
      JS.toUpperCase
        (JS.filter_str (fun c => negb (JS.is_space c)) (form_secret f)) in
    if negb (base32Regex_test normalizedSecret) then invalidSecret
    else onAdd {| manual_name := form_name f;
                  manual_issuer := form_issuer f;
                  manual_secret := normalizedSecret;
                  manual_algorithm := form_algorithm f;
                  manual_digits := parseInt (form_digits f);
                  manual_period := parseInt (form_period f) |}.

(** ** components/TokenCard.tsx, lines 63-65 *)

Definition formattedToken (tokenValue : string) : string :=
  if (3 <? String.length tokenValue)%nat
  then JS.substring 0 3 tokenValue +:+ " "
       +:+ JS.drop 3 tokenValue
  else tokenValue.

(** ** i18n/index.ts *)

Definition LANGUAGE_STORAGE_KEY : string := "onetime_authenticator_language".

(** [Object.keys(LANGUAGES)] *)
Definition LANGUAGES : list string :=
  ["en"; "es"; "es-LA"; "fr"; "de"; "it"; "pt"; "ru"; "zh"; "ja"; "ko";
   "ar"; "hi"; "tr"; "nl"; "pl"; "sv"; "vi"; "th"; "id"; "uk"].

(** The block run at start-up: the language it passes to
    [i18n.changeLanguage]. [locale] is [Localization.locale]; when it is
    not a string, [split] raises and the handler applies English. *)
Definition startup_language (locale : option string) (d : Device) : string :=
  match locale with
  | Some locale =>
      let deviceLanguage := param "" (JS.split locale "-" !! 0%nat) in
      let savedLanguage := asyncStorage d !! LANGUAGE_STORAGE_KEY in
      let languageToUse :=
        param "" (str_or savedLanguage (Some deviceLanguage)) in
      let isSupportedLanguage := existsb (String.eqb languageToUse) LANGUAGES in
      if isSupportedLanguage then languageToUse else "en"
  | None => "en"
  end.

(** [changeLanguage(language)] on the pair of [i18n.language] and the
    device. *)
Definition changeLanguage (language : string) (st : string * Device)
  : string * Device :=
  let '(current, d) := st in
  if negb (JS.str_truthy language) then st
  else if String.eqb language current then st
  else (language, AsyncStorage_setItem LANGUAGE_STORAGE_KEY language d).

(** ** context/ThemeContext.tsx: lines 19-103 of [src/unnamed/part_005] *)

Definition THEME_STORAGE_KEY : string := "onetime_authenticator_theme".

(** [useDeviceColorScheme() || 'light'] *)
Definition deviceTheme (scheme : option string) : string :=
  or_else JS.str_truthy scheme "light".

(** The state [theme] after [loadTheme], from its initial value
    ['system']. *)
Definition loadTheme (d : Device) : string :=
  match asyncStorage d !! THEME_STORAGE_KEY with
  | Some savedTheme =>
      if JS.str_truthy savedTheme
         && (String.eqb savedTheme "light" || String.eqb savedTheme "dark"
             || String.eqb savedTheme "system")
      then savedTheme else "system"
  | None => "system"
  end.

Definition currentTheme (scheme : option string) (theme : string) : string :=
  if String.eqb theme "system" then deviceTheme scheme else theme.

(** [setTheme] and [toggleTheme] on the pair of the state [theme] and the
    device. *)
Definition setTheme (newTheme : string) (st : string * Device)
  : string * Device :=
  (newTheme, AsyncStorage_setItem THEME_STORAGE_KEY newTheme (snd st)).

Definition toggleTheme (scheme : option string) (st : string * Device)
  : string * Device :=
  let newTheme :=
    if String.eqb (currentTheme scheme (fst st)) "dark" then "light"
    else "dark" in
  setTheme newTheme st.
(** * Properties *)

(** ** Decimal strings *)

Lemma digit_char_is_digit d :
  0 <= d < 10 -> JS.is_digit (JS.digit_char d) = true.
Proof.
  intros Hd. unfold JS.digit_char.
  assert (Hn : (Z.to_nat d < 10)%nat) by lia.
  destruct (Z.to_nat d) as [|[|[|[|[|[|[|[|[|[|n]]]]]]]]]]; try reflexivity; lia.
Qed.

Lemma dec_go_S fuel n acc :
  JS.dec_go (S fuel) n acc =
  if n <? 10 then String (JS.digit_char (n mod 10)) acc
  else JS.dec_go fuel (n / 10) (String (JS.digit_char (n mod 10)) acc).
Proof. reflexivity. Qed.

Lemma all_str_cons p c s : JS.all_str p (String c s) = p c && JS.all_str p s.
Proof. reflexivity. Qed.

Lemma dec_go_all_digits fuel : forall n acc,
  JS.all_str JS.is_digit acc = true ->
  JS.all_str JS.is_digit (JS.dec_go fuel n acc) = true.
Proof.
  induction fuel as [|fuel IH]; intros n acc Hacc; [exact Hacc|].
  rewrite dec_go_S.
  assert (Hacc' : JS.all_str JS.is_digit
                    (String (JS.digit_char (n mod 10)) acc) = true).
  { rewrite all_str_cons, Hacc, digit_char_is_digit; [reflexivity|].
    apply Z.mod_pos_bound. lia. }
  destruct (n <? 10); [exact Hacc'|]. apply IH, Hacc'.
Qed.

Lemma string_length_cons c s : String.length (String c s) = S (String.length s).
Proof. reflexivity. Qed.

Lemma dec_go_length fuel : forall n acc (d : nat),
  (1 <= d)%nat -> n < 10 ^ Z.of_nat d ->
  (String.length (JS.dec_go fuel n acc) <= d + String.length acc)%nat.
Proof.
  induction fuel as [|fuel IH]; intros n acc d Hd Hn.
  { cbn [JS.dec_go]. lia. }
  rewrite dec_go_S.
  destruct (n <? 10) eqn:Hlt; [rewrite string_length_cons; lia|].
  apply Z.ltb_ge in Hlt.
  destruct d as [|[|d]]; [lia| |].
  - change (10 ^ Z.of_nat 1) with 10 in Hn. lia.
  - assert (Hdiv : n / 10 < 10 ^ Z.of_nat (S d)).
    { apply Z.div_lt_upper_bound; [lia|].
      rewrite <- Z.pow_succ_r by lia. rewrite <- Nat2Z.inj_succ. exact Hn. }
    specialize (IH (n / 10) (String (JS.digit_char (n mod 10)) acc) (S d)).
    rewrite string_length_cons in IH. lia.
Qed.

Lemma repeat_str_length n c : String.length (JS.repeat_str n c) = n.
Proof. induction n as [|n IH]; cbn; [reflexivity | by rewrite IH]. Qed.

Lemma string_app_length (s t : string) :
  String.length (s +:+ t) = (String.length s + String.length t)%nat.
Proof.
  induction s as [|c s IH]; [reflexivity|].
  change (String c s +:+ t) with (String c (s +:+ t)).
  cbn [String.length]. by rewrite IH.
Qed.

Lemma all_str_app p (s t : string) :
  JS.all_str p (s +:+ t) = JS.all_str p s && JS.all_str p t.
Proof.
  induction s as [|c s IH]; [reflexivity|].
  change (String c s +:+ t) with (String c (s +:+ t)).
  cbn [JS.all_str]. rewrite IH. destruct (p c); reflexivity.
Qed.

Lemma repeat_str_all p n c : p c = true -> JS.all_str p (JS.repeat_str n c) = true.
Proof.
  intros Hc. induction n as [|n IH]; [reflexivity|].
  cbn [JS.repeat_str JS.all_str]. by rewrite Hc, IH.
Qed.

(** A number below [10^d] printed on [d] columns: exactly [d] decimal digits. *)
Lemma padStart_decimal (d : nat) (n : Z) :
  (1 <= d)%nat -> 0 <= n < 10 ^ Z.of_nat d ->
  String.length (JS.padStart d "0" (JS.Number_toString n)) = d
  /\ JS.all_str JS.is_digit (JS.padStart d "0" (JS.Number_toString n)) = true.
Proof.
  intros Hd [Hn0 Hn]. unfold JS.Number_toString.
  destruct (n <? 0) eqn:Hneg; [apply Z.ltb_lt in Hneg; lia|].
  set (fuel := S (Z.to_nat (Z.log2 n))).
  pose proof (dec_go_length fuel n "" d Hd Hn) as Hlen.
  change (String.length "") with 0%nat in Hlen.
  unfold JS.padStart. split.
  - rewrite string_app_length, repeat_str_length. lia.
  - rewrite all_str_app, repeat_str_all by reflexivity.
    apply dec_go_all_digits. reflexivity.
Qed.

(** ** The code generator *)

Section Generator.
Context `{OTPAuth}.

(** C6. [generateTOTP] never throws, whatever the [otpauth] package does
    with its arguments: the call returns a string, which is the generated
    code when the body of the [try] completes and the sentinel [ERROR] when
    anything in it throws. *)
Theorem C6_generateTOTP_never_throws now secret algorithm digits period :
  exists code,
    generateTOTP now secret algorithm digits period = Ok code
    /\ (forall e, generateTOTP_try now secret algorithm digits period = Throw e
                  -> code = "ERROR")
    /\ (forall c, generateTOTP_try now secret algorithm digits period = Ok c
                  -> code = c).
Proof.
  unfold generateTOTP, try_catch.
  destruct (generateTOTP_try now secret algorithm digits period) as [c|e].
  - exists c. split; [reflexivity|]. split; [discriminate | congruence].
  - exists "ERROR". split; [reflexivity|]. split; [reflexivity | discriminate].
Qed.

End Generator.

(** The truncated value is reduced modulo [10^digits] and printed on
    [digits] columns. *)
Lemma hotp_shape a key counter digits :
  1 <= digits ->
  String.length (SpecOTPAuth.hotp a key counter digits) = Z.to_nat digits
  /\ JS.all_str JS.is_digit (SpecOTPAuth.hotp a key counter digits) = true.
Proof.
  intros Hd. unfold SpecOTPAuth.hotp.
  apply padStart_decimal; [lia|].
  rewrite Z2Nat.id by lia. apply Z.mod_pos_bound. apply Z.pow_pos_nonneg; lia.
Qed.

(** The truncated value is a 31-bit integer. *)
Lemma lor_below a b n :
  0 <= n -> 0 <= a < 2 ^ n -> 0 <= b < 2 ^ n -> 0 <= Z.lor a b < 2 ^ n.
Proof.
  intros Hn [Ha0 Ha] [Hb0 Hb]. split; [apply Z.lor_nonneg; lia|].
  destruct (Z.eq_dec n 0) as [->|Hn0].
  { change (2 ^ 0) with 1 in *. replace a with 0 by lia. replace b with 0 by lia.
    reflexivity. }
  destruct (Z.eq_dec (Z.lor a b) 0) as [->|Hne]; [apply Z.pow_pos_nonneg; lia|].
  assert (Hpos : 0 < Z.lor a b).
  { pose proof (proj2 (Z.lor_nonneg a b) (conj Ha0 Hb0)). lia. }
  apply Z.log2_lt_pow2; [exact Hpos|].
  rewrite Z.log2_lor by assumption.
  apply Z.max_lub_lt.
  - destruct (Z.eq_dec a 0) as [->|]; [cbn; lia|]. apply Z.log2_lt_pow2; lia.
  - destruct (Z.eq_dec b 0) as [->|]; [cbn; lia|]. apply Z.log2_lt_pow2; lia.
Qed.

Lemma land_below a k m :
  0 <= k -> m = 2 ^ k - 1 -> 0 <= Z.land a m < 2 ^ k.
Proof.
  intros Hk ->. change (2 ^ k - 1) with (Z.pred (2 ^ k)).
  rewrite <- Z.ones_equiv, Z.land_ones by exact Hk.
  apply Z.mod_pos_bound. apply Z.pow_pos_nonneg; lia.
Qed.

Lemma pack_range b0 b1 b2 b3 :
  0 <= Z.lor (Z.shiftl (Z.land (Z.land b0 255) 127) 24)
         (Z.lor (Z.shiftl (Z.land b1 255) 16)
            (Z.lor (Z.shiftl (Z.land b2 255) 8) (Z.land b3 255))) < 2 ^ 31.
Proof.
  assert (H0 : 0 <= Z.land (Z.land b0 255) 127 < 2 ^ 7)
    by (apply (land_below _ 7); [lia | reflexivity]).
  assert (H1 : 0 <= Z.land b1 255 < 2 ^ 8)
    by (apply (land_below _ 8); [lia | reflexivity]).
  assert (H2 : 0 <= Z.land b2 255 < 2 ^ 8)
    by (apply (land_below _ 8); [lia | reflexivity]).
  assert (H3 : 0 <= Z.land b3 255 < 2 ^ 8)
    by (apply (land_below _ 8); [lia | reflexivity]).
  rewrite !Z.shiftl_mul_pow2 by lia.
  apply lor_below; [lia | nia |].
  apply lor_below; [lia | nia |].
  apply lor_below; [lia | nia | lia].
Qed.

Lemma truncate_range digest : 0 <= SpecOTPAuth.truncate digest < 2 ^ 31.
Proof. unfold SpecOTPAuth.truncate. apply pack_range. Qed.

(** C1. With the generator of the spec behind [generateTOTP]: for a secret
    that decodes as Base32, a supported algorithm, [digits] in 6..8 and a
    positive period (each argument given, or left to its default), the
    result is a string of exactly [digits] characters, all decimal digits. *)
Theorem C1_generateTOTP_digits now secret algorithm digits period :
  is_Ok (SpecOTPAuth.fromBase32 secret) = true ->
  is_Some (SpecOTPAuth.algorithm_of (param "SHA1" algorithm)) ->
  6 <= param 6 digits <= 8 ->
  0 < param 30 period ->
  exists code,
    generateTOTP (H := RefOTPAuth) now secret algorithm digits period = Ok code
    /\ String.length code = Z.to_nat (param 6 digits)
    /\ JS.all_str JS.is_digit code = true.
Proof.
  intros Hsecret [a Ha] Hdigits Hperiod.
  unfold generateTOTP, generateTOTP_try. cbn [Secret_fromBase32 RefOTPAuth].
  destruct (SpecOTPAuth.fromBase32 secret) as [key|e]; [|discriminate].
  cbn [mbind Result_bind bindR TOTP_new TOTP_generate RefOTPAuth try_catch].
  unfold SpecOTPAuth.generate.
  cbn [totp_algorithm totp_period totp_secret totp_digits].
  rewrite Ha. eexists. split; [reflexivity|].
  apply hotp_shape. lia.
Qed.

Lemma C1_generateTOTP_digits_witness :
  generateTOTP (H := RefOTPAuth) 59000 "GEZDGNBVGY3TQOJQGEZDGNBVGY3TQOJQ"
    (Some "SHA1") (Some 8) (Some 30) = Ok "94287082"
  /\ exists code,
    generateTOTP (H := RefOTPAuth) 59000 "GEZDGNBVGY3TQOJQGEZDGNBVGY3TQOJQ"
      (Some "SHA1") (Some 8) (Some 30) = Ok code
    /\ String.length code = Z.to_nat (param 6 (Some 8))
    /\ JS.all_str JS.is_digit code = true.
Proof.
  split; [vm_compute; reflexivity|].
  apply (C1_generateTOTP_digits 59000 "GEZDGNBVGY3TQOJQGEZDGNBVGY3TQOJQ"
           (Some "SHA1") (Some 8) (Some 30)).
  - vm_compute; reflexivity.
  - exists SpecOTPAuth.SHA1. vm_compute; reflexivity.
  - cbn [param]. lia.
  - cbn [param]. lia.
Defined.

(** The reference vectors of RFC 6238 (keys of 20, 32 and 64 bytes,
    8 digits, period 30) at 59 s and at 1111111109 s. *)
Example rfc6238_sha1 :
  generateTOTP (H := RefOTPAuth) 59000 "GEZDGNBVGY3TQOJQGEZDGNBVGY3TQOJQ"
    (Some "SHA1") (Some 8) (Some 30) = Ok "94287082"
  /\ generateTOTP (H := RefOTPAuth) 1111111109000
       "GEZDGNBVGY3TQOJQGEZDGNBVGY3TQOJQ" (Some "SHA1") (Some 8) (Some 30)
     = Ok "07081804".
Proof. split; vm_compute; reflexivity. Qed.

Example rfc6238_sha256 :
  generateTOTP (H := RefOTPAuth) 59000
    "GEZDGNBVGY3TQOJQGEZDGNBVGY3TQOJQGEZDGNBVGY3TQOJQGEZA"
    (Some "SHA256") (Some 8) (Some 30) = Ok "46119246".
Proof. vm_compute; reflexivity. Qed.

Example rfc6238_sha512 :
  generateTOTP (H := RefOTPAuth) 59000
    ("GEZDGNBVGY3TQOJQGEZDGNBVGY3TQOJQGEZDGNBVGY3TQOJQGEZDGNBVGY3TQOJQ"
     +:+ "GEZDGNBVGY3TQOJQGEZDGNBVGY3TQOJQGEZDGNA")
    (Some "SHA512") (Some 8) (Some 30) = Ok "90693936".
Proof. vm_compute; reflexivity. Qed.

(** An undecodable secret and an unsupported algorithm give the sentinel. *)
Example generateTOTP_sentinel :
  generateTOTP (H := RefOTPAuth) 59000 "not base32!" None None None = Ok "ERROR"
  /\ generateTOTP (H := RefOTPAuth) 59000 "JBSWY3DPEHPK3PXP" (Some "MD5") None
       None = Ok "ERROR".
Proof. split; vm_compute; reflexivity. Qed.

(** C3, as the spec states it, fails at a window boundary: 60 s after the
    epoch with a period of 30 s the result is 30, which is not below the
    period. *)
Lemma C3_counterexample :
  exists nowMs period,
    0 < period /\ 0 <= nowMs
    /\ getTimeRemaining nowMs (Some period) = period
    /\ ~ (0 <= getTimeRemaining nowMs (Some period) < period).
Proof.
  exists 60000, 30. repeat split; try reflexivity; try lia.
  vm_compute. intros [_ Hlt]. discriminate Hlt.
Qed.

(** C3, amended. For a positive period and a clock at or after the epoch,
    [getTimeRemaining] is [period - (floor(nowSeconds) mod period)], an
    integer between 1 and [period], both included. *)
Theorem C3_getTimeRemaining_range nowMs period :
  0 < period -> 0 <= nowMs ->
  getTimeRemaining nowMs (Some period) = period - (nowMs / 1000) mod period
  /\ 1 <= getTimeRemaining nowMs (Some period) <= period.
Proof.
  intros Hp Hn. unfold getTimeRemaining. cbn [param].
  assert (Hs : 0 <= nowMs / 1000) by (apply Z.div_pos; lia).
  rewrite Z.rem_mod_nonneg by lia.
  pose proof (Z.mod_pos_bound (nowMs / 1000) period Hp). lia.
Qed.

Lemma C3_getTimeRemaining_range_witness :
  getTimeRemaining 59000 (Some 30) = 30 - (59000 / 1000) mod 30
  /\ 1 <= getTimeRemaining 59000 (Some 30) <= 30.
Proof. apply (C3_getTimeRemaining_range 59000 30); lia. Defined.

(** ** Strings *)

Lemma map_str_app f (s t : string) :
  JS.map_str f (s +:+ t) = JS.map_str f s +:+ JS.map_str f t.
Proof.
  induction s as [|c s IH]; [reflexivity|].
  change (String c s +:+ t) with (String c (s +:+ t)).
  cbn [JS.map_str]. rewrite IH. reflexivity.
Qed.

Lemma startsWith_map_take f : forall pre s,
  JS.startsWith (JS.map_str f s) pre = true ->
  JS.map_str f (JS.take (String.length pre) s) = pre.
Proof.
  induction pre as [|c pre IH]; intros s Hs.
  - destruct s; reflexivity.
  - destruct s as [|d s]; [discriminate|].
    cbn [JS.map_str JS.startsWith] in Hs.
    destruct (Ascii.eqb c (f d)) eqn:Hc; [|discriminate].
    apply Ascii.eqb_eq in Hc. subst c.
    cbn [String.length JS.take JS.map_str]. rewrite (IH s Hs). reflexivity.
Qed.

Lemma startsWith_app s pre t :
  JS.startsWith s pre = true -> JS.startsWith (s +:+ t) pre = true.
Proof.
  revert s. induction pre as [|c pre IH]; intros s Hs.
  - destruct (s +:+ t); reflexivity.
  - destruct s as [|d s]; [discriminate|].
    change (String d s +:+ t) with (String d (s +:+ t)).
    cbn [JS.startsWith] in *. destruct (Ascii.eqb c d); [|discriminate].
    apply IH, Hs.
Qed.

Lemma includes_app s pat t :
  JS.includes s pat = true -> JS.includes (s +:+ t) pat = true.
Proof.
  unfold JS.includes. induction s as [|c s IH]; intros Hs.
  - destruct pat as [|p pat]; [|cbn in Hs; discriminate].
    destruct t; reflexivity.
  - change (String c s +:+ t) with (String c (s +:+ t)).
    cbn [JS.cut] in *.
    destruct (JS.startsWith (String c s) pat) eqn:Hsw.
    + change (String c (s +:+ t)) with (String c s +:+ t).
      rewrite (startsWith_app _ _ t Hsw). reflexivity.
    + destruct (JS.startsWith (String c (s +:+ t)) pat); [reflexivity|].
      destruct (JS.cut pat s) as [[b a]|]; [|discriminate].
      specialize (IH eq_refl).
      destruct (JS.cut pat (s +:+ t)) as [[b' a']|]; [reflexivity|discriminate].
Qed.

(** ** The parser: one activation and the recursion *)

Section Parser.
Context `{OTPAuth} `{JSRuntime}.

Lemma parseOTPAuthURL_done url r fuel :
  parse_activation url = Done r ->
  parseOTPAuthURL (S fuel) url = Some r.
Proof. intros Ha. cbn [parseOTPAuthURL]. rewrite Ha. reflexivity. Qed.

Lemma parseOTPAuthURL_retry url u fuel :
  parse_activation url = Retry u ->
  parseOTPAuthURL (S fuel) url = after_retry (parseOTPAuthURL fuel u).
Proof. intros Ha. cbn [parseOTPAuthURL]. rewrite Ha. reflexivity. Qed.

Lemma parse_catch_InvalidFormat n :
  parse_catch n (mkError "Invalid OTP Auth URL format")
  = Done (throw_new InvalidFormat).
Proof. reflexivity. Qed.

Lemma parse_catch_MissingSecret n :
  parse_catch n (mkError "Missing secret key") = Done (throw_new MissingSecret).
Proof. reflexivity. Qed.

Lemma match_otpauth_None_lower n :
  match_otpauth n = None ->
  JS.startsWith (JS.toLowerCase n) "otpauth://" = false.
Proof.
  intros Hm. destruct (JS.startsWith (JS.toLowerCase n) "otpauth://") eqn:Hs;
    [|reflexivity].
  apply startsWith_map_take in Hs. change (String.length "otpauth://") with 10%nat in Hs.
  destruct n as [|c n]; [discriminate|].
  cbn [match_otpauth] in Hm. unfold JS.toLowerCase in Hm. rewrite Hs in Hm.
  discriminate.
Qed.

Lemma add_type_normalizedUrl_no_match n :
  match_otpauth n = None -> add_type_normalizedUrl n = n.
Proof.
  intros Hm. unfold add_type_normalizedUrl.
  rewrite (match_otpauth_None_lower n Hm). reflexivity.
Qed.

Lemma add_type_otpauthUrl_raw clean :
  add_type_otpauthUrl ("otpauth://totp/Unknown?secret=" +:+ clean)
  = "otpauth://totp/Unknown?secret=" +:+ clean.
Proof.
  unfold add_type_otpauthUrl, JS.toLowerCase. rewrite map_str_app.
  rewrite (includes_app _ "/totp/" _); reflexivity.
Qed.


Lemma type_accepted_check p :
  type_accepted p ->
  negb (String.eqb (JS.toLowerCase (or_else JS.str_truthy (otp_type p) "totp")) "totp")
  && negb (String.eqb (JS.toLowerCase (or_else JS.str_truthy (otp_type p) "totp")) "hotp")
  = false.
Proof. intros [-> | ->]; reflexivity. Qed.

(** Lines 407-417: no secret in the parsed structure and none in the query
    of the raw URL. *)
Lemma parse_canonical_missing_secret normalizedUrl otpauthUrl p u :
  URI_parse otpauthUrl = Ok p ->
  type_accepted p ->
  otp_secret p = None ->
  URL_new normalizedUrl = Ok u ->
  str_truthy_opt (URLSearchParams_get (search u) "secret") = false ->
  parse_canonical normalizedUrl otpauthUrl = throw_new "Missing secret key".
Proof.
  intros Hp Ht Hs Hu Hq. unfold parse_canonical. rewrite Hp.
  cbn [mbind Result_bind bindR]. rewrite (type_accepted_check p Ht).
  unfold require_secret. rewrite Hs, Hu.
  cbn [mbind Result_bind bindR]. unfold str_truthy_opt in Hq.
  destruct (URLSearchParams_get (search u) "secret") as [s|]; [|reflexivity].
  rewrite Hq. reflexivity.
Qed.

(** Lines 419-441: an issuer in the parsed structure is kept, whatever the
    label holds before its colon. *)
Lemma resolve_names_explicit_issuer otpauthUrl p i :
  otp_issuer p = Some i -> JS.str_truthy i = true ->
  snd (resolve_names otpauthUrl p) = i.
Proof.
  intros Hi Ht. unfold resolve_names. rewrite Hi. cbn [or_else]. rewrite Ht.
  cbn [negb].
  destruct (JS.split (or_else JS.str_truthy (otp_label p) "") ":")
    as [|part0 [|part1 rest]];
    repeat (progress (cbv beta iota zeta; try rewrite Ht; cbn [negb]));
    rewrite andb_false_r; reflexivity.
Qed.

(** An error of the library whose message holds none of the four phrases
    of the [catch] block leaves [parseOTPAuthURL] as it is. *)
Lemma parse_catch_other n e :
  JS.includes (message e) "Invalid OTP Auth URL format" = false ->
  JS.includes (message e) "Missing secret key" = false ->
  JS.includes (message e) "Unsupported OTP type" = false ->
  JS.includes (message e) "Missing OTP type" = false ->
  parse_catch n e = Done (Throw e).
Proof.
  intros H1 H2 H3 H4. unfold parse_catch. rewrite H1, H2, H3, H4. reflexivity.
Qed.

(** C7. [parse] of an otpauth URI with an empty [secret] parameter does not
    fail with [MissingSecret] when the library rejects the URI itself.
    [OTPAuth.URI.parse] (line 393) runs before the check of the secret
    (lines 408-417): an error that it raises, with a message that holds
    none of the four phrases of the [catch] block, as the message of the
    [otpauth] package for a missing secret does not, leaves
    [parseOTPAuthURL] as it is (line 499). The message that lines 415 and
    486-487 prepare for this case is not the one the caller gets. *)
Theorem C7_empty_secret_library_error e fuel :
  URI_parse "otpauth://totp/Unknown?secret=" = Throw e ->
  JS.includes (message e) "Invalid OTP Auth URL format" = false ->
  JS.includes (message e) "Missing secret key" = false ->
  JS.includes (message e) "Unsupported OTP type" = false ->
  JS.includes (message e) "Missing OTP type" = false ->
  parseOTPAuthURL (S fuel) "otpauth://totp/Unknown?secret=" = Some (Throw e).
Proof.
  intros Hp H1 H2 H3 H4. apply parseOTPAuthURL_done.
  unfold parse_activation.
  assert (Htry : parse_try "otpauth://totp/Unknown?secret="
                 = ("otpauth://totp/Unknown?secret=",
                    parse_canonical "otpauth://totp/Unknown?secret="
                      "otpauth://totp/Unknown?secret=")) by reflexivity.
  rewrite Htry. unfold parse_canonical. rewrite Hp.
  cbn [mbind Result_bind bindR]. apply parse_catch_other; assumption.
Qed.

(** C2. [parse] of the example URI of the spec: when the library reads the
    label (with or without its issuer prefix), the issuer parameter and the
    secret, and reports the absent algorithm, digits and period as absent
    or as their defaults, the credential is the one the spec gives. In
    general an issuer parameter read by the library is the issuer of the
    credential, whatever the label holds before its colon. *)
Theorem C2_parse_example :
  (forall p key fuel,
     let url :=
       "otpauth://totp/Example:alice@example.com?secret=JBSWY3DPEHPK3PXP&issuer=Example" in
     URI_parse url = Ok p ->
     type_accepted p ->
     otp_secret p = Some key ->
     Secret_base32 key = "JBSWY3DPEHPK3PXP" ->
     (otp_label p = Some "Example:alice@example.com"
      \/ otp_label p = Some "alice@example.com") ->
     otp_issuer p = Some "Example" ->
     (otp_algorithm p = None \/ otp_algorithm p = Some "SHA1") ->
     (otp_digits p = None \/ otp_digits p = Some 6) ->
     (otp_period p = None \/ otp_period p = Some 30) ->
     parseOTPAuthURL (S fuel) url
     = Some (Ok {| name := "alice@example.com";
                   issuer := "Example";
                   secret := "JBSWY3DPEHPK3PXP";
                   algorithm := "SHA1";
                   digits := 6;
                   period := 30 |}))
  /\ (forall otpauthUrl p i,
        otp_issuer p = Some i -> JS.str_truthy i = true ->
        snd (resolve_names otpauthUrl p) = i).
Proof.
  split; [|apply resolve_names_explicit_issuer].
  intros p key fuel url Hp Ht Hs Hb Hl Hi Ha Hd Hper.
  apply parseOTPAuthURL_done.
  unfold parse_activation.
  assert (Htry : parse_try url = (url, parse_canonical url url)) by reflexivity.
  rewrite Htry. unfold parse_canonical. rewrite Hp.
  cbn [mbind Result_bind bindR]. rewrite (type_accepted_check p Ht).
  unfold require_secret, resolve_names. rewrite Hs.
  cbn [mbind Result_bind bindR]. rewrite Hi, Hb.
  destruct Hl as [-> | ->], Ha as [-> | ->], Hd as [-> | ->],
    Hper as [-> | ->]; reflexivity.
Qed.

(** Lines 368-376, reached when there is no migration prefix and no
    [otpauth://] match and both the JSON and the query-string attempts
    throw. *)
Lemma raw_secret_fallback url :
  let normalizedUrl := JS.trim url in
  let cleanSecret := JS.filter_str base32_char_ci normalizedUrl in
  JS.startsWith normalizedUrl "otpauth-migration://" = false ->
  match_otpauth normalizedUrl = None ->
  is_Ok (url_of_json normalizedUrl) = false ->
  is_Ok (url_of_query normalizedUrl) = false ->
  ((16 <= String.length cleanSecret)%nat ->
     find_otpauthUrl normalizedUrl
       = Ok ("otpauth://totp/Unknown?secret=" +:+ cleanSecret)
     /\ parse_try url
       = (normalizedUrl,
          parse_canonical normalizedUrl
            ("otpauth://totp/Unknown?secret=" +:+ cleanSecret)))
  /\ ((String.length cleanSecret < 16)%nat ->
      forall fuel,
        parseOTPAuthURL (S fuel) url = Some (throw_new InvalidFormat)).
Proof.
  intros normalizedUrl cleanSecret Hmig Hmatch Hjson Hquery.
  assert (Hfind : find_otpauthUrl normalizedUrl = url_of_raw_secret normalizedUrl).
  { unfold find_otpauthUrl. rewrite Hmatch. unfold try_catch.
    destruct (url_of_json normalizedUrl); [discriminate|].
    destruct (url_of_query normalizedUrl); [discriminate|]. reflexivity. }
  split.
  - intros Hlen.
    assert (Hraw : url_of_raw_secret normalizedUrl
                   = Ok ("otpauth://totp/Unknown?secret=" +:+ cleanSecret)).
    { unfold url_of_raw_secret. fold cleanSecret.
      destruct (Nat.leb_spec 16 (String.length cleanSecret)); [reflexivity|lia]. }
    split; [congruence|].
    unfold parse_try. fold normalizedUrl. rewrite Hmig, Hfind, Hraw.
    rewrite (add_type_normalizedUrl_no_match _ Hmatch), add_type_otpauthUrl_raw.
    reflexivity.
  - intros Hlen fuel. apply parseOTPAuthURL_done.
    unfold parse_activation, parse_try. fold normalizedUrl.
    rewrite Hmig, Hfind. unfold url_of_raw_secret. fold cleanSecret.
    destruct (Nat.leb_spec 16 (String.length cleanSecret)); [lia|].
    apply parse_catch_InvalidFormat.
Qed.

(** The JSON attempt throws when [JSON.parse] does. *)
Lemma url_of_json_parse_error text :
  is_Ok (JSON_parse text) = false -> is_Ok (url_of_json text) = false.
Proof.
  intros Hp. unfold url_of_json. destruct (JSON_parse text); [discriminate|].
  reflexivity.
Qed.

(** The query-string attempt throws when neither [secret] nor [key] is a
    non-empty parameter. *)
Lemma url_of_query_no_secret text :
  JS.includes text "?" = false ->
  str_truthy_opt (URLSearchParams_get text "secret") = false ->
  str_truthy_opt (URLSearchParams_get text "key") = false ->
  is_Ok (url_of_query text) = false.
Proof.
  intros Hq Hs Hk. unfold url_of_query. rewrite Hq.
  unfold str_or, str_truthy_opt in *.
  destruct (URLSearchParams_get text "secret") as [s|].
  - rewrite Hs. destruct (URLSearchParams_get text "key") as [k|]; [|reflexivity].
    rewrite Hk. reflexivity.
  - destruct (URLSearchParams_get text "key") as [k|]; [|reflexivity].
    rewrite Hk. reflexivity.
Qed.

(** [parse("not a url")] fails with [InvalidFormat] on every runtime whose
    [JSON.parse] rejects the text and whose [URLSearchParams] finds no
    [secret] or [key] in it: 7 characters are left after stripping. *)
Lemma parse_not_a_url fuel :
  is_Ok (JSON_parse "not a url") = false ->
  str_truthy_opt (URLSearchParams_get "not a url" "secret") = false ->
  str_truthy_opt (URLSearchParams_get "not a url" "key") = false ->
  parseOTPAuthURL (S fuel) "not a url" = Some (throw_new InvalidFormat).
Proof.
  intros Hj Hs Hk. apply parseOTPAuthURL_done.
  unfold parse_activation, parse_try.
  change (JS.trim "not a url") with "not a url".
  change (JS.startsWith "not a url" "otpauth-migration://") with false.
  cbn match. unfold find_otpauthUrl.
  change (match_otpauth "not a url") with (@None string).
  unfold try_catch.
  pose proof (url_of_json_parse_error _ Hj) as Hj'.
  pose proof (url_of_query_no_secret "not a url" eq_refl Hs Hk) as Hq'.
  destruct (url_of_json "not a url"); [discriminate|].
  destruct (url_of_query "not a url"); [discriminate|].
  reflexivity.
Qed.

(** C8. An input that reaches the raw-secret fallback (no migration prefix,
    no [otpauth://] match, and both the JSON and the query-string attempts
    throw): with [cleanSecret] the input stripped of every character outside
    A-Z, a-z, 2-7, the canonical URI is
    [otpauth://totp/Unknown?secret=cleanSecret] when 16 characters or more
    are left, unchanged by the two add-missing-type steps and handed to the
    URI stage; otherwise the call fails with [InvalidFormat]. In particular
    [parse("not a url")] fails with [InvalidFormat], on a runtime whose
    [JSON.parse] rejects that text and whose [URLSearchParams] finds no
    [secret] or [key] in it. *)
Theorem C8_raw_secret_fallback :
  (forall url,
     let normalizedUrl := JS.trim url in
     let cleanSecret := JS.filter_str base32_char_ci normalizedUrl in
     JS.startsWith normalizedUrl "otpauth-migration://" = false ->
     match_otpauth normalizedUrl = None ->
     is_Ok (url_of_json normalizedUrl) = false ->
     is_Ok (url_of_query normalizedUrl) = false ->
     ((16 <= String.length cleanSecret)%nat ->
        find_otpauthUrl normalizedUrl
          = Ok ("otpauth://totp/Unknown?secret=" +:+ cleanSecret)
        /\ parse_try url
          = (normalizedUrl,
             parse_canonical normalizedUrl
               ("otpauth://totp/Unknown?secret=" +:+ cleanSecret)))
     /\ ((String.length cleanSecret < 16)%nat ->
         forall fuel,
           parseOTPAuthURL (S fuel) url = Some (throw_new InvalidFormat)))
  /\ (is_Ok (JSON_parse "not a url") = false ->
      str_truthy_opt (URLSearchParams_get "not a url" "secret") = false ->
      str_truthy_opt (URLSearchParams_get "not a url" "key") = false ->
      forall fuel,
        parseOTPAuthURL (S fuel) "not a url" = Some (throw_new InvalidFormat)).
Proof.
  split.
  - apply raw_secret_fallback.
  - intros Hj Hs Hk fuel. apply (parse_not_a_url fuel Hj Hs Hk).
Qed.

End Parser.

Lemma C8_raw_secret_fallback_witness :
  parseOTPAuthURL (H := RefOTPAuth) (H0 := RefJSRuntime) 1 "not a url"
  = Some (throw_new InvalidFormat)
  /\ parseOTPAuthURL (H := RefOTPAuth) (H0 := RefJSRuntime) 1 "JBSW-Y3DP"
     = Some (throw_new InvalidFormat)
  /\ parse_try (H := RefOTPAuth) (H0 := RefJSRuntime) "JBSW Y3DP EHPK 3PXP"
     = ("JBSW Y3DP EHPK 3PXP",
        parse_canonical "JBSW Y3DP EHPK 3PXP"
          "otpauth://totp/Unknown?secret=JBSWY3DPEHPK3PXP").
Proof.
  destruct (C8_raw_secret_fallback (H := RefOTPAuth) (H0 := RefJSRuntime))
    as [Hraw Hnot].
  split; [|split].
  - apply Hnot; vm_compute; reflexivity.
  - apply (Hraw "JBSW-Y3DP"); vm_compute; (reflexivity || lia).
  - apply (Hraw "JBSW Y3DP EHPK 3PXP"); vm_compute; (reflexivity || lia).
Defined.

Lemma C7_empty_secret_library_error_witness :
  parseOTPAuthURL (H := SecretRequiredOTPAuth) (H0 := RefJSRuntime) 1
    "otpauth://totp/Unknown?secret="
  = Some (throw_new secret_TypeError)
  /\ secret_TypeError <> MissingSecret.
Proof.
  split; [|discriminate].
  apply (C7_empty_secret_library_error (H := SecretRequiredOTPAuth)
           (H0 := RefJSRuntime) (mkError secret_TypeError) 0);
    vm_compute; reflexivity.
Defined.

Lemma C2_parse_example_witness :
  parseOTPAuthURL (H := RefOTPAuth) (H0 := RefJSRuntime) 1
    "otpauth://totp/Example:alice@example.com?secret=JBSWY3DPEHPK3PXP&issuer=Example"
  = Some (Ok {| name := "alice@example.com";
                issuer := "Example";
                secret := "JBSWY3DPEHPK3PXP";
                algorithm := "SHA1";
                digits := 6;
                period := 30 |})
  /\ snd (resolve_names (H0 := RefJSRuntime)
            "otpauth://totp/Acme:bob?secret=MFRGG&issuer=Example"
            {| otp_type := Some "totp"; otp_label := Some "Acme:bob";
               otp_issuer := Some "Example"; otp_secret := Some [97; 98; 99];
               otp_algorithm := None; otp_digits := None;
               otp_period := None |})
     = "Example".
Proof.
  destruct (C2_parse_example (H := RefOTPAuth) (H0 := RefJSRuntime))
    as [Hexample Hissuer].
  split.
  - apply (Hexample
             {| otp_type := Some "totp";
                otp_label := Some "Example:alice@example.com";
                otp_issuer := Some "Example";
                otp_secret :=
                  Some [72; 101; 108; 108; 111; 33; 222; 173; 190; 239];
                otp_algorithm := None; otp_digits := None;
                otp_period := None |}
             [72; 101; 108; 108; 111; 33; 222; 173; 190; 239] 0%nat).
    + vm_compute; reflexivity.
    + left. vm_compute; reflexivity.
    + reflexivity.
    + vm_compute; reflexivity.
    + left. reflexivity.
    + reflexivity.
    + left. reflexivity.
    + left. reflexivity.
    + left. reflexivity.
  - apply Hissuer; reflexivity.
Defined.

(** The JSON blob of section 8 of the spec, on the reference instances. *)
Example parse_json_blob :
  parseOTPAuthURL (H := RefOTPAuth) (H0 := RefJSRuntime) 1
    (RefJS.stringify (JObj [("secret", JStr "JBSWY3DPEHPK3PXP");
                            ("name", JStr "Bob"); ("issuer", JStr "Acme")]))
  = Some (Ok {| name := "Bob"; issuer := "Acme"; secret := "JBSWY3DPEHPK3PXP";
                algorithm := "SHA1"; digits := 6; period := 30 |}).
Proof. vm_compute; reflexivity. Qed.

(** ** The retry of [parseOTPAuthURL] *)

Section Retry.
Context `{OTPAuth} `{JSRuntime}.





End Retry.



(** ** The invariants of a credential *)

(** C5, as the spec states it, fails on both sides. The migration branch of
    the parser returns the first 32 characters of the payload as the
    secret, white space and lowercase included, whatever the platform; and
    the filter of [importAccounts] admits an entry with an unsupported
    algorithm, negative digits and a zero period. *)
Lemma C5_counterexample :
  exists c,
    (forall (L : OTPAuth) (R : JSRuntime),
       parseOTPAuthURL (H := L) (H0 := R) 1
         "otpauth-migration://offline?data=abc def" = Some (Ok c))
    /\ secret c = "abc def"
    /\ normalized_secret (secret c) = false
    /\ valid_account
         (JObj [("name", JStr "a"); ("issuer", JStr "b");
                ("secret", JStr "abc def"); ("algorithm", JStr "MD5");
                ("digits", JNum (-1)); ("period", JNum 0)]) = true.
Proof.
  exists {| name := "Migrated Account"; issuer := "Migration Service";
            secret := "abc def"; algorithm := "SHA1"; digits := 6;
            period := 30 |}.
  repeat split.
Qed.

(** The filter of [importAccounts] looks at three fields only. *)
Lemma valid_account_iff account :
  valid_account account = true <->
  exists fields n i s,
    account = JObj fields
    /\ lookup_field "name" fields = Some (JStr n)
    /\ lookup_field "issuer" fields = Some (JStr i)
    /\ lookup_field "secret" fields = Some (JStr s).
Proof.
  unfold valid_account. split.
  - destruct account as [| | | | |fields]; cbn; try discriminate;
      try (rewrite andb_false_r; discriminate).
    destruct (lookup_field "name" fields) as [[| | |n| |]|] eqn:Hn;
      cbn; try discriminate.
    destruct (lookup_field "issuer" fields) as [[| | |i| |]|] eqn:Hi;
      cbn; try discriminate.
    destruct (lookup_field "secret" fields) as [[| | |s| |]|] eqn:Hs;
      cbn; try discriminate.
    intros _. exists fields, n, i, s. repeat split; assumption.
  - intros (fields & n & i & s & -> & Hn & Hi & Hs). cbn.
    rewrite Hn, Hi, Hs. reflexivity.
Qed.

Section Invariants.
Context `{OTPAuth} `{JSRuntime}.

(** A credential returned by [parseOTPAuthURL] is the credential of one
    activation. *)
Lemma parseOTPAuthURL_Ok fuel : forall url c,
  parseOTPAuthURL fuel url = Some (Ok c) ->
  exists url', snd (parse_try url') = Ok c.
Proof.
  induction fuel as [|fuel IH]; intros url c Hc; [discriminate|].
  cbn [parseOTPAuthURL] in Hc.
  destruct (parse_activation url) as [r|u] eqn:Ha.
  - injection Hc as ->. exists url.
    unfold parse_activation in Ha.
    destruct (parse_try url) as [n [c'|e]]; [cbn; congruence|].
    unfold parse_catch in Ha.
    repeat match type of Ha with
           | (if ?b then _ else _) = _ => destruct b
           end; discriminate.
  - destruct (parseOTPAuthURL fuel u) as [[c'|e]|] eqn:Hu;
      cbn [after_retry] in Hc; try discriminate.
    injection Hc as <-. apply (IH u c' Hu).
Qed.

(** Lines 312-319. *)
Lemma parse_migration_Ok normalizedUrl c :
  parse_migration normalizedUrl = Ok c ->
  exists data,
    split_1 normalizedUrl "otpauth-migration://offline?data=" = Some data
    /\ c = {| name := "Migrated Account"; issuer := "Migration Service";
              secret := JS.substring 0 32 data; algorithm := "SHA1";
              digits := 6; period := 30 |}.
Proof.
  unfold parse_migration, try_catch.
  destruct (split_1 normalizedUrl "otpauth-migration://offline?data=") as [data|];
    [|discriminate].
  destruct (JS.str_truthy data); [|discriminate].
  intros [= <-]. exists data. split; reflexivity.
Qed.

(** Lines 462-469: the secret is the Base32 text of a key, and algorithm,
    digits and period are those of the parsed structure, or the defaults. *)
Lemma parse_canonical_Ok normalizedUrl otpauthUrl c :
  parse_canonical normalizedUrl otpauthUrl = Ok c ->
  exists p key,
    URI_parse otpauthUrl = Ok p
    /\ secret c = Secret_base32 key
    /\ algorithm c = or_else JS.str_truthy (otp_algorithm p) "SHA1"
    /\ digits c = or_else JS.num_truthy (otp_digits p) 6
    /\ period c = or_else JS.num_truthy (otp_period p) 30.
Proof.
  unfold parse_canonical. destruct (URI_parse otpauthUrl) as [p|e]; [|discriminate].
  cbn [mbind Result_bind bindR].
  match goal with |- (if ?b then _ else _) = _ -> _ => destruct b end;
    [discriminate|].
  destruct (require_secret normalizedUrl p) as [key|e]; [|discriminate].
  cbn [mbind Result_bind bindR].
  destruct (resolve_names otpauthUrl p) as [accountName issuerName].
  intros [= <-]. exists p, key. repeat split.
Qed.

Lemma or_else_supported a :
  (forall x, a = Some x -> supported_algorithm x) ->
  supported_algorithm (or_else JS.str_truthy a "SHA1").
Proof.
  intros Ha. destruct a as [x|]; cbn; [|left; reflexivity].
  destruct (JS.str_truthy x); [apply Ha; reflexivity | left; reflexivity].
Qed.

Lemma or_else_positive a d :
  0 < d -> (forall x, a = Some x -> 0 < x) ->
  0 < or_else JS.num_truthy a d.
Proof.
  intros Hd Ha. destruct a as [x|]; cbn; [|exact Hd].
  destruct (JS.num_truthy x); [apply Ha; reflexivity | exact Hd].
Qed.

(** C5, amended. When the [otpauth] package checks what it parses, every
    credential that [parseOTPAuthURL] returns is the credential of one
    activation, with positive digits and period and a supported algorithm;
    its secret is normalized when it comes from an otpauth URI, and is the
    first 32 characters of the payload, as they are, when it comes from a
    migration URI. The storage side checks none of this: [importAccounts]
    admits exactly the entries whose name, issuer and secret are strings. *)
Theorem C5_invariants_by_path :
  library_checks ->
  (forall fuel url c,
     parseOTPAuthURL fuel url = Some (Ok c) ->
     exists url',
       snd (parse_try url') = Ok c
       /\ 0 < digits c /\ 0 < period c /\ supported_algorithm (algorithm c)
       /\ if JS.startsWith (JS.trim url') "otpauth-migration://"
          then exists data,
                 split_1 (JS.trim url') "otpauth-migration://offline?data="
                 = Some data
                 /\ secret c = JS.substring 0 32 data
          else normalized_secret (secret c) = true)
  /\ (forall account,
        valid_account account = true <->
        exists fields n i s,
          account = JObj fields
          /\ lookup_field "name" fields = Some (JStr n)
          /\ lookup_field "issuer" fields = Some (JStr i)
          /\ lookup_field "secret" fields = Some (JStr s)).
Proof.
  intros [Hparse Hbase32]. split; [|apply valid_account_iff].
  intros fuel url c Hc.
  destruct (parseOTPAuthURL_Ok fuel url c Hc) as [url' Hurl'].
  exists url'. split; [exact Hurl'|].
  unfold parse_try in Hurl'.
  destruct (JS.startsWith (JS.trim url') "otpauth-migration://").
  - cbn [snd] in Hurl'.
    destruct (parse_migration_Ok _ _ Hurl') as (data & Hdata & ->).
    cbn [digits period algorithm secret].
    repeat split; try lia; [left; reflexivity|].
    exists data. split; [exact Hdata | reflexivity].
  - destruct (find_otpauthUrl (JS.trim url')) as [o|e]; [|discriminate].
    cbn [snd] in Hurl'.
    destruct (parse_canonical_Ok _ _ _ Hurl')
      as (p & key & Hp & -> & -> & -> & ->).
    destruct (Hparse _ _ Hp) as (Ha & Hd & Hper).
    repeat split.
    + apply or_else_positive; [lia | exact Hd].
    + apply or_else_positive; [lia | exact Hper].
    + apply or_else_supported, Ha.
    + apply Hbase32.
Qed.

End Invariants.

(** ** The reference library checks what it parses *)

Lemma base32_char_normalized v :
  0 <= v < 32 -> normalized_char (SpecOTPAuth.base32_char v) = true.
Proof.
  intros Hv. unfold SpecOTPAuth.base32_char.
  destruct (Z.ltb_spec v 26) as [Hlt|Hge].
  - assert (Hn : (Z.to_nat v < 26)%nat) by lia.
    remember (Z.to_nat v) as n eqn:En. clear En Hv Hlt v.
    do 26 (destruct n as [|n]; [reflexivity|]). lia.
  - assert (Hn : (26 <= Z.to_nat v < 32)%nat) by lia.
    remember (Z.to_nat v) as n eqn:En. clear En Hv Hge v.
    do 32 (destruct n as [|n]; [first [lia | reflexivity]|]). lia.
Qed.

Lemma normalized_secret_cons c s :
  normalized_secret (String c s) = normalized_char c && normalized_secret s.
Proof. reflexivity. Qed.

Lemma encode_go_normalized bytes : forall bits acc,
  normalized_secret (SpecOTPAuth.encode_go bytes bits acc) = true.
Proof.
  induction bytes as [|b bytes IH]; intros bits acc; cbn [SpecOTPAuth.encode_go].
  - destruct (0 <? bits); [|reflexivity].
    rewrite normalized_secret_cons, base32_char_normalized; [reflexivity|].
    apply Z.mod_pos_bound. lia.
  - cbv zeta. destruct (5 <=? bits + 8 - 5).
    + rewrite !normalized_secret_cons, !base32_char_normalized, IH;
        [reflexivity | apply Z.mod_pos_bound; lia..].
    + rewrite normalized_secret_cons, base32_char_normalized, IH;
        [reflexivity | apply Z.mod_pos_bound; lia].
Qed.

Lemma checked_Some {A} v (check : string -> option A) msg a :
  SpecOTPAuth.checked v check msg = Ok (Some a) ->
  exists s, check s = Some a.
Proof.
  unfold SpecOTPAuth.checked. destruct v as [s|]; [|discriminate].
  destruct (check s) as [a'|] eqn:Hc; [|discriminate].
  intros [= <-]. exists s. exact Hc.
Qed.

Lemma supported_name_supported s a :
  SpecOTPAuth.supported_name s = Some a -> supported_algorithm a.
Proof.
  unfold SpecOTPAuth.supported_name, SpecOTPAuth.algorithm_of, supported_algorithm.
  destruct (String.eqb_spec (JS.toUpperCase s) "SHA1") as [->|_].
  { intros [= <-]. left. reflexivity. }
  destruct (String.eqb_spec (JS.toUpperCase s) "SHA256") as [->|_].
  { intros [= <-]. right. left. reflexivity. }
  destruct (String.eqb_spec (JS.toUpperCase s) "SHA512") as [->|_].
  { intros [= <-]. right. right. reflexivity. }
  discriminate.
Qed.

Lemma positive_integer_positive s n :
  SpecOTPAuth.positive_integer s = Some n -> 0 < n.
Proof.
  unfold SpecOTPAuth.positive_integer. destruct s; [discriminate|].
  destruct (SpecOTPAuth.parse_digits _ 0) as [m|]; [|discriminate].
  destruct (Z.ltb_spec 0 m); [|discriminate]. intros [= <-]. assumption.
Qed.

Lemma spec_parse_checks uri p :
  SpecOTPAuth.parse uri = Ok p ->
  (forall a, otp_algorithm p = Some a -> supported_algorithm a)
  /\ (forall d, otp_digits p = Some d -> 0 < d)
  /\ (forall d, otp_period p = Some d -> 0 < d).
Proof.
  unfold SpecOTPAuth.parse.
  destruct (negb _); [discriminate|].
  destruct (match JS.cut "?" _ with Some _ => _ | None => _ end) as [path query].
  destruct (match JS.cut "/" _ with Some _ => _ | None => _ end) as [type rawLabel].
  destruct (SpecOTPAuth.percent_decode rawLabel) as [label|]; [|discriminate].
  unfold mbind, Result_bind.
  match goal with |- bindR ?m _ = _ -> _ => destruct m as [sec|e] end;
    [|discriminate].
  cbn [bindR].
  match goal with |- bindR ?m _ = _ -> _ => destruct m as [alg|e] eqn:Halg end;
    [|discriminate].
  cbn [bindR].
  match goal with |- bindR ?m _ = _ -> _ => destruct m as [dig|e] eqn:Hdig end;
    [|discriminate].
  cbn [bindR].
  match goal with |- bindR ?m _ = _ -> _ => destruct m as [per|e] eqn:Hper end;
    [|discriminate].
  cbn [bindR]. intros [= <-]. cbn [otp_algorithm otp_digits otp_period].
  repeat split.
  - intros a ->. apply checked_Some in Halg as [s Hs].
    apply (supported_name_supported s a Hs).
  - intros d ->. apply checked_Some in Hdig as [s Hs].
    apply (positive_integer_positive s d Hs).
  - intros d ->. apply checked_Some in Hper as [s Hs].
    apply (positive_integer_positive s d Hs).
Qed.

Lemma RefOTPAuth_library_checks : library_checks (H := RefOTPAuth).
Proof.
  split.
  - intros uri p Hp. apply (spec_parse_checks uri p Hp).
  - intros key. apply encode_go_normalized.
Qed.

Lemma C5_invariants_by_path_witness :
  library_checks (H := RefOTPAuth)
  /\ exists url',
       snd (parse_try (H := RefOTPAuth) (H0 := RefJSRuntime) url')
       = Ok {| name := "x"; issuer := ""; secret := "MFRGG";
               algorithm := "SHA256"; digits := 8; period := 60 |}.
Proof.
  split; [exact RefOTPAuth_library_checks|].
  destruct (C5_invariants_by_path (H := RefOTPAuth) (H0 := RefJSRuntime)
              RefOTPAuth_library_checks) as [Hparser _].
  destruct (Hparser 1%nat
              "otpauth://totp/x?secret=mfrgg&algorithm=sha256&digits=8&period=60"
              {| name := "x"; issuer := ""; secret := "MFRGG";
                 algorithm := "SHA256"; digits := 8; period := 60 |})
    as (url' & Hurl' & _).
  { vm_compute; reflexivity. }
  exists url'. exact Hurl'.
Defined.

(** ** The account store *)

Section Store.
Context `{JSRuntime} `{ExpoCrypto}.

Lemma getEncryptionKey_other_keys d k :
  k <> ENCRYPTION_KEY_STORAGE_KEY ->
  asyncStorage (snd (getEncryptionKey d)) !! k = asyncStorage d !! k.
Proof.
  intros Hk. unfold getEncryptionKey.
  destruct (secureStoreAvailable d).
  - destruct (str_truthy_opt (secureStore d !! ENCRYPTION_KEY_STORAGE_KEY));
      reflexivity.
  - destruct (str_truthy_opt (asyncStorage d !! ENCRYPTION_KEY_STORAGE_KEY));
      [reflexivity|].
    cbn. rewrite lookup_insert_ne by congruence. reflexivity.
Qed.

Lemma encryptData_parts data d :
  fst (encryptData data d)
  = JSON_stringify (envelope (fst (encrypt_parts data d))
                             (snd (encrypt_parts data d))).
Proof.
  unfold encryptData, encrypt_parts.
  destruct (getEncryptionKey d) as [key d']. reflexivity.
Qed.

Lemma encryptData_other_keys data d k :
  k <> ENCRYPTION_KEY_STORAGE_KEY ->
  asyncStorage (snd (encryptData data d)) !! k = asyncStorage d !! k.
Proof.
  intros Hk. rewrite <- (getEncryptionKey_other_keys d k Hk).
  unfold encryptData. destruct (getEncryptionKey d) as [key d']. reflexivity.
Qed.

(** What [saveAccounts] leaves under the accounts key: the JSON text of the
    array, or its envelope when encrypted storage is enabled. *)
Lemma saveAccounts_stored items d :
  asyncStorage (saveAccounts (Some (JArr items)) d) !! ACCOUNTS_STORAGE_KEY
  = Some (if isEncryptedStorageEnabled d
          then fst (encryptData (JSON_stringify (JArr items)) d)
          else JSON_stringify (JArr items)).
Proof.
  unfold saveAccounts. cbn [truthy negb param].
  destruct (isEncryptedStorageEnabled d).
  - destruct (encryptData (JSON_stringify (JArr items)) d) as [enc d'].
    cbn. apply lookup_insert_eq.
  - cbn. apply lookup_insert_eq.
Qed.

Lemma saveAccounts_keeps_mode items d :
  isEncryptedStorageEnabled (saveAccounts (Some (JArr items)) d)
  = isEncryptedStorageEnabled d.
Proof.
  unfold isEncryptedStorageEnabled at 1.
  assert (Hk : asyncStorage (saveAccounts (Some (JArr items)) d)
                 !! ENCRYPTED_STORAGE_ENABLED_KEY
               = asyncStorage d !! ENCRYPTED_STORAGE_ENABLED_KEY).
  { unfold saveAccounts. cbn [truthy negb param].
    destruct (isEncryptedStorageEnabled d).
    - pose proof (encryptData_other_keys (JSON_stringify (JArr items)) d
                    ENCRYPTED_STORAGE_ENABLED_KEY) as Hother.
      destruct (encryptData (JSON_stringify (JArr items)) d) as [enc d'].
      cbn in *. rewrite lookup_insert_ne by discriminate.
      apply Hother. discriminate.
    - cbn. rewrite lookup_insert_ne by discriminate. reflexivity. }
  rewrite Hk. reflexivity.
Qed.

(** [decryptData] returns the [data] property of the stored envelope: the
    digest. *)
Lemma decryptData_envelope text ivHex encrypted d :
  JSON_parse text = Ok (envelope ivHex encrypted) ->
  fst (decryptData text d) = Some (JStr encrypted).
Proof.
  intros Hp. unfold decryptData. rewrite Hp.
  unfold mbind, Result_bind. cbn.
  destruct (getEncryptionKey d). reflexivity.
Qed.

(** [getAccounts] in encrypted mode: an empty list unless the value that
    [decryptData] returns is truthy and reads as JSON text. *)
Lemma getAccounts_encrypted_empty d :
  isEncryptedStorageEnabled d = true ->
  (forall text,
     asyncStorage d !! ACCOUNTS_STORAGE_KEY = Some text ->
     truthy (fst (decryptData text d)) = true ->
     is_Ok (JSON_parse (template (fst (decryptData text d)))) = false) ->
  fst (getAccounts d) = JArr [].
Proof.
  intros Hmode Hdec. unfold getAccounts.
  destruct (asyncStorage d !! ACCOUNTS_STORAGE_KEY) as [text|]; [|reflexivity].
  specialize (Hdec text eq_refl). cbn [str_truthy_opt param].
  destruct (JS.str_truthy text); [|reflexivity]. cbn [negb].
  rewrite Hmode.
  destruct (decryptData text d) as [v d']. cbn [fst] in Hdec.
  destruct (truthy v); [|reflexivity].
  specialize (Hdec eq_refl).
  destruct (JSON_parse (template v)); [discriminate|reflexivity].
Qed.

(** C4. With encrypted storage enabled, what [saveAccounts] stores for a
    list is the envelope of a SHA-256 digest (of the JSON text of the list,
    the key and the initialisation vector). When [JSON.parse] reads the
    envelope back and rejects the digest as JSON text, [decryptData] returns
    the digest, not the text, and [getAccounts] returns the empty list
    whatever the list was: a non-empty list is not recovered. *)
Theorem C4_encrypted_save_then_get items d :
  let d1 := saveAccounts (Some (JArr items)) d in
  let ivHex := fst (encrypt_parts (JSON_stringify (JArr items)) d) in
  let encrypted := snd (encrypt_parts (JSON_stringify (JArr items)) d) in
  let stored := JSON_stringify (envelope ivHex encrypted) in
  isEncryptedStorageEnabled d = true ->
  JSON_parse stored = Ok (envelope ivHex encrypted) ->
  is_Ok (JSON_parse encrypted) = false ->
  asyncStorage d1 !! ACCOUNTS_STORAGE_KEY = Some stored
  /\ (exists key,
        encrypted
        = digestStringAsync_SHA256_HEX
            (JSON_stringify (JArr items) +:+ key +:+ ivHex))
  /\ fst (decryptData stored d1) = Some (JStr encrypted)
  /\ fst (getAccounts d1) = JArr []
  /\ (items <> [] -> fst (getAccounts d1) <> JArr items).
Proof.
  intros d1 ivHex encrypted stored Hmode Hround Hdigest.
  assert (Hhash : exists key,
             encrypted
             = digestStringAsync_SHA256_HEX
                 (JSON_stringify (JArr items) +:+ key +:+ ivHex)).
  { unfold encrypted, ivHex, encrypt_parts.
    destruct (getEncryptionKey d) as [key d']. exists key. reflexivity. }
  assert (Hstored : asyncStorage d1 !! ACCOUNTS_STORAGE_KEY = Some stored).
  { unfold d1. rewrite saveAccounts_stored, Hmode, encryptData_parts.
    reflexivity. }
  assert (Hdec : forall d', fst (decryptData stored d') = Some (JStr encrypted)).
  { intros d'. apply (decryptData_envelope stored ivHex encrypted d' Hround). }
  assert (Hget : fst (getAccounts d1) = JArr []).
  { apply getAccounts_encrypted_empty.
    - unfold d1. rewrite saveAccounts_keeps_mode. exact Hmode.
    - intros text Htext _. rewrite Hstored in Htext. injection Htext as <-.
      rewrite Hdec. exact Hdigest. }
  split; [exact Hstored|]. split; [exact Hhash|]. split; [apply Hdec|].
  split; [exact Hget|].
  intros Hne. rewrite Hget. intros [= <-]. apply Hne. reflexivity.
Qed.

(** [getAccounts] in plain mode reads the stored text back. *)
Lemma getAccounts_plain d text v :
  isEncryptedStorageEnabled d = false ->
  asyncStorage d !! ACCOUNTS_STORAGE_KEY = Some text ->
  JS.str_truthy text = true ->
  JSON_parse text = Ok v ->
  getAccounts d = (v, d).
Proof.
  intros Hmode Htext Htruthy Hparse. unfold getAccounts.
  rewrite Htext. cbn [str_truthy_opt param]. rewrite Htruthy, Hmode, Hparse.
  reflexivity.
Qed.

(** C10. A backup that parses as JSON with an [accounts] array: the call
    returns [true] and stores, by [saveAccounts], exactly the entries of the
    array that pass the filter, in their order; what was stored under the
    accounts key before does not enter the new value, and in plain mode
    [getAccounts] then reads these entries back (when [JSON.parse] reads
    the text that [JSON.stringify] wrote). The filter accepts an entry if
    and only if it is an object whose [name], [issuer] and [secret] are
    strings: no other field is looked at. A backup that is not JSON or has
    no [accounts] array: the call returns [false] and the device state is
    unchanged. *)
Theorem C10_importAccounts backupData d :
  (forall data items,
     JSON_parse backupData = Ok data ->
     get_prop data "accounts" = Ok (Some (JArr items)) ->
     let validAccounts := List.filter valid_account items in
     let d1 := saveAccounts (Some (JArr validAccounts)) d in
     importAccounts backupData d = (true, d1)
     /\ asyncStorage d1 !! ACCOUNTS_STORAGE_KEY
        = Some (if isEncryptedStorageEnabled d
                then fst (encryptData (JSON_stringify (JArr validAccounts)) d)
                else JSON_stringify (JArr validAccounts))
     /\ (isEncryptedStorageEnabled d = false ->
         JS.str_truthy (JSON_stringify (JArr validAccounts)) = true ->
         JSON_parse (JSON_stringify (JArr validAccounts)) = Ok (JArr validAccounts) ->
         fst (getAccounts d1) = JArr validAccounts)
     /\ (forall account,
           In account validAccounts <->
           In account items
           /\ exists fields n i s,
                account = JObj fields
                /\ lookup_field "name" fields = Some (JStr n)
                /\ lookup_field "issuer" fields = Some (JStr i)
                /\ lookup_field "secret" fields = Some (JStr s)))
  /\ ((is_Ok (JSON_parse backupData) = false
       \/ exists data,
            JSON_parse backupData = Ok data
            /\ forall items, get_prop data "accounts" <> Ok (Some (JArr items))) ->
      importAccounts backupData d = (false, d)).
Proof.
  split.
  - intros data items Hparse Hprop validAccounts d1.
    split; [|split; [|split]].
    + unfold importAccounts. rewrite Hparse. unfold mbind, Result_bind.
      cbn [bindR]. rewrite Hprop. reflexivity.
    + apply saveAccounts_stored.
    + intros Hmode Htruthy Hround.
      rewrite (getAccounts_plain d1 (JSON_stringify (JArr validAccounts))
                 (JArr validAccounts)); [reflexivity| | |assumption..].
      * unfold d1. rewrite saveAccounts_keeps_mode. exact Hmode.
      * unfold d1. rewrite saveAccounts_stored, Hmode. reflexivity.
    + intros account. unfold validAccounts.
      rewrite filter_In, valid_account_iff. reflexivity.
  - intros [Hbad | (data & Hparse & Hnone)]; unfold importAccounts.
    + destruct (JSON_parse backupData); [discriminate|reflexivity].
    + rewrite Hparse. unfold mbind, Result_bind. cbn [bindR].
      destruct (get_prop data "accounts") as [[[| | | |items|]|]|e];
        cbn [bindR Array_isArray negb]; rewrite ?orb_true_r; try reflexivity.
      exfalso. apply (Hnone items). reflexivity.
Qed.

End Store.

Lemma C4_encrypted_save_then_get_witness :
  fst (getAccounts (H := RefJSRuntime) (H0 := RefExpoCrypto)
         (saveAccounts (H := RefJSRuntime) (H0 := RefExpoCrypto)
            (Some (JArr [sample_account])) (sample_device true)))
  = JArr [].
Proof.
  destruct (C4_encrypted_save_then_get (H := RefJSRuntime) (H0 := RefExpoCrypto)
              [sample_account] (sample_device true))
    as (_ & _ & _ & Hget & _).
  - vm_compute; reflexivity.
  - vm_compute; reflexivity.
  - vm_compute; reflexivity.
  - exact Hget.
Defined.

Lemma C10_importAccounts_witness :
  importAccounts (H := RefJSRuntime) (H0 := RefExpoCrypto)
    sample_backup (sample_device false)
  = (true,
     saveAccounts (H := RefJSRuntime) (H0 := RefExpoCrypto)
       (Some (JArr [JObj [("name", JStr "bob"); ("issuer", JStr "Acme");
                          ("secret", JStr "abc def"); ("algorithm", JStr "MD5");
                          ("digits", JNum (-1)); ("period", JNum 0)]]))
       (sample_device false))
  /\ importAccounts (H := RefJSRuntime) (H0 := RefExpoCrypto)
       "not json" (sample_device false)
     = (false, sample_device false).
Proof.
  destruct (C10_importAccounts (H := RefJSRuntime) (H0 := RefExpoCrypto)
              sample_backup (sample_device false)) as [Hok _].
  destruct (C10_importAccounts (H := RefJSRuntime) (H0 := RefExpoCrypto)
              "not json" (sample_device false)) as [_ Hbad].
  split.
  - refine (proj1 (Hok (JObj [("accounts", JArr sample_backup_entries);
                              ("exportedAt", JStr "2024-01-01T00:00:00.000Z");
                              ("version", JStr "1.0.0")])
                       sample_backup_entries _ _)).
    + vm_compute; reflexivity.
    + reflexivity.
  - apply Hbad. left. vm_compute; reflexivity.
Defined.

(** * The account operations *)

Lemma strict_eq_str x id :
  strict_eq x (Some (JStr id)) = true <-> x = Some (JStr id).
Proof.
  split.
  - destruct x as [[| | |s| |]|]; cbn; try discriminate.
    intros Hs. apply String.eqb_eq in Hs. congruence.
  - intros ->. cbn. apply String.eqb_refl.
Qed.

Lemma lookup_set_field_eq k v fields :
  lookup_field k (RefJS.set_field k v fields) = Some v.
Proof.
  induction fields as [|[k' v'] rest IH]; cbn.
  - rewrite String.eqb_refl. reflexivity.
  - destruct (String.eqb k k') eqn:Hk; cbn; rewrite ?String.eqb_refl, ?Hk;
      [reflexivity | exact IH].
Qed.

Lemma lookup_set_field_ne k k' v fields :
  k <> k' ->
  lookup_field k (RefJS.set_field k' v fields) = lookup_field k fields.
Proof.
  intros Hne. induction fields as [|[k'' v''] rest IH]; cbn.
  - destruct (String.eqb k k') eqn:Hk; [|reflexivity].
    apply String.eqb_eq in Hk. contradiction.
  - destruct (String.eqb k' k'') eqn:Hk'; cbn.
    + apply String.eqb_eq in Hk'. subst k''.
      destruct (String.eqb k k') eqn:Hk; [|reflexivity].
      apply String.eqb_eq in Hk. contradiction.
    + rewrite IH. reflexivity.
Qed.

Section AccountOps.
Context `{JSRuntime} `{ExpoCrypto}.

Lemma isEncryptedStorageEnabled_set_flag (enabled : bool) d :
  isEncryptedStorageEnabled
    (AsyncStorage_setItem ENCRYPTED_STORAGE_ENABLED_KEY
       (if enabled then "true" else "false") d) = enabled.
Proof.
  unfold isEncryptedStorageEnabled. cbn [asyncStorage AsyncStorage_setItem].
  rewrite lookup_insert_eq. destruct enabled; reflexivity.
Qed.


Lemma getAccounts_plain_snd d :
  isEncryptedStorageEnabled d = false -> snd (getAccounts d) = d.
Proof.
  intros Hmode. unfold getAccounts.
  destruct (negb (str_truthy_opt (asyncStorage d !! ACCOUNTS_STORAGE_KEY)));
    [reflexivity|].
  rewrite Hmode.
  destruct (JSON_parse (param "" (asyncStorage d !! ACCOUNTS_STORAGE_KEY)));
    reflexivity.
Qed.

Lemma getAccounts_plain_pair d v :
  isEncryptedStorageEnabled d = false ->
  fst (getAccounts d) = v -> getAccounts d = (v, d).
Proof.
  intros Hmode Hv. pose proof (getAccounts_plain_snd d Hmode) as Hd.
  destruct (getAccounts d) as [v' d']. cbn in *. congruence.
Qed.

(** In plain mode, a saved list is read back when [JSON.parse] reads the
    text that [JSON.stringify] wrote. *)
Lemma saveAccounts_plain_readback items d :
  isEncryptedStorageEnabled d = false ->
  JS.str_truthy (JSON_stringify (JArr items)) = true ->
  JSON_parse (JSON_stringify (JArr items)) = Ok (JArr items) ->
  getAccounts (saveAccounts (Some (JArr items)) d)
  = (JArr items, saveAccounts (Some (JArr items)) d).
Proof.
  intros Hmode Htruthy Hround.
  apply (getAccounts_plain _ (JSON_stringify (JArr items))).
  - rewrite saveAccounts_keeps_mode. exact Hmode.
  - rewrite saveAccounts_stored, Hmode. reflexivity.
  - exact Htruthy.
  - exact Hround.
Qed.

(** X1. Enabling encrypted storage on a device that holds a list of
    accounts in plain text loses the list. The flag is set first, so
    [getAccounts] already reads the stored text as an envelope: an array
    has no [data] property, [decryptData] returns [undefined] and
    [getAccounts] the empty list. What [saveAccounts] then encrypts and
    stores is the empty list, whatever the accounts were. *)
Theorem setEncryptedStorage_on_discards_accounts d text items :
  let d0 := AsyncStorage_setItem ENCRYPTED_STORAGE_ENABLED_KEY "true" d in
  let d1 := snd (getEncryptionKey d0) in
  asyncStorage d !! ACCOUNTS_STORAGE_KEY = Some text ->
  JS.str_truthy text = true ->
  JSON_parse text = Ok (JArr items) ->
  getAccounts d0 = (JArr [], d1)
  /\ setEncryptedStorage true d = saveAccounts (Some (JArr [])) d1
  /\ asyncStorage (setEncryptedStorage true d) !! ACCOUNTS_STORAGE_KEY
     = Some (fst (encryptData (JSON_stringify (JArr [])) d1)).
Proof.
  intros d0 d1 Htext Htruthy Hparse.
  assert (Hmode : isEncryptedStorageEnabled d0 = true)
    by apply (isEncryptedStorageEnabled_set_flag true).
  assert (Hget : getAccounts d0 = (JArr [], d1)).
  { unfold getAccounts.
    replace (asyncStorage d0 !! ACCOUNTS_STORAGE_KEY) with (Some text)
      by (unfold d0; cbn; rewrite lookup_insert_ne by discriminate;
          symmetry; exact Htext).
    cbn [str_truthy_opt param]. rewrite Htruthy, Hmode. cbn [negb].
    unfold decryptData. rewrite Hparse. unfold mbind, Result_bind.
    cbn [bindR get_prop]. unfold d1.
    destruct (getEncryptionKey d0) as [key d']. reflexivity. }
  assert (Hset : setEncryptedStorage true d = saveAccounts (Some (JArr [])) d1).
  { unfold setEncryptedStorage. fold d0. rewrite Hget. reflexivity. }
  split; [exact Hget|]. split; [exact Hset|].
  rewrite Hset, saveAccounts_stored.
  assert (Hmode1 : isEncryptedStorageEnabled d1 = true).
  { unfold isEncryptedStorageEnabled, d1.
    rewrite getEncryptionKey_other_keys by discriminate. exact Hmode. }
  rewrite Hmode1. reflexivity.
Qed.

(** X2. Disabling encrypted storage changes the flag only: the envelope
    that the last encrypted save left stays under the accounts key. From
    then on [getAccounts] returns the envelope, an object and no list, and
    [addAccount], [updateAccount] and [deleteAccount] all raise a
    [TypeError] before they store anything. *)
Theorem setEncryptedStorage_off_leaves_envelope items d :
  let ivHex := fst (encrypt_parts (JSON_stringify (JArr items)) d) in
  let encrypted := snd (encrypt_parts (JSON_stringify (JArr items)) d) in
  let stored := JSON_stringify (envelope ivHex encrypted) in
  let d1 := setEncryptedStorage false (saveAccounts (Some (JArr items)) d) in
  isEncryptedStorageEnabled d = true ->
  JS.str_truthy stored = true ->
  JSON_parse stored = Ok (envelope ivHex encrypted) ->
  getAccounts d1 = (envelope ivHex encrypted, d1)
  /\ (forall account uuid now,
        exists e, addAccount account uuid now d1 = (Throw e, d1))
  /\ (forall account, exists e, updateAccount account d1 = (Throw e, d1))
  /\ (forall id, exists e, deleteAccount id d1 = (Throw e, d1)).
Proof.
  intros ivHex encrypted stored d1 Hmode Htruthy Hround.
  assert (Hget : getAccounts d1 = (envelope ivHex encrypted, d1)).
  { apply (getAccounts_plain _ stored); [| |exact Htruthy|exact Hround].
    - apply (isEncryptedStorageEnabled_set_flag false).
    - unfold d1, setEncryptedStorage. cbn [asyncStorage AsyncStorage_setItem].
      rewrite lookup_insert_ne by discriminate.
      rewrite saveAccounts_stored, Hmode, encryptData_parts. reflexivity. }
  split; [exact Hget|].
  split; [|split].
  - intros account uuid now. unfold addAccount. rewrite Hget.
    eexists. reflexivity.
  - intros account. unfold updateAccount. rewrite Hget. eexists. reflexivity.
  - intros id. unfold deleteAccount. rewrite Hget. eexists. reflexivity.
Qed.

(** What [addAccount] does on a device that holds a list. *)
Lemma addAccount_on_list account uuid now d d' items :
  getAccounts d = (JArr items, d') ->
  let newAccount :=
    JObj (RefJS.set_field "createdAt" (JNum now)
            (RefJS.set_field "id" (JStr uuid) account)) in
  addAccount account uuid now d
  = (Ok newAccount, saveAccounts (Some (JArr (items ++ [newAccount]))) d').
Proof. intros Hget. unfold addAccount. rewrite Hget. reflexivity. Qed.

(** X3. In plain mode, on a device that holds a list of accounts,
    [addAccount] returns the new account and stores the list with the new
    account after the entries it had, which keep their order; the next
    [getAccounts] reads that list (when [JSON.parse] reads the text that
    [JSON.stringify] wrote). No entry is compared with the new one: an
    account that is already in the list is added again. *)
Theorem addAccount_appends account uuid now d items :
  let newAccount :=
    JObj (RefJS.set_field "createdAt" (JNum now)
            (RefJS.set_field "id" (JStr uuid) account)) in
  let accounts := JArr (items ++ [newAccount]) in
  let d1 := snd (addAccount account uuid now d) in
  isEncryptedStorageEnabled d = false ->
  fst (getAccounts d) = JArr items ->
  JS.str_truthy (JSON_stringify accounts) = true ->
  JSON_parse (JSON_stringify accounts) = Ok accounts ->
  fst (addAccount account uuid now d) = Ok newAccount
  /\ getAccounts d1 = (accounts, d1)
  /\ isEncryptedStorageEnabled d1 = false.
Proof.
  intros newAccount accounts d1 Hmode Hitems Htruthy Hround.
  pose proof (addAccount_on_list account uuid now d d items
                (getAccounts_plain_pair d _ Hmode Hitems)) as Hadd.
  cbv zeta in Hadd. unfold d1. rewrite Hadd. cbn [fst snd].
  split; [reflexivity|]. split.
  - apply saveAccounts_plain_readback; [exact Hmode|exact Htruthy|exact Hround].
  - rewrite saveAccounts_keeps_mode. exact Hmode.
Qed.

(** X4. The account that [addAccount] returns carries the identifier and
    the creation time generated in the call, also when the object passed in
    has an [id] or a [createdAt] of its own; every other property is the
    one passed in. *)
Theorem addAccount_fresh_identity account uuid now d newAccount :
  fst (addAccount account uuid now d) = Ok newAccount ->
  get_prop newAccount "id" = Ok (Some (JStr uuid))
  /\ get_prop newAccount "createdAt" = Ok (Some (JNum now))
  /\ (forall k, k <> "id" -> k <> "createdAt" ->
        get_prop newAccount k = Ok (lookup_field k account)).
Proof.
  unfold addAccount. destruct (getAccounts d) as [accounts d'].
  destruct (spread (or_empty accounts)) as [items|e]; [|discriminate].
  cbn [fst]. intros [= <-]. cbn [get_prop].
  split; [|split].
  - rewrite lookup_set_field_ne by discriminate.
    rewrite lookup_set_field_eq. reflexivity.
  - rewrite lookup_set_field_eq. reflexivity.
  - intros k Hid Hcreated. rewrite !lookup_set_field_ne by assumption.
    reflexivity.
Qed.

Lemma get_prop_not_null a k :
  a <> JNull -> exists x, get_prop a k = Ok x.
Proof. destruct a; intros Ha; try contradiction; cbn; eexists; reflexivity. Qed.

Lemma findIndex_id_spec account y items : forall i,
  get_prop account "id" = Ok y ->
  Forall (fun a => a <> JNull) items ->
  let matches a :=
    match get_prop a "id" with Ok x => strict_eq x y | Throw _ => false end in
  (findIndex_id account items i = Ok (-1)
   /\ Forall (fun a => matches a = false) items)
  \/ (exists n a,
        findIndex_id account items i = Ok (i + Z.of_nat n)
        /\ items !! n = Some a /\ matches a = true
        /\ forall m b, (m < n)%nat -> items !! m = Some b -> matches b = false).
Proof.
  intros i Hy Hitems matches. revert i.
  induction Hitems as [|a rest Ha Hrest IH]; intros i.
  - left. split; [reflexivity | constructor].
  - cbn [findIndex_id]. destruct (get_prop_not_null a "id" Ha) as [x Hx].
    rewrite Hx, Hy. unfold mbind, Result_bind. cbn [bindR].
    destruct (strict_eq x y) eqn:Hxy.
    + right. exists 0%nat, a. rewrite Z.add_0_r.
      split; [reflexivity|]. split; [reflexivity|].
      split; [unfold matches; rewrite Hx; exact Hxy|].
      intros m b Hm. lia.
    + destruct (IH (i + 1)) as [[Hnone Hall] | (n & b & Hfound & Hn & Hb & Hbefore)].
      * left. split; [exact Hnone|]. constructor; [|exact Hall].
        unfold matches. rewrite Hx. exact Hxy.
      * right. exists (S n), b.
        split; [rewrite Hfound; f_equal; lia|].
        split; [exact Hn|]. split; [exact Hb|].
        intros [|m] c Hm Hc.
        -- cbn in Hc. injection Hc as <-. unfold matches. rewrite Hx. exact Hxy.
        -- apply (Hbefore m c); [lia | exact Hc].
Qed.

(** X5. [updateAccount] on a device that holds a list without [null]
    entries. When no entry has the [id] of the account passed in, nothing
    is stored. Otherwise the first entry with that [id], and only that
    one, is replaced by the account, in its place: the list keeps its
    length, and a later entry with the same [id] stays as it is. The
    comparison is [===] on the [id] properties, so that an account without
    [id] replaces the first entry without [id]. *)
Theorem updateAccount_replaces_first_match account y d d' items :
  let matches a :=
    match get_prop a "id" with Ok x => strict_eq x y | Throw _ => false end in
  getAccounts d = (JArr items, d') ->
  get_prop account "id" = Ok y ->
  Forall (fun a => a <> JNull) items ->
  (Forall (fun a => matches a = false) items
   /\ updateAccount account d = (Ok tt, d'))
  \/ (exists n a,
        items !! n = Some a /\ matches a = true
        /\ (forall m b, (m < n)%nat -> items !! m = Some b -> matches b = false)
        /\ updateAccount account d
           = (Ok tt, saveAccounts (Some (JArr (<[n := account]> items))) d')
        /\ length (<[n := account]> items) = length items
        /\ <[n := account]> items !! n = Some account
        /\ forall m, m <> n -> <[n := account]> items !! m = items !! m).
Proof.
  intros matches Hget Hy Hitems. unfold updateAccount. rewrite Hget.
  cbn [or_empty truthy].
  destruct (findIndex_id_spec account y items 0 Hy Hitems)
    as [[Hnone Hall] | (n & a & Hfound & Hn & Ha & Hbefore)].
  - left. rewrite Hnone. split; [exact Hall | reflexivity].
  - right. exists n, a. rewrite Hfound.
    replace (negb (0 + Z.of_nat n =? -1)) with true
      by (symmetry; apply negb_true_iff, Z.eqb_neq; lia).
    replace (Z.to_nat (0 + Z.of_nat n)) with n by lia.
    split; [exact Hn|]. split; [exact Ha|]. split; [exact Hbefore|].
    split; [reflexivity|]. split; [apply length_insert|].
    split.
    + apply list_lookup_insert_eq. apply lookup_lt_is_Some. eauto.
    + intros m Hm. apply list_lookup_insert_ne. congruence.
Qed.

Lemma filter_not_id_spec id items :
  Forall (fun a => a <> JNull) items ->
  filter_not_id id items
  = Ok (List.filter
          (fun a => match get_prop a "id" with
                    | Ok x => negb (strict_eq x (Some (JStr id)))
                    | Throw _ => true
                    end) items).
Proof.
  induction 1 as [|a rest Ha Hrest IH]; [reflexivity|].
  cbn [filter_not_id List.filter].
  destruct (get_prop_not_null a "id" Ha) as [x Hx]. rewrite Hx, IH.
  unfold mbind, Result_bind. cbn [bindR].
  destruct (strict_eq x (Some (JStr id))); reflexivity.
Qed.

Lemma List_filter_sublist {A} (f : A -> bool) l : sublist (List.filter f l) l.
Proof.
  induction l as [|a l IH]; cbn; [constructor|].
  destruct (f a); [apply sublist_skip | apply sublist_cons]; exact IH.
Qed.

(** X6. [deleteAccount] on a device that holds a list without [null]
    entries stores the list without the entries whose [id] is the string
    passed in: every one of them is removed, not the first only; the other
    entries, those without [id] among them, are kept in their order. When
    no entry has that [id], the list is stored again as it is. *)
Theorem deleteAccount_removes_id id d d' items :
  getAccounts d = (JArr items, d') ->
  Forall (fun a => a <> JNull) items ->
  exists kept,
    deleteAccount id d = (Ok tt, saveAccounts (Some (JArr kept)) d')
    /\ sublist kept items
    /\ (forall a, In a kept <->
                  In a items /\ get_prop a "id" <> Ok (Some (JStr id)))
    /\ ((forall a, In a items -> get_prop a "id" <> Ok (Some (JStr id))) ->
        kept = items).
Proof.
  intros Hget Hitems. unfold deleteAccount. rewrite Hget.
  cbn [or_empty truthy]. rewrite (filter_not_id_spec id items Hitems).
  eexists. split; [reflexivity|]. split; [apply List_filter_sublist|].
  assert (Hkeep : forall a, a <> JNull ->
            match get_prop a "id" with
            | Ok x => negb (strict_eq x (Some (JStr id)))
            | Throw _ => true
            end = true <-> get_prop a "id" <> Ok (Some (JStr id))).
  { intros a Ha. destruct (get_prop_not_null a "id" Ha) as [x Hx]. rewrite Hx.
    rewrite negb_true_iff. split.
    - intros Hne [= ->]. rewrite (proj2 (strict_eq_str _ id) eq_refl) in Hne.
      discriminate.
    - intros Hne. destruct (strict_eq x (Some (JStr id))) eqn:Hx'; [|reflexivity].
      apply strict_eq_str in Hx'. subst x. exfalso. apply Hne. reflexivity. }
  split.
  - intros a. rewrite filter_In. split.
    + intros [Hin Hk]. split; [exact Hin|]. apply Hkeep; [|exact Hk].
      rewrite Forall_forall in Hitems. apply Hitems.
      apply list_elem_of_In. exact Hin.
    + intros [Hin Hk]. split; [exact Hin|]. apply Hkeep; [|exact Hk].
      rewrite Forall_forall in Hitems. apply Hitems.
      apply list_elem_of_In. exact Hin.
  - intros Hnone. clear Hget. induction Hitems as [|a rest Ha Hrest IH];
      [reflexivity|].
    cbn [List.filter].
    rewrite (proj2 (Hkeep a Ha)) by (apply Hnone; left; reflexivity).
    f_equal. apply IH. intros b Hb. apply Hnone. right. exact Hb.
Qed.

Lemma List_filter_all {A} (f : A -> bool) l :
  Forall (fun a => f a = true) l -> List.filter f l = l.
Proof.
  induction 1 as [|a l Ha Hl IH]; [reflexivity|].
  cbn. rewrite Ha, IH. reflexivity.
Qed.

(** X7. A backup made by [exportAccounts] and read by [importAccounts].
    The text returned on the web, or written to the backup file of the
    document directory elsewhere, is the JSON text of an object with the
    value of [getAccounts] under [accounts]. When [JSON.parse] reads that
    text back and the value is a list, [importAccounts] on any device
    returns [true] and saves the entries of the list that are objects with
    a string [name], [issuer] and [secret]: the whole list when all its
    entries are. When the value is an object, as after encrypted storage
    was switched off, the backup is refused and nothing is stored. *)
Theorem exportAccounts_then_importAccounts exportedAt d d2 :
  let accounts := fst (getAccounts d) in
  let backup := JSON_stringify (backup_object accounts exportedAt) in
  JSON_parse backup = Ok (backup_object accounts exportedAt) ->
  (forall FileSystem,
     fst (exportAccounts true FileSystem exportedAt d) = (Some backup, None))
  /\ (forall dir,
        fst (exportAccounts false (Some dir) exportedAt d)
        = (Some (dir +:+ BACKUP_FILE_NAME),
           Some (dir +:+ BACKUP_FILE_NAME, backup)))
  /\ (forall items,
        accounts = JArr items ->
        importAccounts backup d2
        = (true,
           saveAccounts (Some (JArr (List.filter valid_account items))) d2)
        /\ (Forall (fun a => valid_account a = true) items ->
            importAccounts backup d2 = (true, saveAccounts (Some accounts) d2)))
  /\ (forall fields,
        accounts = JObj fields -> importAccounts backup d2 = (false, d2)).
Proof.
  intros accounts backup Hround.
  assert (Himport : forall items,
            accounts = JArr items ->
            importAccounts backup d2
            = (true,
               saveAccounts (Some (JArr (List.filter valid_account items))) d2)).
  { intros items Hitems. unfold importAccounts. rewrite Hround, Hitems.
    reflexivity. }
  split; [|split; [|split]].
  - intros FileSystem. unfold exportAccounts. fold accounts in backup.
    unfold backup, accounts. destruct (getAccounts d) as [a d']. reflexivity.
  - intros dir. unfold exportAccounts.
    unfold backup, accounts. destruct (getAccounts d) as [a d']. reflexivity.
  - intros items Hitems. split; [apply Himport, Hitems|].
    intros Hvalid. rewrite (Himport items Hitems), Hitems.
    rewrite (List_filter_all _ _ Hvalid). reflexivity.
  - intros fields Hfields. unfold importAccounts. rewrite Hround, Hfields.
    reflexivity.
Qed.

Lemma hex_of_bytes_truthy bytes :
  bytes <> [] -> JS.str_truthy (hex_of_bytes bytes) = true.
Proof. destruct bytes as [|b rest]; [congruence|]. reflexivity. Qed.

(** X8. The encryption key is generated once. After a first call of
    [getEncryptionKey], which stores the key it generates (in the secure
    store where there is one, in [AsyncStorage] otherwise), every later
    call returns the same key and changes nothing; with a secure store
    the key never enters [AsyncStorage]. *)
Theorem getEncryptionKey_generated_once d :
  let key := fst (getEncryptionKey d) in
  let d1 := snd (getEncryptionKey d) in
  getRandomBytesAsync (draws d) 32 <> [] ->
  getEncryptionKey d1 = (key, d1)
  /\ (if secureStoreAvailable d
      then secureStore d1 !! ENCRYPTION_KEY_STORAGE_KEY = Some key
           /\ asyncStorage d1 = asyncStorage d
      else asyncStorage d1 !! ENCRYPTION_KEY_STORAGE_KEY = Some key
           /\ secureStore d1 = secureStore d).
Proof.
  intros key d1 Hbytes. unfold key, d1, getEncryptionKey.
  destruct (secureStoreAvailable d) eqn:Hsec.
  - destruct (secureStore d !! ENCRYPTION_KEY_STORAGE_KEY) as [k|] eqn:Hk;
      cbn [str_truthy_opt param].
    + destruct (JS.str_truthy k) eqn:Ht; cbn [fst snd].
      * rewrite Hsec, Hk. cbn [str_truthy_opt param]. rewrite Ht.
        split; [reflexivity | split; reflexivity].
      * cbn [generateEncryptionKey fst snd SecureStore_setItemAsync draw
               secureStoreAvailable secureStore asyncStorage].
        rewrite Hsec, lookup_insert_eq. cbn [str_truthy_opt param].
        rewrite (hex_of_bytes_truthy _ Hbytes).
        split; [reflexivity | split; reflexivity].
    + cbn [generateEncryptionKey fst snd SecureStore_setItemAsync draw
             secureStoreAvailable secureStore asyncStorage].
      rewrite Hsec, lookup_insert_eq. cbn [str_truthy_opt param].
      rewrite (hex_of_bytes_truthy _ Hbytes).
      split; [reflexivity | split; reflexivity].
  - destruct (asyncStorage d !! ENCRYPTION_KEY_STORAGE_KEY) as [k|] eqn:Hk;
      cbn [str_truthy_opt param].
    + destruct (JS.str_truthy k) eqn:Ht; cbn [fst snd].
      * rewrite Hsec, Hk. cbn [str_truthy_opt param]. rewrite Ht.
        split; [reflexivity | split; reflexivity].
      * cbn [generateEncryptionKey fst snd AsyncStorage_setItem draw
               secureStoreAvailable secureStore asyncStorage].
        rewrite Hsec, lookup_insert_eq. cbn [str_truthy_opt param].
        rewrite (hex_of_bytes_truthy _ Hbytes).
        split; [reflexivity | split; reflexivity].
    + cbn [generateEncryptionKey fst snd AsyncStorage_setItem draw
             secureStoreAvailable secureStore asyncStorage].
      rewrite Hsec, lookup_insert_eq. cbn [str_truthy_opt param].
      rewrite (hex_of_bytes_truthy _ Hbytes).
      split; [reflexivity | split; reflexivity].
Qed.

Lemma hex_digit_lower n :
  0 <= n < 16 ->
  let c := nat_of_ascii (hex_digit n) in
  ((48 <=? c) && (c <=? 57) || (97 <=? c) && (c <=? 102))%nat = true.
Proof.
  intros Hn. replace n with (Z.of_nat (Z.to_nat n)) by lia.
  assert (Hk : (Z.to_nat n < 16)%nat) by lia. revert Hk.
  generalize (Z.to_nat n) as k. intros k Hk.
  do 16 (destruct k as [|k]; [vm_compute; reflexivity|]). lia.
Qed.

Lemma hex_of_bytes_shape bytes :
  Forall (fun b => 0 <= b < 256) bytes ->
  String.length (hex_of_bytes bytes) = (2 * length bytes)%nat
  /\ JS.all_str
       (fun ch => ((48 <=? nat_of_ascii ch) && (nat_of_ascii ch <=? 57)
                   || (97 <=? nat_of_ascii ch) && (nat_of_ascii ch <=? 102))%nat)
       (hex_of_bytes bytes) = true.
Proof.
  induction 1 as [|b rest Hb Hrest [IHlen IHall]]; [split; reflexivity|].
  cbn [hex_of_bytes foldr]. fold (hex_of_bytes rest). unfold hex_byte.
  change (String ?a (String ?b "") +:+ ?t) with (String a (String b t)).
  split.
  - cbn [String.length length]. rewrite IHlen. lia.
  - rewrite !all_str_cons, IHall.
    rewrite (hex_digit_lower (b / 16)), (hex_digit_lower (b mod 16));
      [reflexivity | |].
    + apply Z.mod_pos_bound. lia.
    + split; [apply Z.div_pos; lia | apply Z.div_lt_upper_bound; lia].
Qed.

(** X9. When the entropy source gives 32 bytes, the key that
    [generateEncryptionKey] returns is a text of 64 characters, each a
    decimal digit or a letter from [a] to [f]: two per byte, the small
    bytes padded with a zero. *)
Theorem generateEncryptionKey_hex d :
  let key := fst (generateEncryptionKey d) in
  length (getRandomBytesAsync (draws d) 32) = 32%nat ->
  Forall (fun b => 0 <= b < 256) (getRandomBytesAsync (draws d) 32) ->
  String.length key = 64%nat
  /\ JS.all_str
       (fun ch => ((48 <=? nat_of_ascii ch) && (nat_of_ascii ch <=? 57)
                   || (97 <=? nat_of_ascii ch) && (nat_of_ascii ch <=? 102))%nat)
       key = true.
Proof.
  intros key Hlen Hbytes. unfold key, generateEncryptionKey. cbn [fst].
  destruct (hex_of_bytes_shape _ Hbytes) as [Hl Ha].
  split; [rewrite Hl, Hlen; reflexivity | exact Ha].
Qed.

(** X10. [saveAccounts] writes under the accounts key and nowhere else in
    [AsyncStorage], apart from the encryption key that an encrypted save
    may have to create there: the flag of encrypted storage and the
    settings of the screens are never touched. In plain mode it leaves the
    secure store and the entropy source alone as well. *)
Theorem saveAccounts_frame accounts d k :
  (k <> ACCOUNTS_STORAGE_KEY -> k <> ENCRYPTION_KEY_STORAGE_KEY ->
   asyncStorage (saveAccounts accounts d) !! k = asyncStorage d !! k)
  /\ (isEncryptedStorageEnabled d = false ->
      (k <> ACCOUNTS_STORAGE_KEY ->
       asyncStorage (saveAccounts accounts d) !! k = asyncStorage d !! k)
      /\ secureStore (saveAccounts accounts d) = secureStore d
      /\ draws (saveAccounts accounts d) = draws d).
Proof.
  unfold saveAccounts. split.
  - intros Hacc Hkey. destruct (isEncryptedStorageEnabled d).
    + match goal with
      | |- context [encryptData ?data d] =>
          pose proof (encryptData_other_keys data d k Hkey) as Hother;
          destruct (encryptData data d) as [enc d']
      end.
      cbn in *. rewrite lookup_insert_ne by congruence. exact Hother.
    + cbn. rewrite lookup_insert_ne by congruence. reflexivity.
  - intros ->. split; [|split; reflexivity].
    intros Hacc. cbn. rewrite lookup_insert_ne by congruence. reflexivity.
Qed.

(** X11. In plain mode [saveAccounts] writes the JSON text of the list
    under the accounts key of [AsyncStorage], secrets included and as they
    are, and [getAccounts] reads the list back without changing the device
    (when [JSON.parse] reads the text that [JSON.stringify] wrote). A call
    without a list ([undefined] or [null]) saves the empty list. *)
Theorem saveAccounts_then_getAccounts_plain items d :
  let d1 := saveAccounts (Some (JArr items)) d in
  isEncryptedStorageEnabled d = false ->
  JS.str_truthy (JSON_stringify (JArr items)) = true ->
  JSON_parse (JSON_stringify (JArr items)) = Ok (JArr items) ->
  asyncStorage d1 !! ACCOUNTS_STORAGE_KEY = Some (JSON_stringify (JArr items))
  /\ getAccounts d1 = (JArr items, d1)
  /\ saveAccounts None d = saveAccounts (Some (JArr [])) d
  /\ saveAccounts (Some JNull) d = saveAccounts (Some (JArr [])) d.
Proof.
  intros d1 Hmode Htruthy Hround. split; [|split; [|split; reflexivity]].
  - unfold d1. rewrite saveAccounts_stored, Hmode. reflexivity.
  - apply saveAccounts_plain_readback; assumption.
Qed.

(** X12. Adding an account and deleting it again restores the list. In
    plain mode, on a device that holds a list without [null] entries none
    of which has the generated identifier, [deleteAccount] with the
    identifier of the account that [addAccount] just returned saves the
    list as it was before: the device is the one that saving that list in
    the first place gives. *)
Theorem addAccount_then_deleteAccount account uuid now d items :
  let newAccount :=
    JObj (RefJS.set_field "createdAt" (JNum now)
            (RefJS.set_field "id" (JStr uuid) account)) in
  let d1 := snd (addAccount account uuid now d) in
  isEncryptedStorageEnabled d = false ->
  fst (getAccounts d) = JArr items ->
  Forall (fun a => a <> JNull /\ get_prop a "id" <> Ok (Some (JStr uuid)))
    items ->
  JS.str_truthy (JSON_stringify (JArr (items ++ [newAccount]))) = true ->
  JSON_parse (JSON_stringify (JArr (items ++ [newAccount])))
  = Ok (JArr (items ++ [newAccount])) ->
  deleteAccount uuid d1 = (Ok tt, saveAccounts (Some (JArr items)) d)
  /\ asyncStorage (snd (deleteAccount uuid d1)) !! ACCOUNTS_STORAGE_KEY
     = Some (JSON_stringify (JArr items)).
Proof.
  intros newAccount d1 Hmode Hitems Hids Htruthy Hround.
  pose proof (addAccount_on_list account uuid now d d items
                (getAccounts_plain_pair d _ Hmode Hitems)) as Hadd.
  cbv zeta in Hadd. fold newAccount in Hadd.
  assert (Hd1 : d1 = saveAccounts (Some (JArr (items ++ [newAccount]))) d)
    by (unfold d1; rewrite Hadd; reflexivity).
  assert (Hget : getAccounts d1 = (JArr (items ++ [newAccount]), d1)).
  { rewrite Hd1. apply saveAccounts_plain_readback; assumption. }
  assert (Hnew : get_prop newAccount "id" = Ok (Some (JStr uuid))).
  { unfold newAccount. cbn [get_prop].
    rewrite lookup_set_field_ne by discriminate.
    rewrite lookup_set_field_eq. reflexivity. }
  assert (Hkept : filter_not_id uuid (items ++ [newAccount]) = Ok items).
  { rewrite filter_not_id_spec.
    - rewrite List.filter_app. cbn [List.filter]. rewrite Hnew.
      rewrite (proj2 (strict_eq_str _ uuid) eq_refl). cbn [negb].
      rewrite app_nil_r. f_equal. apply List_filter_all.
      eapply Forall_impl; [exact Hids|]. intros a [Ha Hid]. cbn beta.
      destruct (get_prop_not_null a "id" Ha) as [x Hx]. rewrite Hx in *.
      destruct (strict_eq x (Some (JStr uuid))) eqn:Hs; [|reflexivity].
      apply strict_eq_str in Hs. subst x. exfalso. apply Hid. reflexivity.
    - apply Forall_app. split.
      + eapply Forall_impl; [exact Hids|]. intros a [Ha _]. exact Ha.
      + repeat constructor. discriminate. }
  assert (Hdel : deleteAccount uuid d1
                 = (Ok tt, saveAccounts (Some (JArr items)) d)).
  { unfold deleteAccount. rewrite Hget. cbn [or_empty truthy]. rewrite Hkept.
    f_equal. rewrite Hd1. unfold saveAccounts. cbn [truthy negb param].
    rewrite Hmode. unfold isEncryptedStorageEnabled in *.
    cbn [asyncStorage AsyncStorage_setItem].
    rewrite lookup_insert_ne by discriminate.
    destruct (asyncStorage d !! ENCRYPTED_STORAGE_ENABLED_KEY) as [v|];
      rewrite ?Hmode; unfold AsyncStorage_setItem;
      cbn [asyncStorage secureStore secureStoreAvailable draws];
      rewrite insert_insert_eq; reflexivity. }
  split; [exact Hdel|].
  rewrite Hdel. cbn [snd]. rewrite saveAccounts_stored, Hmode. reflexivity.
Qed.

End AccountOps.

Lemma bytes_in_range_check l :
  forallb (fun b => (0 <=? b) && (b <? 256)) l = true ->
  Forall (fun b => 0 <= b < 256) l.
Proof.
  intros Hl. apply Forall_forall. intros b Hb.
  apply list_elem_of_In in Hb.
  rewrite forallb_forall in Hl. specialize (Hl b Hb). lia.
Qed.

Lemma setEncryptedStorage_on_discards_accounts_witness :
  setEncryptedStorage (H := RefJSRuntime) (H0 := RefExpoCrypto) true
    (sample_device false)
  = saveAccounts (H := RefJSRuntime) (H0 := RefExpoCrypto) (Some (JArr []))
      (snd (getEncryptionKey (H0 := RefExpoCrypto)
              (AsyncStorage_setItem ENCRYPTED_STORAGE_ENABLED_KEY "true"
                 (sample_device false)))).
Proof.
  refine (proj1 (proj2 (setEncryptedStorage_on_discards_accounts
                          (H := RefJSRuntime) (H0 := RefExpoCrypto)
                          (sample_device false)
                          (RefJS.stringify (JArr [sample_account]))
                          [sample_account] _ _ _))).
  - vm_compute; reflexivity.
  - vm_compute; reflexivity.
  - vm_compute; reflexivity.
Defined.

Lemma setEncryptedStorage_off_leaves_envelope_witness :
  is_Ok (fst (addAccount (H := RefJSRuntime) (H0 := RefExpoCrypto)
                [("name", JStr "bob")] "0b5e" 1700000000001
                (setEncryptedStorage (H := RefJSRuntime) (H0 := RefExpoCrypto)
                   false
                   (saveAccounts (H := RefJSRuntime) (H0 := RefExpoCrypto)
                      (Some (JArr [sample_account])) (sample_device true)))))
  = false.
Proof.
  destruct (setEncryptedStorage_off_leaves_envelope
              (H := RefJSRuntime) (H0 := RefExpoCrypto)
              [sample_account] (sample_device true))
    as (_ & Hadd & _).
  - vm_compute; reflexivity.
  - vm_compute; reflexivity.
  - vm_compute; reflexivity.
  - destruct (Hadd [("name", JStr "bob")] "0b5e" 1700000000001) as [e He].
    rewrite He. reflexivity.
Defined.

Lemma addAccount_appends_witness :
  fst (addAccount (H := RefJSRuntime) (H0 := RefExpoCrypto)
         [("name", JStr "bob"); ("issuer", JStr "Acme");
          ("secret", JStr "MFRGG")] "0b5e" 1700000000001
         (sample_device false))
  = Ok (JObj [("name", JStr "bob"); ("issuer", JStr "Acme");
              ("secret", JStr "MFRGG"); ("id", JStr "0b5e");
              ("createdAt", JNum 1700000000001)]).
Proof.
  refine (proj1 (addAccount_appends (H := RefJSRuntime) (H0 := RefExpoCrypto)
                   [("name", JStr "bob"); ("issuer", JStr "Acme");
                    ("secret", JStr "MFRGG")] "0b5e" 1700000000001
                   (sample_device false) [sample_account] _ _ _ _)).
  - vm_compute; reflexivity.
  - vm_compute; reflexivity.
  - vm_compute; reflexivity.
  - vm_compute; reflexivity.
Defined.

Lemma addAccount_fresh_identity_witness :
  get_prop (JObj [("id", JStr "0b5e"); ("name", JStr "bob");
                  ("createdAt", JNum 1700000000001)]) "id"
  = Ok (Some (JStr "0b5e")).
Proof.
  refine (proj1 (addAccount_fresh_identity
                   (H := RefJSRuntime) (H0 := RefExpoCrypto)
                   [("id", JStr "mine"); ("name", JStr "bob")]
                   "0b5e" 1700000000001 (sample_device false) _ _)).
  vm_compute; reflexivity.
Defined.

Lemma updateAccount_replaces_first_match_witness :
  fst (updateAccount (H := RefJSRuntime) (H0 := RefExpoCrypto)
         (JObj [("id", JStr "6f1c"); ("name", JStr "renamed")])
         (sample_device false))
  = Ok tt.
Proof.
  destruct (updateAccount_replaces_first_match
              (H := RefJSRuntime) (H0 := RefExpoCrypto)
              (JObj [("id", JStr "6f1c"); ("name", JStr "renamed")])
              (Some (JStr "6f1c")) (sample_device false) (sample_device false)
              [sample_account])
    as [[_ Hu] | (n & a & _ & _ & _ & Hu & _)].
  - vm_compute; reflexivity.
  - reflexivity.
  - repeat constructor. discriminate.
  - rewrite Hu. reflexivity.
  - rewrite Hu. reflexivity.
Defined.

Lemma deleteAccount_removes_id_witness :
  fst (deleteAccount (H := RefJSRuntime) (H0 := RefExpoCrypto)
         "6f1c" (sample_device false))
  = Ok tt.
Proof.
  destruct (deleteAccount_removes_id
              (H := RefJSRuntime) (H0 := RefExpoCrypto)
              "6f1c" (sample_device false) (sample_device false)
              [sample_account])
    as (kept & Hd & _).
  - vm_compute; reflexivity.
  - repeat constructor. discriminate.
  - rewrite Hd. reflexivity.
Defined.

Lemma exportAccounts_then_importAccounts_witness :
  fst (importAccounts (H := RefJSRuntime) (H0 := RefExpoCrypto)
         (JSON_stringify
            (backup_object (JArr [sample_account]) "2024-01-01T00:00:00.000Z"))
         (sample_device false))
  = true.
Proof.
  destruct (exportAccounts_then_importAccounts
              (H := RefJSRuntime) (H0 := RefExpoCrypto)
              "2024-01-01T00:00:00.000Z" (sample_device false)
              (sample_device false))
    as (_ & _ & Himport & _).
  - vm_compute; reflexivity.
  - destruct (Himport [sample_account]) as [Hi _].
    + vm_compute; reflexivity.
    + change (fst (getAccounts (sample_device false)))
        with (JArr [sample_account]) in Hi.
      rewrite Hi. reflexivity.
Defined.

Lemma getEncryptionKey_generated_once_witness :
  getEncryptionKey (H0 := RefExpoCrypto)
    (snd (getEncryptionKey (H0 := RefExpoCrypto) (sample_device true)))
  = (fst (getEncryptionKey (H0 := RefExpoCrypto) (sample_device true)),
     snd (getEncryptionKey (H0 := RefExpoCrypto) (sample_device true))).
Proof.
  refine (proj1 (getEncryptionKey_generated_once (H0 := RefExpoCrypto)
                   (sample_device true) _)).
  vm_compute. discriminate.
Defined.

Lemma generateEncryptionKey_hex_witness :
  String.length
    (fst (generateEncryptionKey (H0 := RefExpoCrypto) (sample_device true)))
  = 64%nat.
Proof.
  refine (proj1 (generateEncryptionKey_hex (H0 := RefExpoCrypto)
                   (sample_device true) _ _)).
  - vm_compute; reflexivity.
  - apply bytes_in_range_check. vm_compute; reflexivity.
Defined.

Lemma saveAccounts_frame_witness :
  asyncStorage
    (saveAccounts (H := RefJSRuntime) (H0 := RefExpoCrypto)
       (Some (JArr [])) (sample_device true))
    !! ENCRYPTED_STORAGE_ENABLED_KEY
  = Some "true".
Proof.
  rewrite (proj1 (saveAccounts_frame (H := RefJSRuntime) (H0 := RefExpoCrypto)
                    (Some (JArr [])) (sample_device true)
                    ENCRYPTED_STORAGE_ENABLED_KEY)).
  - vm_compute; reflexivity.
  - discriminate.
  - discriminate.
Defined.

(** * The parser and its callers *)

(** ** Strings: [trim] *)

Lemma string_app_nil_r (s : string) : s +:+ "" = s.
Proof.
  induction s as [|c s IH]; [reflexivity|].
  change (String c s +:+ "") with (String c (s +:+ "")). by rewrite IH.
Qed.

Lemma string_app_assoc (a b c : string) : (a +:+ b) +:+ c = a +:+ (b +:+ c).
Proof.
  induction a as [|x a IH]; [reflexivity|].
  change (String x a +:+ b) with (String x (a +:+ b)).
  change (String x (a +:+ b) +:+ c) with (String x ((a +:+ b) +:+ c)).
  change (String x a +:+ (b +:+ c)) with (String x (a +:+ (b +:+ c))).
  by rewrite IH.
Qed.

Lemma rev_app_spec s : forall acc,
  String.rev_app s acc = String.rev s +:+ acc.
Proof.
  induction s as [|c s IH]; intros acc; [reflexivity|].
  unfold String.rev. cbn [String.rev_app].
  rewrite (IH (String c acc)), (IH (String c "")), string_app_assoc.
  reflexivity.
Qed.

Lemma rev_cons c s : String.rev (String c s) = String.rev s +:+ String c "".
Proof. unfold String.rev at 1. cbn [String.rev_app]. apply rev_app_spec. Qed.

Lemma rev_app_distr (a b : string) :
  String.rev (a +:+ b) = String.rev b +:+ String.rev a.
Proof.
  induction a as [|x a IH].
  - change ("" +:+ b) with b. symmetry. apply string_app_nil_r.
  - change (String x a +:+ b) with (String x (a +:+ b)).
    rewrite !rev_cons, IH, string_app_assoc. reflexivity.
Qed.

Lemma rev_involutive s : String.rev (String.rev s) = s.
Proof.
  induction s as [|c s IH]; [reflexivity|].
  rewrite rev_cons, rev_app_distr, IH. reflexivity.
Qed.

Lemma drop_while_app p (a b : string) :
  JS.drop_while p (a +:+ b)
  = if JS.all_str p a then JS.drop_while p b else JS.drop_while p a +:+ b.
Proof.
  induction a as [|x a IH]; [reflexivity|].
  change (String x a +:+ b) with (String x (a +:+ b)).
  cbn [JS.drop_while JS.all_str]. destruct (p x); [exact IH | reflexivity].
Qed.

Lemma drop_while_all p s : JS.all_str p s = true -> JS.drop_while p s = "".
Proof.
  induction s as [|c s IH]; [reflexivity|]. cbn.
  destruct (p c); [exact IH | discriminate].
Qed.

Lemma drop_while_idem p s :
  JS.drop_while p (JS.drop_while p s) = JS.drop_while p s.
Proof.
  induction s as [|c s IH]; [reflexivity|]. cbn.
  destruct (p c) eqn:Hc; [exact IH|]. cbn. rewrite Hc. reflexivity.
Qed.

Lemma all_str_rev p s : JS.all_str p (String.rev s) = JS.all_str p s.
Proof.
  induction s as [|c s IH]; [reflexivity|].
  rewrite rev_cons, all_str_app, IH. cbn. rewrite andb_true_r.
  apply andb_comm.
Qed.

(** White space at the end goes; a character that is no white space stays
    where it is. *)
Lemma trimEnd_cons c t :
  JS.is_space c = false -> JS.trimEnd (String c t) = String c (JS.trimEnd t).
Proof.
  intros Hc. unfold JS.trimEnd. rewrite rev_cons, drop_while_app.
  destruct (JS.all_str JS.is_space (String.rev t)) eqn:Hall.
  - rewrite (drop_while_all _ _ Hall). cbn. rewrite Hc. reflexivity.
  - rewrite rev_app_distr. reflexivity.
Qed.

Lemma trimEnd_spaces (s b : string) :
  JS.all_str JS.is_space b = true -> JS.trimEnd (s +:+ b) = JS.trimEnd s.
Proof.
  intros Hb. unfold JS.trimEnd. rewrite rev_app_distr, drop_while_app.
  rewrite all_str_rev, Hb. reflexivity.
Qed.

Lemma trimEnd_idem s : JS.trimEnd (JS.trimEnd s) = JS.trimEnd s.
Proof.
  unfold JS.trimEnd. rewrite rev_involutive, drop_while_idem. reflexivity.
Qed.

Lemma trim_idem s : JS.trim (JS.trim s) = JS.trim s.
Proof.
  unfold JS.trim, JS.trimStart.
  assert (Hhead : JS.drop_while JS.is_space s = ""
                  \/ exists c t, JS.drop_while JS.is_space s = String c t
                                 /\ JS.is_space c = false).
  { induction s as [|c s IH]; [left; reflexivity|]. cbn.
    destruct (JS.is_space c) eqn:Hc; [exact IH|].
    right. exists c, s. split; [reflexivity | exact Hc]. }
  destruct Hhead as [-> | (c & t & -> & Hc)]; [reflexivity|].
  rewrite (trimEnd_cons c t Hc). cbn [JS.drop_while]. rewrite Hc.
  rewrite <- (trimEnd_cons c t Hc). apply trimEnd_idem.
Qed.

Lemma trim_padded (a s b : string) :
  JS.all_str JS.is_space a = true -> JS.all_str JS.is_space b = true ->
  JS.trim (a +:+ s +:+ b) = JS.trim s.
Proof.
  intros Ha Hb. unfold JS.trim, JS.trimStart.
  rewrite drop_while_app, Ha, drop_while_app.
  destruct (JS.all_str JS.is_space s) eqn:Hs.
  - rewrite (drop_while_all _ _ Hb), (drop_while_all _ _ Hs). reflexivity.
  - apply trimEnd_spaces, Hb.
Qed.

Lemma startsWith_split : forall pre s,
  JS.startsWith s pre = true -> exists t, s = pre +:+ t.
Proof.
  induction pre as [|c pre IH]; intros s Hs.
  - exists s. reflexivity.
  - destruct s as [|d s]; [discriminate|]. cbn [JS.startsWith] in Hs.
    destruct (Ascii.eqb c d) eqn:Hc; [|discriminate].
    apply Ascii.eqb_eq in Hc. subst d.
    destruct (IH s Hs) as [t ->]. exists t. reflexivity.
Qed.

Section ParserCallers.
Context `{OTPAuth} `{JSRuntime}.

Lemma parse_try_trim u v :
  JS.trim u = JS.trim v -> parse_try u = parse_try v.
Proof. intros Huv. unfold parse_try. rewrite Huv. reflexivity. Qed.

Lemma parseOTPAuthURL_trim fuel u v :
  JS.trim u = JS.trim v -> parseOTPAuthURL fuel u = parseOTPAuthURL fuel v.
Proof.
  intros Huv. destruct fuel as [|fuel]; [reflexivity|].
  cbn [parseOTPAuthURL]. unfold parse_activation.
  rewrite (parse_try_trim u v Huv). reflexivity.
Qed.

(** X13. White space around the input does not matter to
    [parseOTPAuthURL]: a text with white space before it and after it gives
    the result of the text itself, credential or error. *)
Theorem parseOTPAuthURL_ignores_padding fuel (a url b : string) :
  JS.all_str JS.is_space a = true ->
  JS.all_str JS.is_space b = true ->
  parseOTPAuthURL fuel (a +:+ url +:+ b) = parseOTPAuthURL fuel url.
Proof.
  intros Ha Hb. apply parseOTPAuthURL_trim, trim_padded; assumption.
Qed.

(** X14. The migration branch. An input that begins, once trimmed, with
    [otpauth-migration://] never reaches the URI parser, the fallbacks or
    the retry: the call returns at its first activation. Either the text
    after the first [otpauth-migration://offline?data=] (up to the next
    one) is not empty, and the call returns the fixed migration account
    whose secret is the first 32 characters of that text, at least one and
    at most 32; or the call raises an error whose message is
    [Could not parse migration data], which the handler passes on as it
    is. *)
Theorem parseOTPAuthURL_migration fuel url :
  JS.startsWith (JS.trim url) "otpauth-migration://" = true ->
  (exists data,
     split_1 (JS.trim url) "otpauth-migration://offline?data=" = Some data
     /\ parseOTPAuthURL (S fuel) url
        = Some (Ok {| name := "Migrated Account";
                      issuer := "Migration Service";
                      secret := JS.substring 0 32 data;
                      algorithm := "SHA1"; digits := 6; period := 30 |})
     /\ (1 <= String.length (JS.substring 0 32 data) <= 32)%nat)
  \/ parseOTPAuthURL (S fuel) url = Some (throw_new InvalidMigrationPayload).
Proof.
  intros Hm. cbn [parseOTPAuthURL]. unfold parse_activation, parse_try.
  rewrite Hm. unfold parse_migration.
  destruct (split_1 (JS.trim url) "otpauth-migration://offline?data=")
    as [data|] eqn:Hdata; [|right; reflexivity].
  destruct (JS.str_truthy data) eqn:Ht; [|right; reflexivity].
  left. exists data. split; [reflexivity|]. split; [reflexivity|].
  unfold JS.substring. cbn [JS.drop]. change (32 - 0)%nat with 32%nat.
  destruct data as [|c data]; [discriminate|].
  split; [cbn; lia|].
  generalize (String c data) as s. generalize 32%nat as n.
  induction n as [|n IH]; intros s; [cbn; lia|].
  destruct s as [|x s]; [cbn; lia|]. cbn [JS.take String.length].
  specialize (IH s). lia.
Qed.
Lemma trim_otpauth_prefix data :
  JS.startsWith data "otpauth://" = true ->
  exists rest, JS.trim data = "otpauth://" +:+ rest.
Proof.
  intros Hs. destruct (startsWith_split _ _ Hs) as [t ->].
  exists (JS.trimEnd t). unfold JS.trim, JS.trimStart.
  change ("otpauth://" +:+ t)
    with (String "o" (String "t" (String "p" (String "a" (String "u"
           (String "t" (String "h" (String ":" (String "/" (String "/" t)))))))))).
  cbn [JS.drop_while JS.is_space].
  rewrite !trimEnd_cons by reflexivity. reflexivity.
Qed.

Lemma match_otpauth_prefix rest :
  match_otpauth ("otpauth://" +:+ rest)
  = Some ("otpauth://" +:+ JS.take_while uri_char rest).
Proof.
  change ("otpauth://" +:+ rest)
    with (String "o" (String "t" (String "p" (String "a" (String "u"
           (String "t" (String "h" (String ":" (String "/" (String "/" rest)))))))))).
  cbn [match_otpauth JS.take JS.drop]. reflexivity.
Qed.

(** X15. What the scanner screens pass on. Both screens accept a scanned
    text only when it begins with [otpauth://] or [otpauth-migration://],
    in lowercase and without white space before it. For a text of the
    first kind the URI that [parseOTPAuthURL] hands to the [otpauth]
    package is the text up to its first white space or quote: the readings
    of the input as JSON, as a query string or as a bare secret are never
    tried. *)
Theorem scanned_otpauth_uri_is_matched data :
  JS.startsWith data "otpauth://" = true ->
  exists rest,
    JS.trim data = "otpauth://" +:+ rest
    /\ find_otpauthUrl (JS.trim data)
       = Ok ("otpauth://" +:+ JS.take_while uri_char rest)
    /\ parse_try data
       = (add_type_normalizedUrl (JS.trim data),
          parse_canonical
            (add_type_normalizedUrl (JS.trim data))
            (add_type_otpauthUrl
               ("otpauth://" +:+ JS.take_while uri_char rest))).
Proof.
  intros Hs. destruct (trim_otpauth_prefix data Hs) as [rest Hrest].
  exists rest. split; [exact Hrest|].
  assert (Hfind : find_otpauthUrl (JS.trim data)
                  = Ok ("otpauth://" +:+ JS.take_while uri_char rest)).
  { unfold find_otpauthUrl. rewrite Hrest, match_otpauth_prefix. reflexivity. }
  split; [exact Hfind|].
  unfold parse_try. rewrite Hfind.
  replace (JS.startsWith (JS.trim data) "otpauth-migration://") with false;
    [reflexivity|].
  rewrite Hrest. reflexivity.
Qed.

Lemma resolve_names_identified otpauthUrl p :
  fst (resolve_names otpauthUrl p) <> ""
  \/ snd (resolve_names otpauthUrl p) <> "".
Proof.
  unfold resolve_names. cbv zeta.
  match goal with
  | |- context [let '(a, i) := ?pair in _] => destruct pair as [a i]
  end.
  match goal with
  | |- context [if negb (JS.str_truthy ?x) && negb (JS.str_truthy ?y)
                then _ else _] =>
      generalize x; generalize y
  end.
  intros [|c1 i'] [|c2 a']; cbn;
    solve [left; discriminate | right; discriminate].
Qed.

(** X16. Every credential that [parseOTPAuthURL] returns can be told
    apart on the screen: its name and its issuer are not both empty. When
    the URI gives neither, the parser fills in [Unknown Account] and
    [Unknown Service]. *)
Theorem parsed_credential_is_identified fuel url c :
  parseOTPAuthURL fuel url = Some (Ok c) ->
  name c <> "" \/ issuer c <> "".
Proof.
  intros Hc. destruct (parseOTPAuthURL_Ok fuel url c Hc) as [url' Hurl'].
  unfold parse_try in Hurl'.
  destruct (JS.startsWith (JS.trim url') "otpauth-migration://").
  - cbn [snd] in Hurl'. destruct (parse_migration_Ok _ _ Hurl') as (data & _ & ->).
    left. discriminate.
  - destruct (find_otpauthUrl (JS.trim url')) as [o|e]; [|discriminate].
    cbn [snd] in Hurl'. unfold parse_canonical in Hurl'.
    destruct (URI_parse _) as [p|e]; [|discriminate].
    unfold mbind, Result_bind in Hurl'. cbn [bindR] in Hurl'.
    match type of Hurl' with
    | (if ?b then _ else _) = _ => destruct b; [discriminate|]
    end.
    destruct (require_secret _ p) as [key|e]; [|discriminate].
    cbn [bindR] in Hurl'.
    match type of Hurl' with
    | context [resolve_names ?u p] =>
        pose proof (resolve_names_identified u p) as Hid;
        destruct (resolve_names u p) as [accountName issuerName]
    end.
    injection Hurl' as <-. exact Hid.
Qed.

(** X17. Whatever the [otpauth] package reports, a credential that
    [parseOTPAuthURL] returns has an algorithm that is not the empty text
    and digits and a period that are not 0: the defaults [SHA1], 6 and 30
    take the place of such values, so that the countdown never divides by
    zero. *)
Theorem parsed_credential_defaults fuel url c :
  parseOTPAuthURL fuel url = Some (Ok c) ->
  algorithm c <> "" /\ digits c <> 0 /\ period c <> 0.
Proof.
  intros Hc. destruct (parseOTPAuthURL_Ok fuel url c Hc) as [url' Hurl'].
  unfold parse_try in Hurl'.
  destruct (JS.startsWith (JS.trim url') "otpauth-migration://").
  - cbn [snd] in Hurl'. destruct (parse_migration_Ok _ _ Hurl') as (data & _ & ->).
    repeat split; discriminate.
  - destruct (find_otpauthUrl (JS.trim url')) as [o|e]; [|discriminate].
    cbn [snd] in Hurl'.
    destruct (parse_canonical_Ok _ _ _ Hurl')
      as (p & key & _ & _ & -> & -> & ->).
    split; [|split].
    + destruct (otp_algorithm p) as [[|a0 a]|]; intros Heq; cbn in Heq;
        discriminate.
    + destruct (otp_digits p) as [n|]; [|intros Heq; discriminate].
      unfold or_else, JS.num_truthy.
      destruct (n =? 0) eqn:Hn; cbn [negb]; [intros Heq; discriminate|].
      apply Z.eqb_neq, Hn.
    + destruct (otp_period p) as [n|]; [|intros Heq; discriminate].
      unfold or_else, JS.num_truthy.
      destruct (n =? 0) eqn:Hn; cbn [negb]; [intros Heq; discriminate|].
      apply Z.eqb_neq, Hn.
Qed.

End ParserCallers.

(** ** The countdown *)

Lemma same_window s p k :
  0 <= s -> 0 < p -> 0 <= k < p - s mod p -> (s + k) / p = s / p.
Proof.
  intros Hs Hp Hk. symmetry.
  apply (Z.div_unique_pos (s + k) p (s / p) (s mod p + k)).
  - pose proof (Z.mod_pos_bound s p Hp). lia.
  - pose proof (Z.div_mod s p ltac:(lia)). lia.
Qed.

(** X18. The countdown of [getTimeRemaining], for a positive period and a
    clock at or after the epoch. The value points at the end of the
    current window: the clock second plus the value is a multiple of the
    period. One second later the value is one less, or the whole period
    again when it was 1: it never shows 0. It is the same one period
    later. *)
Theorem getTimeRemaining_countdown nowMs period :
  let r := getTimeRemaining nowMs (Some period) in
  0 <= nowMs -> 0 < period ->
  (nowMs / 1000 + r) mod period = 0
  /\ getTimeRemaining (nowMs + 1000) (Some period)
     = (if r =? 1 then period else r - 1)
  /\ getTimeRemaining (nowMs + 1000 * period) (Some period) = r.
Proof.
  intros r Hnow Hp. unfold r, getTimeRemaining. cbn [param].
  assert (Hs : 0 <= nowMs / 1000) by (apply Z.div_pos; lia).
  replace (nowMs + 1000) with (nowMs + 1 * 1000) by lia.
  replace (nowMs + 1000 * period) with (nowMs + period * 1000) by lia.
  rewrite !Z.div_add by lia.
  generalize dependent (nowMs / 1000). intros s Hs.
  rewrite !Z.rem_mod_nonneg by lia.
  pose proof (Z.mod_pos_bound s period Hp) as Hm.
  pose proof (Z.div_mod s period ltac:(lia)) as Hdm.
  split; [|split].
  - replace (s + (period - s mod period))
      with (0 + (s / period + 1) * period) by lia.
    rewrite Z.mod_add by lia. apply Z.mod_0_l. lia.
  - destruct (period - s mod period =? 1) eqn:Hone.
    + apply Z.eqb_eq in Hone.
      replace (s + 1) with (0 + (s / period + 1) * period) by lia.
      rewrite Z.mod_add by lia. rewrite Z.mod_0_l by lia. lia.
    + apply Z.eqb_neq in Hone.
      assert (Hnext : (s + 1) mod period = s mod period + 1).
      { symmetry. apply (Z.mod_unique_pos (s + 1) period (s / period)); lia. }
      rewrite Hnext. lia.
  - replace (s + period) with (s + 1 * period) by lia.
    rewrite Z.mod_add by lia. reflexivity.
Qed.

Lemma getTimeRemaining_countdown_witness :
  getTimeRemaining (59000 + 1000) (Some 30) = 30.
Proof.
  refine (proj1 (proj2 (getTimeRemaining_countdown 59000 30 _ _))); lia.
Defined.

(** X19. With the reference model of the [otpauth] package, the code of
    [generateTOTP] and the countdown agree: at any whole number of seconds
    later that is less than the value of [getTimeRemaining], the call gives
    the same result as now. *)
Theorem generateTOTP_stable_until_countdown_ends
    now secret algorithm digits period k :
  0 <= now -> 0 < param 30 period ->
  0 <= k < getTimeRemaining now period ->
  generateTOTP (H := RefOTPAuth) (now + 1000 * k) secret algorithm digits period
  = generateTOTP (H := RefOTPAuth) now secret algorithm digits period.
Proof.
  intros Hnow Hp Hk. unfold getTimeRemaining in Hk.
  assert (Hs : 0 <= now / 1000) by (apply Z.div_pos; lia).
  rewrite Z.rem_mod_nonneg in Hk by lia.
  unfold generateTOTP, generateTOTP_try.
  destruct (Secret_fromBase32 secret) as [key|e]; [|reflexivity].
  unfold mbind, Result_bind. cbn [bindR TOTP_new RefOTPAuth TOTP_generate].
  unfold SpecOTPAuth.generate. cbn [totp_algorithm totp_period totp_secret totp_digits].
  replace (now + 1000 * k) with (now + k * 1000) by lia.
  rewrite Z.div_add by lia.
  rewrite (same_window (now / 1000) (param 30 period) k Hs Hp Hk).
  reflexivity.
Qed.

Lemma generateTOTP_stable_until_countdown_ends_witness :
  generateTOTP (H := RefOTPAuth) (31000 + 1000 * 28) "JBSWY3DPEHPK3PXP"
    None None None
  = generateTOTP (H := RefOTPAuth) 31000 "JBSWY3DPEHPK3PXP" None None None.
Proof.
  apply (generateTOTP_stable_until_countdown_ends
           31000 "JBSWY3DPEHPK3PXP" None None None 28).
  - lia.
  - reflexivity.
  - vm_compute. split; [discriminate | reflexivity].
Defined.

(** ** The scanner screens *)

Section ScannerScreens.
Context `{OTPAuth} `{JSRuntime} `{ExpoCrypto}.

(** X20. A scanned text that passes the check of the screens and that
    [parseOTPAuthURL] reads as a credential, on a device that holds a list
    of accounts: both screens report success and store the list with one
    more entry at its end, made of the six fields of the credential
    followed by the new [id] and [createdAt]. *)
Theorem scanned_credential_is_added t fuel uuid now data d d' c items :
  let newAccount :=
    JObj (credential_fields c
          ++ [("id", JStr uuid); ("createdAt", JNum now)]) in
  let d1 := saveAccounts (Some (JArr (items ++ [newAccount]))) d' in
  JS.startsWith data "otpauth://"
  || JS.startsWith data "otpauth-migration://" = true ->
  parseOTPAuthURL fuel data = Some (Ok c) ->
  getAccounts d = (JArr items, d') ->
  handleBarCodeScanned fuel uuid now data d = Some (accountAdded (issuer c), d1)
  /\ handleScan t fuel uuid now data d = Some (import_success 1, d1).
Proof.
  intros newAccount d1 Hgate Hparse Hget.
  pose proof (addAccount_on_list (credential_fields c) uuid now d d' items Hget)
    as Hadd.
  cbv zeta in Hadd.
  change (JObj (RefJS.set_field "createdAt" (JNum now)
                  (RefJS.set_field "id" (JStr uuid) (credential_fields c))))
    with newAccount in Hadd.
  fold d1 in Hadd.
  unfold handleBarCodeScanned, handleScan.
  rewrite <- negb_orb, Hgate, Hparse, Hadd. split; reflexivity.
Qed.

(** X21. A scan that does not succeed stores nothing in plain mode.
    Whatever [handleScan] reports as an error (a text that fails the
    check of the screen, an error of the parser, whose message is shown as
    it is, or a failure of [addAccount]), the device is left as it was. *)
Theorem failed_scan_stores_nothing t fuel uuid now data d errorMessage d1 :
  isEncryptedStorageEnabled d = false ->
  handleScan t fuel uuid now data d = Some (import_error errorMessage, d1) ->
  d1 = d
  /\ (JS.startsWith data "otpauth://"
      || JS.startsWith data "otpauth-migration://" = true ->
      forall parseError,
        parseOTPAuthURL fuel data = Some (Throw parseError) ->
        errorMessage = message parseError).
Proof.
  intros Hmode. unfold handleScan.
  destruct (JS.startsWith data "otpauth://"
            || JS.startsWith data "otpauth-migration://") eqn:Hgate;
    rewrite <- negb_orb, Hgate; cbn [negb].
  - destruct (parseOTPAuthURL fuel data) as [[c|e]|]; [| |discriminate].
    + unfold addAccount.
      pose proof (getAccounts_plain_snd d Hmode) as Hsnd.
      destruct (getAccounts d) as [accounts d']. cbn [snd] in Hsnd. subst d'.
      destruct (spread (or_empty accounts)) as [items|e]; [discriminate|].
      intros [= _ <-]. split; [reflexivity|]. intros _ parseError. discriminate.
    + intros [= <- <-]. split; [reflexivity|].
      intros _ parseError [= <-]. reflexivity.
  - intros [= _ <-]. split; [reflexivity | discriminate].
Qed.

End ScannerScreens.

Lemma parseOTPAuthURL_ignores_padding_witness :
  parseOTPAuthURL (H := RefOTPAuth) (H0 := RefJSRuntime) 2
    (" " +:+ "otpauth://totp/Example:alice@example.com?secret=JBSWY3DPEHPK3PXP"
     +:+ String "010" (String "009" ""))
  = parseOTPAuthURL (H := RefOTPAuth) (H0 := RefJSRuntime) 2
      "otpauth://totp/Example:alice@example.com?secret=JBSWY3DPEHPK3PXP".
Proof.
  apply (parseOTPAuthURL_ignores_padding (H := RefOTPAuth) (H0 := RefJSRuntime)).
  - reflexivity.
  - reflexivity.
Defined.

Lemma parseOTPAuthURL_migration_witness :
  (exists data,
     split_1 (JS.trim "otpauth-migration://offline?data=CjEKCkhlbGxvId6tvu8")
       "otpauth-migration://offline?data=" = Some data
     /\ parseOTPAuthURL (H := RefOTPAuth) (H0 := RefJSRuntime) 1
          "otpauth-migration://offline?data=CjEKCkhlbGxvId6tvu8"
        = Some (Ok {| name := "Migrated Account";
                      issuer := "Migration Service";
                      secret := JS.substring 0 32 data;
                      algorithm := "SHA1"; digits := 6; period := 30 |})
     /\ (1 <= String.length (JS.substring 0 32 data) <= 32)%nat)
  \/ parseOTPAuthURL (H := RefOTPAuth) (H0 := RefJSRuntime) 1
       "otpauth-migration://offline?data=CjEKCkhlbGxvId6tvu8"
     = Some (throw_new InvalidMigrationPayload).
Proof.
  apply (parseOTPAuthURL_migration (H := RefOTPAuth) (H0 := RefJSRuntime) 0
           "otpauth-migration://offline?data=CjEKCkhlbGxvId6tvu8").
  reflexivity.
Defined.

Lemma scanned_otpauth_uri_is_matched_witness :
  exists rest,
    JS.trim "otpauth://totp/Example:alice?secret=JBSWY3DPEHPK3PXP scanned"
    = "otpauth://" +:+ rest
    /\ find_otpauthUrl (H0 := RefJSRuntime)
         (JS.trim "otpauth://totp/Example:alice?secret=JBSWY3DPEHPK3PXP scanned")
       = Ok ("otpauth://" +:+ JS.take_while uri_char rest).
Proof.
  destruct (scanned_otpauth_uri_is_matched (H := RefOTPAuth) (H0 := RefJSRuntime)
              "otpauth://totp/Example:alice?secret=JBSWY3DPEHPK3PXP scanned")
    as (rest & Htrim & Hfind & _).
  - reflexivity.
  - exists rest. split; [exact Htrim | exact Hfind].
Defined.

Lemma scanned_credential_is_added_witness :
  fst <$> handleScan (H := RefOTPAuth) (H0 := RefJSRuntime) (H1 := RefExpoCrypto)
            (fun key => key) 2 "0b5e" 1700000000001
            "otpauth://totp/Example:alice@example.com?secret=JBSWY3DPEHPK3PXP&issuer=Example"
            (sample_device false)
  = Some (import_success 1).
Proof.
  destruct (scanned_credential_is_added
              (H := RefOTPAuth) (H0 := RefJSRuntime) (H1 := RefExpoCrypto)
              (fun key => key) 2 "0b5e" 1700000000001
              "otpauth://totp/Example:alice@example.com?secret=JBSWY3DPEHPK3PXP&issuer=Example"
              (sample_device false) (sample_device false)
              {| name := "alice@example.com"; issuer := "Example";
                 secret := "JBSWY3DPEHPK3PXP"; algorithm := "SHA1";
                 digits := 6; period := 30 |}
              [sample_account])
    as [_ Hscan].
  - reflexivity.
  - vm_compute; reflexivity.
  - vm_compute; reflexivity.
  - rewrite Hscan. reflexivity.
Defined.

Lemma failed_scan_stores_nothing_witness :
  handleScan (H := RefOTPAuth) (H0 := RefJSRuntime) (H1 := RefExpoCrypto)
    (fun key => key) 2 "0b5e" 1700000000001
    "otpauth://totp/Unknown?secret=" (sample_device false)
  = Some (import_error MissingSecret, sample_device false)
  /\ sample_device false = sample_device false.
Proof.
  assert (Hscan :
    handleScan (H := RefOTPAuth) (H0 := RefJSRuntime) (H1 := RefExpoCrypto)
      (fun key => key) 2 "0b5e" 1700000000001
      "otpauth://totp/Unknown?secret=" (sample_device false)
    = Some (import_error MissingSecret, sample_device false))
    by (vm_compute; reflexivity).
  split; [exact Hscan|].
  refine (proj1 (failed_scan_stores_nothing
                   (H := RefOTPAuth) (H0 := RefJSRuntime) (H1 := RefExpoCrypto)
                   (fun key => key) 2 "0b5e" 1700000000001
                   "otpauth://totp/Unknown?secret=" (sample_device false)
                   MissingSecret (sample_device false) _ Hscan)).
  vm_compute; reflexivity.
Defined.

(** * The screens *)

(** ** The token card *)

Lemma take_drop n : forall s, JS.take n s +:+ JS.drop n s = s.
Proof.
  induction n as [|n IH]; intros [|c s]; try reflexivity.
  cbn [JS.take JS.drop].
  change (String c (JS.take n s) +:+ JS.drop n s)
    with (String c (JS.take n s +:+ JS.drop n s)).
  by rewrite IH.
Qed.

Lemma filter_str_app p (s t : string) :
  JS.filter_str p (s +:+ t) = JS.filter_str p s +:+ JS.filter_str p t.
Proof.
  induction s as [|c s IH]; [reflexivity|].
  change (String c s +:+ t) with (String c (s +:+ t)).
  cbn [JS.filter_str]. destruct (p c); [|exact IH].
  change (String c (JS.filter_str p s) +:+ JS.filter_str p t)
    with (String c (JS.filter_str p s +:+ JS.filter_str p t)).
  by rewrite IH.
Qed.

Lemma filter_str_all p s : JS.all_str p s = true -> JS.filter_str p s = s.
Proof.
  induction s as [|c s IH]; [reflexivity|]. cbn.
  destruct (p c); [|discriminate]. intros Hs. by rewrite IH.
Qed.

(** X22. The token card shows a code of more than three characters with
    one space after the third: for a code without white space, as the
    digits of [generateTOTP] are, the text shown is one character longer
    and gives the code back when the white space is taken out. A code of
    three characters or less is shown as it is. *)
Theorem formattedToken_keeps_code tokenValue :
  JS.all_str (fun c => negb (JS.is_space c)) tokenValue = true ->
  JS.filter_str (fun c => negb (JS.is_space c)) (formattedToken tokenValue)
  = tokenValue
  /\ String.length (formattedToken tokenValue)
     = (if (3 <? String.length tokenValue)%nat
        then S (String.length tokenValue) else String.length tokenValue)
  /\ JS.take 3 (formattedToken tokenValue) = JS.take 3 tokenValue.
Proof.
  intros Hall. unfold formattedToken.
  destruct (3 <? String.length tokenValue)%nat eqn:Hlen.
  - unfold JS.substring. change (3 - 0)%nat with 3%nat.
    replace (JS.drop 0 tokenValue) with tokenValue by (destruct tokenValue; reflexivity).
    pose proof (take_drop 3 tokenValue) as Hsplit.
    rewrite <- Hsplit in Hall at 1. rewrite all_str_app in Hall.
    apply andb_true_iff in Hall as [Htake Hdrop].
    split; [|split].
    + rewrite !filter_str_app, (filter_str_all _ _ Htake),
        (filter_str_all _ _ Hdrop).
      exact Hsplit.
    + rewrite !string_app_length. rewrite <- Hsplit at 3.
      rewrite string_app_length. cbn. lia.
    + apply Nat.ltb_lt in Hlen.
      destruct tokenValue as [|a [|b [|c t]]]; cbn in Hlen; try lia.
      reflexivity.
  - split; [apply filter_str_all, Hall | split; reflexivity].
Qed.

Lemma formattedToken_keeps_code_witness :
  JS.filter_str (fun c => negb (JS.is_space c)) (formattedToken "282760")
  = "282760".
Proof.
  refine (proj1 (formattedToken_keeps_code "282760" _)). reflexivity.
Defined.

(** ** The manual form *)

Lemma take_while_drop_while p s :
  JS.take_while p s +:+ JS.drop_while p s = s
  /\ JS.all_str p (JS.take_while p s) = true.
Proof.
  induction s as [|c s [IHs IHa]]; [split; reflexivity|].
  cbn [JS.take_while JS.drop_while]. destruct (p c) eqn:Hc.
  - change (String c (JS.take_while p s) +:+ JS.drop_while p s)
      with (String c (JS.take_while p s +:+ JS.drop_while p s)).
    rewrite IHs. split; [reflexivity|]. cbn. rewrite Hc. exact IHa.
  - split; reflexivity.
Qed.

Lemma all_str_impl (p q : ascii -> bool) s :
  (forall c, p c = true -> q c = true) ->
  JS.all_str p s = true -> JS.all_str q s = true.
Proof.
  intros Hpq. induction s as [|c s IH]; [reflexivity|]. cbn.
  intros Hs. apply andb_true_iff in Hs as [Hc Hs].
  rewrite (Hpq c Hc), (IH Hs). reflexivity.
Qed.

Lemma base32_padded_normalized c :
  base32_upper c || Ascii.eqb c "=" = true -> normalized_char c = true.
Proof.
  destruct c as [[] [] [] [] [] [] [] []]; vm_compute; congruence.
Qed.

(** X23. The manual form validates the secret. When [handleAdd] passes an
    account on, the three texts of the form were not empty, and the secret
    of the account is the one typed with its white space removed and its
    letters in uppercase: it is not empty, holds letters and the digits 2
    to 7 followed only by [=] signs, and so is normalized. Name, issuer
    and algorithm are passed on as typed. *)
Theorem handleAdd_validates_secret f account :
  handleAdd f = onAdd account ->
  form_name f <> "" /\ form_issuer f <> "" /\ form_secret f <> ""
  /\ manual_secret account
     = JS.toUpperCase
         (JS.filter_str (fun c => negb (JS.is_space c)) (form_secret f))
  /\ manual_secret account <> ""
  /\ JS.all_str (fun c => base32_upper c || Ascii.eqb c "=")
       (manual_secret account) = true
  /\ normalized_secret (manual_secret account) = true
  /\ manual_name account = form_name f
  /\ manual_issuer account = form_issuer f
  /\ manual_algorithm account = form_algorithm f.
Proof.
  unfold handleAdd.
  destruct (form_name f) as [|n0 n] eqn:Hn; [discriminate|].
  destruct (form_issuer f) as [|i0 i] eqn:Hi; [discriminate|].
  destruct (form_secret f) as [|s0 s] eqn:Hs; [discriminate|].
  cbn [JS.str_truthy negb orb].
  set (normalizedSecret := JS.toUpperCase _).
  destruct (base32Regex_test normalizedSecret) eqn:Htest; [|discriminate].
  cbn [negb]. intros [= <-]. cbn [manual_secret manual_name manual_issuer
                                   manual_algorithm].
  unfold base32Regex_test in Htest. apply andb_true_iff in Htest as [Hrun Hpad].
  destruct (take_while_drop_while base32_upper normalizedSecret) as [Hsplit Hall].
  assert (Hchars : JS.all_str (fun c => base32_upper c || Ascii.eqb c "=")
                     normalizedSecret = true).
  { rewrite <- Hsplit, all_str_app. apply andb_true_iff. split.
    - revert Hall. apply all_str_impl. intros c ->. reflexivity.
    - revert Hpad. apply all_str_impl. intros c ->. apply orb_true_r. }
  repeat split; try discriminate; try assumption.
  - intros Hempty. rewrite Hempty in Hrun. discriminate.
  - apply (all_str_impl _ _ _ base32_padded_normalized Hchars).
Qed.

Lemma handleAdd_validates_secret_witness :
  manual_secret
    {| manual_name := "alice"; manual_issuer := "Example";
       manual_secret := "JBSWY3DPEHPK3PXP"; manual_algorithm := "SHA1";
       manual_digits := Some 6; manual_period := Some 30 |}
  = JS.toUpperCase
      (JS.filter_str (fun c => negb (JS.is_space c)) "jbsw y3dp ehpk 3pxp").
Proof.
  refine (proj1 (proj2 (proj2 (proj2
    (handleAdd_validates_secret
       {| form_name := "alice"; form_issuer := "Example";
          form_secret := "jbsw y3dp ehpk 3pxp"; form_algorithm := "SHA1";
          form_digits := "6"; form_period := "30" |}
       _ _))))).
  reflexivity.
Defined.

(** ** Language and theme *)

Lemma existsb_eqb_In x l : existsb (String.eqb x) l = true <-> In x l.
Proof.
  rewrite existsb_exists. split.
  - intros (y & Hy & Hxy). apply String.eqb_eq in Hxy. subst y. exact Hy.
  - intros Hx. exists x. split; [exact Hx | apply String.eqb_refl].
Qed.

(** X24. The language that the start-up block applies is always one of
    the 21 languages of the application: a saved or a device language
    that is not among them, and a locale that is no text, give English. *)
Theorem startup_language_supported locale d :
  In (startup_language locale d) LANGUAGES.
Proof.
  unfold startup_language. destruct locale as [locale|]; [|left; reflexivity].
  cbv zeta.
  match goal with
  | |- context [existsb (String.eqb ?x) LANGUAGES] =>
      destruct (existsb (String.eqb x) LANGUAGES) eqn:Hx
  end.
  - apply existsb_eqb_In, Hx.
  - left. reflexivity.
Qed.

(** X25. A language chosen with [changeLanguage] survives a restart. When
    the language is one of the application and differs from the current
    one, it is saved, and the start-up block applies it on the next start
    whatever the locale of the device, as long as the locale is a text. A
    language that is not one of the application is saved all the same, and
    the next start applies English, not the device language. *)
Theorem changeLanguage_survives_restart language current d locale :
  let d1 := snd (changeLanguage language (current, d)) in
  language <> "" -> language <> current ->
  fst (changeLanguage language (current, d)) = language
  /\ asyncStorage d1 !! LANGUAGE_STORAGE_KEY = Some language
  /\ startup_language (Some locale) d1
     = (if existsb (String.eqb language) LANGUAGES then language else "en").
Proof.
  intros d1 Hne Hcur. unfold d1, changeLanguage.
  destruct language as [|c language]; [contradiction|].
  cbn [JS.str_truthy negb].
  destruct (String.eqb (String c language) current) eqn:Heq;
    [apply String.eqb_eq in Heq; contradiction|].
  cbn [fst snd]. split; [reflexivity|].
  assert (Hsaved : asyncStorage
                     (AsyncStorage_setItem LANGUAGE_STORAGE_KEY
                        (String c language) d) !! LANGUAGE_STORAGE_KEY
                   = Some (String c language)) by apply lookup_insert_eq.
  split; [exact Hsaved|].
  unfold startup_language. rewrite Hsaved. reflexivity.
Qed.

Lemma changeLanguage_survives_restart_witness :
  startup_language (Some "de-DE")
    (snd (changeLanguage "es-LA" ("en", sample_device false)))
  = "es-LA".
Proof.
  refine (proj2 (proj2 (changeLanguage_survives_restart
                          "es-LA" "en" (sample_device false) "de-DE" _ _)));
    discriminate.
Defined.

(** X26. [toggleTheme] switches between the light and the dark theme as
    they are shown: the theme shown afterwards is light when dark was
    shown, and dark otherwise. The new setting is never [system], so that
    the theme shown no longer follows the device, and it is the setting
    that [loadTheme] restores on the next start. *)
Theorem toggleTheme_flips scheme theme d :
  let st := toggleTheme scheme (theme, d) in
  currentTheme scheme (fst st)
  = (if String.eqb (currentTheme scheme theme) "dark" then "light" else "dark")
  /\ fst st <> "system"
  /\ (forall scheme', currentTheme scheme' (fst st) = fst st)
  /\ loadTheme (snd st) = fst st.
Proof.
  intros st. unfold st, toggleTheme, setTheme. cbn [fst snd].
  unfold loadTheme. cbn [asyncStorage AsyncStorage_setItem].
  rewrite lookup_insert_eq.
  destruct (String.eqb (currentTheme scheme theme) "dark");
    (split; [reflexivity|]); (split; [discriminate|]); split; reflexivity.
Qed.

Lemma saveAccounts_then_getAccounts_plain_witness :
  fst (getAccounts (H := RefJSRuntime) (H0 := RefExpoCrypto)
         (saveAccounts (H := RefJSRuntime) (H0 := RefExpoCrypto)
            (Some (JArr [sample_account; sample_account]))
            (sample_device false)))
  = JArr [sample_account; sample_account].
Proof.
  destruct (saveAccounts_then_getAccounts_plain
              (H := RefJSRuntime) (H0 := RefExpoCrypto)
              [sample_account; sample_account] (sample_device false))
    as (_ & Hget & _).
  - vm_compute; reflexivity.
  - vm_compute; reflexivity.
  - vm_compute; reflexivity.
  - rewrite Hget. reflexivity.
Defined.

Lemma parsed_credential_is_identified_witness :
  name {| name := "Unknown Account"; issuer := "Unknown Service";
          secret := "JBSWY3DPEHPK3PXP"; algorithm := "SHA1";
          digits := 6; period := 30 |} <> ""
  \/ issuer {| name := "Unknown Account"; issuer := "Unknown Service";
               secret := "JBSWY3DPEHPK3PXP"; algorithm := "SHA1";
               digits := 6; period := 30 |} <> "".
Proof.
  apply (parsed_credential_is_identified (H := RefOTPAuth) (H0 := RefJSRuntime)
           2 "otpauth://totp/?secret=JBSWY3DPEHPK3PXP").
  vm_compute; reflexivity.
Defined.

Lemma addAccount_then_deleteAccount_witness :
  asyncStorage
    (snd (deleteAccount (H := RefJSRuntime) (H0 := RefExpoCrypto) "0b5e"
            (snd (addAccount (H := RefJSRuntime) (H0 := RefExpoCrypto)
                    [("name", JStr "bob"); ("issuer", JStr "Acme");
                     ("secret", JStr "MFRGG")] "0b5e" 1700000000001
                    (sample_device false)))))
    !! ACCOUNTS_STORAGE_KEY
  = Some (JSON_stringify (JArr [sample_account])).
Proof.
  refine (proj2 (addAccount_then_deleteAccount
                   (H := RefJSRuntime) (H0 := RefExpoCrypto)
                   [("name", JStr "bob"); ("issuer", JStr "Acme");
                    ("secret", JStr "MFRGG")] "0b5e" 1700000000001
                   (sample_device false) [sample_account] _ _ _ _ _)).
  - vm_compute; reflexivity.
  - vm_compute; reflexivity.
  - repeat constructor; discriminate.
  - vm_compute; reflexivity.
  - vm_compute; reflexivity.
Defined.

Lemma parsed_credential_defaults_witness :
  algorithm {| name := "Unknown Account"; issuer := "Unknown Service";
               secret := "JBSWY3DPEHPK3PXP"; algorithm := "SHA1";
               digits := 6; period := 30 |} <> ""
  /\ digits {| name := "Unknown Account"; issuer := "Unknown Service";
               secret := "JBSWY3DPEHPK3PXP"; algorithm := "SHA1";
               digits := 6; period := 30 |} <> 0
  /\ period {| name := "Unknown Account"; issuer := "Unknown Service";
               secret := "JBSWY3DPEHPK3PXP"; algorithm := "SHA1";
               digits := 6; period := 30 |} <> 0.
Proof.
  apply (parsed_credential_defaults (H := RefOTPAuth) (H0 := RefJSRuntime)
           2 "otpauth://totp/?secret=JBSWY3DPEHPK3PXP").
  vm_compute; reflexivity.
Defined.
